(** * AIRES-x1: sensor-to-rig bridge (blender_robot_link.py and v1.py)

    A shallow embedding of the two host scripts of the repository:

    - [Link]     : blender_robot_link.py, the direct bone mapping
                   (one sensor drives one bone with a full quaternion);
    - [Retarget] : v1.py, the six-axis decomposition (two sensors drive
                   six single-axis joints) with a home pose on stop.

    Both scripts share the serial receiver [read_serial_thread].

    Conventions of the embedding.
    - Python numbers are exact rationals ([Qc]); rounding of IEEE floats is
      not modelled.  Python [int]s keep their own constructor in [pyval].
    - Python text is a Rocq [string], read as code points U+0000..U+00FF.
    - Module globals, the operator instance and the part of the host scene
      the scripts touch form one record, [World]; every function of the
      scripts is a computation in the monad [M] that threads the world and
      may raise.  A raise keeps the effects done before it, as in Python.
    - Attributes of host objects are plain record fields.
    - The imported libraries (json, mathutils, math) are the interface
      [HostLib]; the scripts are defined over any implementation of it. *)

From Stdlib Require Import ZArith QArith Qcanon String Ascii List.
From stdpp Require Import base numbers option list strings gmap.

Set Warnings "-register-all".

Local Open Scope Qc_scope.
Local Open Scope string_scope.

(** ** Python values *)

(** The values [json.loads] can return. [PDict] lists the items of the
    dictionary in insertion order; JSON object keys are always strings. *)
Inductive pyval : Type :=
| PNone
| PBool (b : bool)
| PInt (z : Z)
| PFloat (f : Qc)
| PStr (s : string)
| PList (l : list pyval)
| PDict (kvs : list (string * pyval)).

(** An integer as a Python number. *)
Definition zq (z : Z) : Qc := Q2Qc (inject_Z z).

(** Keys of a Python dictionary, up to Python's key equality:
    [True == 1 == 1.0] name the same slot. *)
Inductive Key : Type :=
| KNone
| KNum (q : Qc)
| KStr (s : string).

#[global] Instance Key_eq_dec : EqDecision Key.
Proof. solve_decision. Defined.

#[global] Instance Key_countable : Countable Key.
Proof.
  refine (inj_countable'
    (fun k => match k with
              | KNone => inl tt
              | KNum q => inr (inl q)
              | KStr s => inr (inr s)
              end)
    (fun x => match x with
              | inl _ => KNone
              | inr (inl q) => KNum q
              | inr (inr s) => KStr s
              end) _).
  by intros [].
Defined.

(** [hash(v)] as used for a dictionary key; lists and dictionaries are
    unhashable ([None] stands for the TypeError). *)
Definition py_hash_key (v : pyval) : option Key :=
  match v with
  | PNone => Some KNone
  | PBool b => Some (KNum (if b then zq 1 else zq 0))
  | PInt z => Some (KNum (zq z))
  | PFloat f => Some (KNum f)
  | PStr s => Some (KStr s)
  | PList _ | PDict _ => None
  end.

(** [d.get(k)] on the items of a dictionary: the last binding wins. *)
Fixpoint dict_get (k : string) (kvs : list (string * pyval)) : option pyval :=
  match kvs with
  | [] => None
  | (k', v) :: rest =>
      match dict_get k rest with
      | Some v' => Some v'
      | None => if decide (k' = k) then Some v else None
      end
  end.

(** The keys of a dictionary, once each, in the order of first insertion. *)
Definition dict_keys (kvs : list (string * pyval)) : list string :=
  rev (remove_dups (rev (map fst kvs))).

(** [d.get(k)] on a dictionary literal of the scripts (distinct keys,
    kept in the order they are written). *)
Fixpoint alist_get {K A : Type} `{EqDecision K} (k : K) (kvs : list (K * A)) : option A :=
  match kvs with
  | [] => None
  | (k', v) :: rest => if decide (k' = k) then Some v else alist_get k rest
  end.

(** ** Host data: rotations, pose bones, objects *)

Record Quaternion : Type := mkQuat { qw : Qc; qx : Qc; qy : Qc; qz : Qc }.

Record Euler : Type := mkEuler { ex : Qc; ey : Qc; ez : Qc; order : string }.

Definition quat_identity : Quaternion := mkQuat 1 0 0 0.

(** A pose bone, with the three attributes the scripts write. *)
Record PoseBone : Type := mkPoseBone {
  rotation_mode : string;
  rotation_euler : Euler;
  rotation_quaternion : Quaternion
}.

(** A scene object; [pose] is [None] for objects that are not armatures. *)
Record Object : Type := mkObject {
  obj_name : string;
  obj_type : string;
  pose : option (gmap string PoseBone)
}.

(** One attribute write on a pose bone, as the host receives it. *)
Inductive HostWrite : Type :=
| WMode (rig bone : string) (mode : string)
| WEulerAxis (rig bone : string) (axis : string) (angle : Qc)
| WQuat (rig bone : string) (q : Quaternion).

(** Return flags of an operator method. *)
Inductive OpResult : Type := PASS_THROUGH | RUNNING_MODAL | CANCELLED.

(** ** The imported libraries *)

Class HostLib : Type := {
  (** [json.loads]; [None] when it raises. *)
  json_loads : string -> option pyval;
  (** [Quaternion.to_euler(order)] of mathutils. *)
  quat_to_euler : string -> Quaternion -> Euler;
  (** [Euler.to_quaternion()] of mathutils. *)
  euler_to_quaternion : Euler -> Quaternion;
  (** [math.radians]. *)
  radians : Qc -> Qc
}.

(** Modelled from the spec: the quaternion product [a @ b] of the host's
    rotation library, which is not part of the repository; the spec names it
    as the composition [final = sensor_quat * offset_quat], the Hamilton
    product. *)
Definition quat_matmul (a b : Quaternion) : Quaternion :=
  mkQuat
    (qw a * qw b - qx a * qx b - qy a * qy b - qz a * qz b)
    (qw a * qx b + qx a * qw b + qy a * qz b - qz a * qy b)
    (qw a * qy b + qy a * qw b + qz a * qx b - qx a * qz b)
    (qw a * qz b + qz a * qw b + qx a * qy b - qy a * qx b).

(** ** The world *)

Record World : Type := mkWorld {
  (** bpy.data.objects, by name *)
  objects : gmap string Object;
  (** context.view_layer.objects.active *)
  active_object : option Object;
  (** module globals *)
  latest_data : gmap Key pyval;
  is_running : bool;
  packet_count : Z;
  (** operator instance: self._timer, self._armature_name *)
  op_timer : option nat;
  op_armature_name : string;
  (** window manager: registered timers (handle to period), next handle,
      number of modal handlers *)
  wm_timers : gmap nat Qc;
  wm_next_timer : nat;
  wm_modal_handlers : nat;
  (** receiver tasks launched so far *)
  receiver_threads : nat;
  (** self.report(level, message) *)
  reports : list (string * string);
  (** every pose-bone attribute write so far, oldest first *)
  pose_log : list HostWrite
}.

Definition set_objects (f : gmap string Object -> gmap string Object) (w : World) : World :=
  mkWorld (f (objects w)) (active_object w) (latest_data w) (is_running w)
    (packet_count w) (op_timer w) (op_armature_name w) (wm_timers w)
    (wm_next_timer w) (wm_modal_handlers w) (receiver_threads w) (reports w)
    (pose_log w).

Definition set_latest_data (f : gmap Key pyval -> gmap Key pyval) (w : World) : World :=
  mkWorld (objects w) (active_object w) (f (latest_data w)) (is_running w)
    (packet_count w) (op_timer w) (op_armature_name w) (wm_timers w)
    (wm_next_timer w) (wm_modal_handlers w) (receiver_threads w) (reports w)
    (pose_log w).

Definition set_is_running (b : bool) (w : World) : World :=
  mkWorld (objects w) (active_object w) (latest_data w) b
    (packet_count w) (op_timer w) (op_armature_name w) (wm_timers w)
    (wm_next_timer w) (wm_modal_handlers w) (receiver_threads w) (reports w)
    (pose_log w).

Definition set_packet_count (n : Z) (w : World) : World :=
  mkWorld (objects w) (active_object w) (latest_data w) (is_running w)
    n (op_timer w) (op_armature_name w) (wm_timers w)
    (wm_next_timer w) (wm_modal_handlers w) (receiver_threads w) (reports w)
    (pose_log w).

Definition set_op_timer (t : option nat) (w : World) : World :=
  mkWorld (objects w) (active_object w) (latest_data w) (is_running w)
    (packet_count w) t (op_armature_name w) (wm_timers w)
    (wm_next_timer w) (wm_modal_handlers w) (receiver_threads w) (reports w)
    (pose_log w).

Definition set_op_armature_name (n : string) (w : World) : World :=
  mkWorld (objects w) (active_object w) (latest_data w) (is_running w)
    (packet_count w) (op_timer w) n (wm_timers w)
    (wm_next_timer w) (wm_modal_handlers w) (receiver_threads w) (reports w)
    (pose_log w).

Definition set_wm_timers (f : gmap nat Qc -> gmap nat Qc) (next : nat) (w : World) : World :=
  mkWorld (objects w) (active_object w) (latest_data w) (is_running w)
    (packet_count w) (op_timer w) (op_armature_name w) (f (wm_timers w))
    next (wm_modal_handlers w) (receiver_threads w) (reports w)
    (pose_log w).

Definition set_wm_modal_handlers (n : nat) (w : World) : World :=
  mkWorld (objects w) (active_object w) (latest_data w) (is_running w)
    (packet_count w) (op_timer w) (op_armature_name w) (wm_timers w)
    (wm_next_timer w) n (receiver_threads w) (reports w)
    (pose_log w).

Definition set_receiver_threads (n : nat) (w : World) : World :=
  mkWorld (objects w) (active_object w) (latest_data w) (is_running w)
    (packet_count w) (op_timer w) (op_armature_name w) (wm_timers w)
    (wm_next_timer w) (wm_modal_handlers w) n (reports w)
    (pose_log w).

Definition add_report (level msg : string) (w : World) : World :=
  mkWorld (objects w) (active_object w) (latest_data w) (is_running w)
    (packet_count w) (op_timer w) (op_armature_name w) (wm_timers w)
    (wm_next_timer w) (wm_modal_handlers w) (receiver_threads w)
    (reports w ++ [(level, msg)])
    (pose_log w).

Definition add_pose_log (e : HostWrite) (w : World) : World :=
  mkWorld (objects w) (active_object w) (latest_data w) (is_running w)
    (packet_count w) (op_timer w) (op_armature_name w) (wm_timers w)
    (wm_next_timer w) (wm_modal_handlers w) (receiver_threads w) (reports w)
    (pose_log w ++ [e]).

(** The pose bone [bone] of the object [rig], when both exist. *)
Definition bone_at (w : World) (rig bone : string) : option PoseBone :=
  o ← objects w !! rig; bs ← pose o; bs !! bone.

(** ** The monad of script code *)

Inductive outcome (A : Type) : Type :=
| Returned (a : A)
| Raised.
Arguments Returned {A} a.
Arguments Raised {A}.

Definition M (A : Type) : Type := World -> outcome A * World.

#[global] Instance M_ret : MRet M := fun A a w => (Returned a, w).

#[global] Instance M_bind : MBind M := fun A B f m w =>
  match m w with
  | (Returned a, w') => f a w'
  | (Raised, w') => (Raised, w')
  end.

Definition raise {A : Type} : M A := fun w => (Raised, w).

Definition gets {A : Type} (f : World -> A) : M A := fun w => (Returned (f w), w).

Definition modify (f : World -> World) : M unit := fun w => (Returned tt, f w).

(** A Python value that may be missing, where a miss raises. *)
Definition or_raise {A : Type} (o : option A) : M A :=
  match o with
  | Some a => mret a
  | None => raise
  end.

(** [try: body except: pass] *)
Definition try_pass (body : M unit) : M unit := fun w => (Returned tt, snd (body w)).

(** [for x in xs: body x] *)
Fixpoint for_each {A : Type} (xs : list A) (body : A -> M unit) : M unit :=
  match xs with
  | [] => mret tt
  | x :: rest => _ ← body x; for_each rest body
  end.

(** The world a computation leaves behind, returned or raised. *)
Definition exec {A : Type} (m : M A) (w : World) : World := snd (m w).

(** ** Text *)

(** [str.isspace] on one character of the range U+0000..U+00FF. *)
Definition py_isspace (c : ascii) : bool :=
  let n := N_of_ascii c in
  ((9 <=? n) && (n <=? 13) || (28 <=? n) && (n <=? 32)
   || (n =? 133) || (n =? 160))%N.

Fixpoint lstrip (cs : list ascii) : list ascii :=
  match cs with
  | [] => []
  | c :: rest => if py_isspace c then lstrip rest else cs
  end.

(** [s.strip()] *)
Definition py_strip (s : string) : string :=
  string_of_list_ascii
    (rev (lstrip (rev (lstrip (list_ascii_of_string s))))).

(** [s.startswith(c)] for a one-character prefix. *)
Definition startswith (c : ascii) (s : string) : bool :=
  match s with
  | String c' _ => bool_decide (c' = c)
  | EmptyString => false
  end.

(** [s.endswith(c)] for a one-character suffix. *)
Fixpoint endswith (c : ascii) (s : string) : bool :=
  match s with
  | EmptyString => false
  | String c' EmptyString => bool_decide (c' = c)
  | String _ rest => endswith c rest
  end.

(** ** The serial receiver (both scripts) *)

(** What one turn of the receiver loop meets on the device. *)
Inductive rx : Type :=
| RxIdle                  (** [ser.in_waiting] is zero *)
| RxDeviceError           (** [ser.in_waiting] raises *)
| RxUndecodable           (** [readline] or [decode] raises *)
| RxLine (text : string). (** the decoded text of one frame *)

Module Serial.
Section WithLib.
Context {L : HostLib}.

(** The body of the inner [try] once a line is decoded.  A text that
    starts with a brace decodes to a dictionary or not at all; on any other
    value the membership test or the subscript fails, which the caller
    swallows just the same. *)
Definition store_packet (text : string) : M unit :=
  let line := py_strip text in
  if startswith "{" line && endswith "}" line then
    data ← or_raise (json_loads line);
    match data with
    | PDict kvs =>
        if bool_decide (is_Some (dict_get "id" kvs))
           && bool_decide (is_Some (dict_get "q" kvs)) then
          q ← or_raise (dict_get "q" kvs);
          id ← or_raise (dict_get "id" kvs);
          k ← or_raise (py_hash_key id);
          _ ← modify (set_latest_data (insert k q));
          n ← gets packet_count;
          modify (set_packet_count (n + 1)%Z)
        else mret tt
    | _ => raise
    end
  else mret tt.

(** One turn of [while is_running], after the test of the flag; a raise
    here is an exception that leaves the loop. *)
Definition iteration (r : rx) : M unit :=
  match r with
  | RxIdle => mret tt
  | RxDeviceError => raise
  | RxUndecodable => try_pass raise
  | RxLine text => try_pass (store_packet text)
  end.

Fixpoint loop (rxs : list rx) : M unit :=
  match rxs with
  | [] => mret tt
  | r :: rest =>
      running ← gets is_running;
      if (running : bool) then _ ← iteration r; loop rest else mret tt
  end.

(** [read_serial_thread], run over the turns [rxs] of the device;
    [opened] tells whether [serial.Serial(...)] succeeds.  The outer
    [except] clears the run flag. *)
Definition read_serial_thread (opened : bool) (rxs : list rx) : M unit :=
  fun w =>
    if opened then
      match loop rxs w with
      | (Returned _, w') => (Returned tt, w')
      | (Raised, w') => (Returned tt, set_is_running false w')
      end
    else (Returned tt, set_is_running false w).
End WithLib.
End Serial.

(** ** Host operations used by the operators *)

(** Apply [f] to the pose bone [bone] of the object [rig]. *)
Definition update_bone (rig bone : string) (f : PoseBone -> PoseBone) : World -> World :=
  set_objects (alter (fun o =>
    mkObject (obj_name o) (obj_type o) (alter f bone <$> pose o)) rig).

(** [obj.pose.bones.get(bone)] on the object named [rig]: raises when the
    object has no pose. *)
Definition pose_bones_get (rig bone : string) : M (option PoseBone) :=
  o ← (fun w => or_raise (objects w !! rig) w);
  bs ← or_raise (pose o);
  mret (bs !! bone).

(** [p_bone.rotation_mode = mode] *)
Definition assign_rotation_mode (rig bone mode : string) : M unit :=
  modify (fun w => add_pose_log (WMode rig bone mode)
    (update_bone rig bone (fun pb =>
       mkPoseBone mode (rotation_euler pb) (rotation_quaternion pb)) w)).

(** [e.x = v], [e.y = v], [e.z = v] on an Euler value. *)
Definition euler_with (axis : string) (v : Qc) (e : Euler) : Euler :=
  if decide (axis = "X") then mkEuler v (ey e) (ez e) (order e)
  else if decide (axis = "Y") then mkEuler (ex e) v (ez e) (order e)
  else if decide (axis = "Z") then mkEuler (ex e) (ey e) v (order e)
  else e.

(** The [if axis == 'X' ... elif ... elif ...] chain on
    [p_bone.rotation_euler]; any other axis name writes nothing. *)
Definition assign_euler_axis (rig bone axis : string) (v : Qc) : M unit :=
  if bool_decide (axis = "X") || bool_decide (axis = "Y")
     || bool_decide (axis = "Z") then
    modify (fun w => add_pose_log (WEulerAxis rig bone axis v)
      (update_bone rig bone (fun pb =>
         mkPoseBone (rotation_mode pb) (euler_with axis v (rotation_euler pb))
           (rotation_quaternion pb)) w))
  else mret tt.

(** [p_bone.rotation_quaternion = q] *)
Definition assign_rotation_quaternion (rig bone : string) (q : Quaternion) : M unit :=
  modify (fun w => add_pose_log (WQuat rig bone q)
    (update_bone rig bone (fun pb =>
       mkPoseBone (rotation_mode pb) (rotation_euler pb) q) w)).

(** [wm.event_timer_add(period, window=...)] *)
Definition event_timer_add (period : Qc) : M nat :=
  fun w =>
    let h := wm_next_timer w in
    (Returned h, set_wm_timers (insert h period) (S h) w).

(** [wm.event_timer_remove(timer)]; the host rejects [None]. *)
Definition event_timer_remove (t : option nat) : M unit :=
  h ← or_raise t;
  modify (fun w => set_wm_timers (delete h) (wm_next_timer w) w).

(** A number handed to the rotation library ([int], [float] and [bool]
    are accepted). *)
Definition as_float (v : pyval) : option Qc :=
  match v with
  | PInt z => Some (zq z)
  | PFloat f => Some f
  | PBool b => Some (if b then zq 1 else zq 0)
  | _ => None
  end.

(** [mathutils.Quaternion((a, b, c, d))] *)
Definition make_quaternion (a b c d : pyval) : option Quaternion :=
  w ← as_float a; x ← as_float b; y ← as_float c; z ← as_float d;
  Some (mkQuat w x y z).

(** [w, x, y, z = v]: any iterable of exactly four items unpacks. *)
Definition unpack4 (v : pyval) : option (pyval * pyval * pyval * pyval) :=
  let items :=
    match v with
    | PList l => Some l
    | PStr s => Some (map (fun c => PStr (String c EmptyString)) (list_ascii_of_string s))
    | PDict kvs => Some (map PStr (dict_keys kvs))
    | _ => None
    end in
  match items with
  | Some [a; b; c; d] => Some (a, b, c, d)
  | _ => None
  end.

(** [v[i]] for an integer index [i >= 0]. *)
Definition py_getitem (v : pyval) (i : nat) : option pyval :=
  match v with
  | PList l => l !! i
  | PStr s => (fun c => PStr (String c EmptyString)) <$> list_ascii_of_string s !! i
  | _ => None
  end.

(** [-v] *)
Definition py_neg (v : pyval) : option pyval :=
  match v with
  | PInt z => Some (PInt (- z))
  | PFloat f => Some (PFloat (- f))
  | PBool b => Some (PInt (- (if b then 1 else 0)))
  | _ => None
  end.

(** ** blender_robot_link.py *)

Module Link.
Section WithLib.
Context {L : HostLib}.

Definition BONE_MAP : list (Z * string) :=
  [(0%Z, "UpperArm.008"); (1%Z, "UpperArm.021")].

Definition BONE_OFFSETS : list (Z * Euler) :=
  [(0%Z, mkEuler 0 0 0 "XYZ"); (1%Z, mkEuler 0 0 0 "XYZ")].

(** The body of [for sensor_id, bone_name in BONE_MAP.items()]. *)
Definition update_sensor_bone (rig : string) (item : Z * string) : M unit :=
  let sensor_id := fst item in
  let bone_name := snd item in
  store ← gets latest_data;
  match store !! KNum (zq sensor_id) with
  | Some raw =>
      p_bone ← pose_bones_get rig bone_name;
      match p_bone with
      | Some _ =>
          wxyz ← or_raise (unpack4 raw);
          let '(w, x, y, z) := wxyz in
          nz ← or_raise (py_neg z);
          sensor_quat ← or_raise (make_quaternion w y x nz);
          let offset :=
            default (mkEuler 0 0 0 "XYZ") (alist_get sensor_id BONE_OFFSETS) in
          let final_rot := quat_matmul sensor_quat (euler_to_quaternion offset) in
          _ ← assign_rotation_mode rig bone_name "QUATERNION";
          assign_rotation_quaternion rig bone_name final_rot
      | None => mret tt
      end
  | None => mret tt
  end.

Definition cancel : M OpResult :=
  _ ← modify (set_is_running false);
  t ← gets op_timer;
  _ ← event_timer_remove t;
  mret CANCELLED.

Definition modal (event_type : string) : M OpResult :=
  if decide (event_type = "ESC") then cancel
  else if decide (event_type = "TIMER") then
    rig ← gets op_armature_name;
    obj ← gets (fun w => objects w !! rig);
    match obj with
    | Some _ =>
        _ ← for_each BONE_MAP (update_sensor_bone rig);
        mret PASS_THROUGH
    | None => cancel
    end
  else mret PASS_THROUGH.

(** The tail of [execute] once the armature name is known. *)
Definition start (name : string) : M OpResult :=
  _ ← modify (set_op_armature_name name);
  _ ← modify (set_is_running true);
  _ ← modify (fun w => set_receiver_threads (S (receiver_threads w)) w);
  t ← event_timer_add (Q2Qc (16 # 1000));
  _ ← modify (set_op_timer (Some t));
  _ ← modify (fun w => set_wm_modal_handlers (S (wm_modal_handlers w)) w);
  _ ← modify (add_report "INFO" "Robot Link Started on COM3");
  mret RUNNING_MODAL.

(** The [else] branch of the armature search: any object named
    "Armature", or the error report. *)
Definition start_fallback : M OpResult :=
  fallback ← gets (fun w => objects w !! "Armature");
  match fallback with
  | Some _ => start "Armature"
  | None =>
      _ ← modify (add_report "ERROR" "Please SELECT your Robot Armature first!");
      mret CANCELLED
  end.

Definition execute : M OpResult :=
  running ← gets is_running;
  if (running : bool) then mret RUNNING_MODAL
  else
    active_obj ← gets active_object;
    match active_obj with
    | Some o =>
        if decide (obj_type o = "ARMATURE") then start (obj_name o)
        else start_fallback
    | None => start_fallback
    end.
End WithLib.
End Link.

(** ** v1.py *)

Module Retarget.
Section WithLib.
Context {L : HostLib}.

Record JointConfig : Type := mkJoint { bone : string; axis : string }.

Definition JOINT_MAP : list (string * JointConfig) :=
  [ ("Base",     mkJoint "UpperArm.008" "Z");
    ("Shoulder", mkJoint "UpperArm.015" "X");
    ("Elbow",    mkJoint "UpperArm.018" "X");
    ("Wrist",    mkJoint "UpperArm.019" "Y");
    ("Wrist_2",  mkJoint "UpperArm.020" "X");
    ("Gripper",  mkJoint "UpperArm.021" "Y") ].

Definition INITIAL_POSE : list (string * Qc) :=
  [ ("Base", 0); ("Shoulder", 0); ("Elbow", 0);
    ("Wrist", 0); ("Wrist_2", 0); ("Gripper", 0) ].

Definition IMU_SHOULDER_ID : Z := 1.
Definition IMU_FOREARM_ID : Z := 0.

(** [mathutils.Quaternion((raw[0], raw[1], raw[2], raw[3]))] *)
Definition quaternion_of_raw (raw : pyval) : option Quaternion :=
  a ← py_getitem raw 0; b ← py_getitem raw 1;
  c ← py_getitem raw 2; d ← py_getitem raw 3;
  make_quaternion a b c d.

(** Steps 2 and 3 of the tick: the Euler angles of both sensors and the
    table [target_angles]. *)
Definition target_angles (q1 q2 : Quaternion) : list (string * Qc) :=
  let imu1_euler := quat_to_euler "ZYX" q1 in
  let imu2_euler := quat_to_euler "ZYX" q2 in
  let imu1_yaw := ez imu1_euler in
  let imu1_pitch := ey imu1_euler in
  let imu1_roll := ex imu1_euler in
  let imu2_pitch := ey imu2_euler in
  let imu2_roll := ex imu2_euler in
  [ ("Base", imu1_yaw);
    ("Shoulder", imu1_pitch);
    ("Elbow", imu2_pitch - imu1_pitch);
    ("Wrist", imu2_roll - imu1_roll);
    ("Wrist_2", 0);
    ("Gripper", imu2_roll) ].

(** The body of [for joint_name, config in JOINT_MAP.items()] in
    [modal]. *)
Definition apply_joint (rig : string) (target : list (string * Qc))
    (item : string * JointConfig) : M unit :=
  let joint_name := fst item in
  let bone_name := bone (snd item) in
  let axis := axis (snd item) in
  p_bone ← pose_bones_get rig bone_name;
  match p_bone with
  | Some _ =>
      _ ← assign_rotation_mode rig bone_name "XYZ";
      angle ← or_raise (alist_get joint_name target);
      assign_euler_axis rig bone_name axis angle
  | None => mret tt
  end.

(** The body of the same loop in [cancel]. *)
Definition home_joint (rig : string) (item : string * JointConfig) : M unit :=
  let joint_name := fst item in
  let bone_name := bone (snd item) in
  let axis := axis (snd item) in
  let target_deg := default 0 (alist_get joint_name INITIAL_POSE) in
  let target_rad := radians target_deg in
  p_bone ← pose_bones_get rig bone_name;
  match p_bone with
  | Some _ =>
      _ ← assign_rotation_mode rig bone_name "XYZ";
      assign_euler_axis rig bone_name axis target_rad
  | None => mret tt
  end.

Definition cancel : M OpResult :=
  _ ← modify (set_is_running false);
  t ← gets op_timer;
  _ ← event_timer_remove t;
  rig ← gets op_armature_name;
  obj ← gets (fun w => objects w !! rig);
  _ ← match obj with
      | Some _ => for_each JOINT_MAP (home_joint rig)
      | None => mret tt
      end;
  mret CANCELLED.

Definition modal (event_type : string) : M OpResult :=
  if decide (event_type = "ESC") then cancel
  else if decide (event_type = "TIMER") then
    rig ← gets op_armature_name;
    obj ← gets (fun w => objects w !! rig);
    store ← gets latest_data;
    match obj, store !! KNum (zq IMU_SHOULDER_ID), store !! KNum (zq IMU_FOREARM_ID) with
    | Some _, Some q1_raw, Some q2_raw =>
        q1 ← or_raise (quaternion_of_raw q1_raw);
        q2 ← or_raise (quaternion_of_raw q2_raw);
        _ ← for_each JOINT_MAP (apply_joint rig (target_angles q1 q2));
        mret PASS_THROUGH
    | _, _, _ => mret PASS_THROUGH
    end
  else mret PASS_THROUGH.

(** The tail of [execute] once the armature name is known. *)
Definition start (name : string) : M OpResult :=
  _ ← modify (set_op_armature_name name);
  _ ← modify (set_is_running true);
  _ ← modify (fun w => set_receiver_threads (S (receiver_threads w)) w);
  t ← event_timer_add (Q2Qc (16 # 1000));
  _ ← modify (set_op_timer (Some t));
  _ ← modify (fun w => set_wm_modal_handlers (S (wm_modal_handlers w)) w);
  mret RUNNING_MODAL.

(** The [else] branch of the armature search: any object named
    "Armature", or the error report. *)
Definition start_fallback : M OpResult :=
  fallback ← gets (fun w => objects w !! "Armature");
  match fallback with
  | Some _ => start "Armature"
  | None =>
      _ ← modify (add_report "ERROR" "Select Armature first!");
      mret CANCELLED
  end.

Definition execute : M OpResult :=
  running ← gets is_running;
  if (running : bool) then mret RUNNING_MODAL
  else
    active_obj ← gets active_object;
    match active_obj with
    | Some o =>
        if decide (obj_type o = "ARMATURE") then start (obj_name o)
        else start_fallback
    | None => start_fallback
    end.
End WithLib.
End Retarget.

(** ** A small implementation of the library interface

    Used to run the scripts on concrete inputs.  [Json.loads] reads the JSON
    grammar over ASCII text: objects, arrays, strings with the one-letter
    escapes, numbers, [true], [false] and [null].  It does not read the
    [\u] escape nor the constants NaN and Infinity, which have no value in
    this embedding.  The rotation functions are the first-order
    (small-angle) conversions, and [radians] uses 355/113 for pi. *)

Module Json.
Definition dquote : ascii := ascii_of_nat 34.
Definition backslash : ascii := ascii_of_nat 92.

Definition is_ws (c : ascii) : bool :=
  let n := N_of_ascii c in
  ((n =? 32) || (n =? 9) || (n =? 10) || (n =? 13))%N.

Fixpoint skip_ws (cs : list ascii) : list ascii :=
  match cs with
  | c :: rest => if is_ws c then skip_ws rest else cs
  | [] => []
  end.

Definition digit (c : ascii) : option Z :=
  let n := Z.of_N (N_of_ascii c) in
  if ((48 <=? n) && (n <=? 57))%Z then Some (n - 48)%Z else None.

(** A run of digits: its value after [acc], its length, the rest. *)
Fixpoint digits (cs : list ascii) (acc : Z) (count : nat) : Z * nat * list ascii :=
  match cs with
  | c :: rest =>
      match digit c with
      | Some d => digits rest (10 * acc + d)%Z (S count)
      | None => (acc, count, cs)
      end
  | [] => (acc, count, cs)
  end.

(** The integer part: a single zero, or digits with no leading zero. *)
Definition int_part (cs : list ascii) : option (Z * list ascii) :=
  match cs with
  | c :: rest =>
      if Ascii.eqb c "0" then Some (0%Z, rest)
      else
        match digits cs 0 0 with
        | (_, O, _) => None
        | (v, _, rest') => Some (v, rest')
        end
  | [] => None
  end.

(** An optional fraction [.ddd]: numerator, number of digits, rest. *)
Definition frac_part (cs : list ascii) : option (Z * nat) * list ascii :=
  match cs with
  | c :: rest =>
      if Ascii.eqb c "." then
        match digits rest 0 0 with
        | (_, O, _) => (None, cs)
        | (f, n, rest') => (Some (f, n), rest')
        end
      else (None, cs)
  | [] => (None, cs)
  end.

(** An optional exponent [e+dd]. *)
Definition exp_part (cs : list ascii) : option Z * list ascii :=
  match cs with
  | c :: rest =>
      if Ascii.eqb c "e" || Ascii.eqb c "E" then
        let '(neg, rest1) :=
          match rest with
          | s :: rest' =>
              if Ascii.eqb s "-" then (true, rest')
              else if Ascii.eqb s "+" then (false, rest')
              else (false, rest)
          | [] => (false, rest)
          end in
        match digits rest1 0 0 with
        | (_, O, _) => (None, cs)
        | (e, _, rest2) => (Some (if neg then - e else e)%Z, rest2)
        end
      else (None, cs)
  | [] => (None, cs)
  end.

Definition pow10 (e : Z) : Qc :=
  if (0 <=? e)%Z then zq (10 ^ e) else / zq (10 ^ (- e)).

Definition number (cs : list ascii) : option (pyval * list ascii) :=
  let '(neg, cs1) :=
    match cs with
    | c :: rest => if Ascii.eqb c "-" then (true, rest) else (false, cs)
    | [] => (false, cs)
    end in
  match int_part cs1 with
  | None => None
  | Some (v, cs2) =>
      let '(fr, cs3) := frac_part cs2 in
      let '(ep, cs4) := exp_part cs3 in
      match fr, ep with
      | None, None => Some (PInt (if neg then - v else v), cs4)
      | _, _ =>
          let mant :=
            match fr with
            | Some (f, n) => zq v + zq f / zq (10 ^ Z.of_nat n)
            | None => zq v
            end in
          let scaled := mant * pow10 (default 0%Z ep) in
          Some (PFloat (if neg then - scaled else scaled), cs4)
      end
  end.

Definition unescape (c : ascii) : option ascii :=
  if Ascii.eqb c dquote then Some dquote
  else if Ascii.eqb c backslash then Some backslash
  else if Ascii.eqb c "/" then Some "/"%char
  else if Ascii.eqb c "b" then Some (ascii_of_nat 8)
  else if Ascii.eqb c "f" then Some (ascii_of_nat 12)
  else if Ascii.eqb c "n" then Some (ascii_of_nat 10)
  else if Ascii.eqb c "r" then Some (ascii_of_nat 13)
  else if Ascii.eqb c "t" then Some (ascii_of_nat 9)
  else None.

(** The characters of a string after its opening quote. *)
Fixpoint string_body (cs acc : list ascii) : option (string * list ascii) :=
  match cs with
  | [] => None
  | c :: rest =>
      if Ascii.eqb c dquote then Some (string_of_list_ascii (rev acc), rest)
      else if Ascii.eqb c backslash then
        match rest with
        | e :: rest' =>
            match unescape e with
            | Some c' => string_body rest' (c' :: acc)
            | None => None
            end
        | [] => None
        end
      else if (N_of_ascii c <? 32)%N then None
      else string_body rest (c :: acc)
  end.

Definition literal (word : string) (v : pyval) (cs : list ascii) : option (pyval * list ascii) :=
  let ws := list_ascii_of_string word in
  if bool_decide (take (length ws) cs = ws) then Some (v, drop (length ws) cs) else None.

Fixpoint value (fuel : nat) (cs : list ascii) : option (pyval * list ascii) :=
  match fuel with
  | O => None
  | S fuel' =>
      match skip_ws cs with
      | [] => None
      | c :: rest =>
          if Ascii.eqb c "{" then
            match skip_ws rest with
            | c' :: rest' =>
                if Ascii.eqb c' "}" then Some (PDict [], rest')
                else members fuel' rest []
            | [] => None
            end
          else if Ascii.eqb c "[" then
            match skip_ws rest with
            | c' :: rest' =>
                if Ascii.eqb c' "]" then Some (PList [], rest')
                else elements fuel' rest []
            | [] => None
            end
          else if Ascii.eqb c dquote then
            match string_body rest [] with
            | Some (s, rest') => Some (PStr s, rest')
            | None => None
            end
          else if Ascii.eqb c "t" then literal "true" (PBool true) (c :: rest)
          else if Ascii.eqb c "f" then literal "false" (PBool false) (c :: rest)
          else if Ascii.eqb c "n" then literal "null" PNone (c :: rest)
          else number (c :: rest)
      end
  end
with elements (fuel : nat) (cs : list ascii) (acc : list pyval) : option (pyval * list ascii) :=
  match fuel with
  | O => None
  | S fuel' =>
      match value fuel' cs with
      | Some (v, rest) =>
          match skip_ws rest with
          | c :: rest' =>
              if Ascii.eqb c "," then elements fuel' rest' (v :: acc)
              else if Ascii.eqb c "]" then Some (PList (rev (v :: acc)), rest')
              else None
          | [] => None
          end
      | None => None
      end
  end
with members (fuel : nat) (cs : list ascii) (acc : list (string * pyval)) : option (pyval * list ascii) :=
  match fuel with
  | O => None
  | S fuel' =>
      match skip_ws cs with
      | c :: rest =>
          if Ascii.eqb c dquote then
            match string_body rest [] with
            | Some (k, rest1) =>
                match skip_ws rest1 with
                | c1 :: rest2 =>
                    if Ascii.eqb c1 ":" then
                      match value fuel' rest2 with
                      | Some (v, rest3) =>
                          match skip_ws rest3 with
                          | c3 :: rest4 =>
                              if Ascii.eqb c3 "," then members fuel' rest4 ((k, v) :: acc)
                              else if Ascii.eqb c3 "}" then
                                Some (PDict (rev ((k, v) :: acc)), rest4)
                              else None
                          | [] => None
                          end
                      | None => None
                      end
                    else None
                | [] => None
                end
            | None => None
            end
          else None
      | [] => None
      end
  end.

Definition loads (s : string) : option pyval :=
  let cs := list_ascii_of_string s in
  match value (S (2 * length cs)) cs with
  | Some (v, rest) =>
      match skip_ws rest with
      | [] => Some v
      | _ => None
      end
  | None => None
  end.
End Json.

Definition example_lib : HostLib := {|
  json_loads := Json.loads;
  quat_to_euler := fun order q =>
    mkEuler (zq 2 * qx q) (zq 2 * qy q) (zq 2 * qz q) order;
  euler_to_quaternion := fun e =>
    mkQuat 1 (ex e / zq 2) (ey e / zq 2) (ez e / zq 2);
  radians := fun d => d * Q2Qc (355 # 113) / zq 180
|}.

(** A text between double quotes, and a frame of the wire format
    with the given texts for the id and for the rotation. *)
Definition quoted (s : string) : string :=
  String Json.dquote (s ++ String Json.dquote EmptyString).

Definition packet_line (id q : string) : string :=
  "{" ++ quoted "id" ++ ": " ++ id ++ ", " ++ quoted "q" ++ ": " ++ q ++ "}".

(** A rig with the bones both scripts name, in an arbitrary pose. *)
Definition sample_bone : PoseBone :=
  mkPoseBone "QUATERNION" (mkEuler (zq 3) (zq 5) (zq 7) "XYZ") (mkQuat 0 1 0 0).

Definition sample_bones : gmap string PoseBone :=
  list_to_map
    [ ("UpperArm.008", sample_bone); ("UpperArm.015", sample_bone);
      ("UpperArm.018", sample_bone); ("UpperArm.019", sample_bone);
      ("UpperArm.020", sample_bone); ("UpperArm.021", sample_bone) ].

Definition sample_rig : Object := mkObject "Armature" "ARMATURE" (Some sample_bones).

(** A started session on that rig with an empty store. *)
Definition sample_world : World := {|
  objects := {[ "Armature" := sample_rig ]};
  active_object := Some sample_rig;
  latest_data := ∅;
  is_running := true;
  packet_count := 0;
  op_timer := Some 0%nat;
  op_armature_name := "Armature";
  wm_timers := {[ 0%nat := Q2Qc (16 # 1000) ]};
  wm_next_timer := 1;
  wm_modal_handlers := 1;
  receiver_threads := 1;
  reports := [];
  pose_log := []
|}.

(** A scene with no armature, before any start. *)
Definition empty_world : World := {|
  objects := ∅;
  active_object := None;
  latest_data := ∅;
  is_running := false;
  packet_count := 0;
  op_timer := None;
  op_armature_name := "";
  wm_timers := ∅;
  wm_next_timer := 0;
  wm_modal_handlers := 0;
  receiver_threads := 0;
  reports := [];
  pose_log := []
|}.

(** ** The system as a sequence of operations

    The host calls [execute], [modal] and [cancel] of the operator, and the
    receiver task runs its loop; one operation runs at a time.  Whatever
    the outcome of an operation, returned or raised, the world it leaves
    is the next one. *)

Inductive SysOp : Type :=
| OpExecute
| OpModal (event_type : string)
| OpCancel
| OpReceiver (opened : bool) (rxs : list rx).

Definition link_step {L : HostLib} (op : SysOp) : World -> World :=
  match op with
  | OpExecute => exec Link.execute
  | OpModal ev => exec (Link.modal ev)
  | OpCancel => exec Link.cancel
  | OpReceiver opened rxs => exec (Serial.read_serial_thread opened rxs)
  end.

Definition retarget_step {L : HostLib} (op : SysOp) : World -> World :=
  match op with
  | OpExecute => exec Retarget.execute
  | OpModal ev => exec (Retarget.modal ev)
  | OpCancel => exec Retarget.cancel
  | OpReceiver opened rxs => exec (Serial.read_serial_thread opened rxs)
  end.

Definition run (step : SysOp -> World -> World) (ops : list SysOp) (w : World) : World :=
  foldl (fun w op => step op w) w ops.

(** An operation that stops the operator: [cancel], or [modal] on the
    escape event. *)
Definition is_stop (op : SysOp) : bool :=
  match op with
  | OpCancel => true
  | OpModal ev => bool_decide (ev = "ESC")
  | _ => false
  end.

(** ** Vocabulary of the statements *)

(** A computation leaves the observation [obs] of the world as it was,
    whether it returns or raises. *)
Definition preserves {A B : Type} (obs : World -> B) (m : M A) : Prop :=
  forall w, obs (exec m w) = obs w.

(** The frame [text] is one the receiver accepts, and stores [q] under
    [k]: brace-delimited after stripping, decoded to a dictionary that has
    both members, with a hashable id. *)
Definition accepted {L : HostLib} (text : string) (k : Key) (q : pyval) : Prop :=
  exists kvs id,
    startswith "{" (py_strip text) = true /\
    endswith "}" (py_strip text) = true /\
    json_loads (py_strip text) = Some (PDict kvs) /\
    dict_get "id" kvs = Some id /\
    dict_get "q" kvs = Some q /\
    py_hash_key id = Some k.

(** A stored value that is a rotation: a list of exactly four numbers. *)
Definition is_rotation (v : pyval) : Prop :=
  exists a b c d, v = PList [a; b; c; d] /\
    is_Some (as_float a) /\ is_Some (as_float b) /\
    is_Some (as_float c) /\ is_Some (as_float d).

(** The pose bone a single-axis write leaves: Euler mode, one component
    replaced. *)
Definition axis_written (axis : string) (angle : Qc) (pb : PoseBone) : PoseBone :=
  mkPoseBone "XYZ" (euler_with axis angle (rotation_euler pb)) (rotation_quaternion pb).

(** The pose bone a quaternion write leaves. *)
Definition quat_written (q : Quaternion) (pb : PoseBone) : PoseBone :=
  mkPoseBone "QUATERNION" (rotation_euler pb) q.

(** The component of an Euler value on a named axis. *)
Definition euler_component (axis : string) (e : Euler) : Qc :=
  if decide (axis = "X") then ex e
  else if decide (axis = "Y") then ey e
  else ez e.

(** The two writes of one joint, in the order the host receives them. *)
Definition joint_writes (rig : string) (angle : string -> Qc)
    (item : string * Retarget.JointConfig) : list HostWrite :=
  [ WMode rig (Retarget.bone item.2) "XYZ";
    WEulerAxis rig (Retarget.bone item.2) (Retarget.axis item.2) (angle item.1) ].

(** The world after the two writes of one joint on an existing bone. *)
Definition joint_written (rig : string) (angle : string -> Qc)
    (item : string * Retarget.JointConfig) (w : World) : World :=
  let b := Retarget.bone item.2 in
  let a := Retarget.axis item.2 in
  add_pose_log (WEulerAxis rig b a (angle item.1))
    (update_bone rig b (fun pb =>
       mkPoseBone (rotation_mode pb) (euler_with a (angle item.1) (rotation_euler pb))
         (rotation_quaternion pb))
    (add_pose_log (WMode rig b "XYZ")
      (update_bone rig b (fun pb =>
         mkPoseBone "XYZ" (rotation_euler pb) (rotation_quaternion pb)) w))).

(** The angle of a joint in a table, zero when the table has no entry. *)
Definition angle_of (table : list (string * Qc)) (name : string) : Qc :=
  default 0 (alist_get name table).

(** The home angle of a joint in the engine's unit. *)
Definition home_angle {L : HostLib} (name : string) : Qc :=
  radians (angle_of Retarget.INITIAL_POSE name).

(** The angle a joint of v1.py shows on the rig: the component of its
    bone's Euler rotation on its configured axis. *)
Definition joint_angle (w : World) (rig name : string) : option Qc :=
  j ← alist_get name Retarget.JOINT_MAP;
  pb ← bone_at w rig (Retarget.bone j);
  Some (euler_component (Retarget.axis j) (rotation_euler pb)).

(** The static offset of a sensor of blender_robot_link.py, as a
    quaternion. *)
Definition offset_quat {L : HostLib} (sensor_id : Z) : Quaternion :=
  euler_to_quaternion
    (default (mkEuler 0 0 0 "XYZ") (alist_get sensor_id Link.BONE_OFFSETS)).

(** The rotation the Link Stage derives from a stored (w, x, y, z): the
    relabelling (w, y, x, -z), then the offset on the right. *)
Definition link_rotation {L : HostLib} (sensor_id : Z) (w x y z : Qc) : Quaternion :=
  quat_matmul (mkQuat w y x (- z)) (offset_quat sensor_id).

(** The world after the two writes of one sensor on an existing bone. *)
Definition sensor_written (rig bone : string) (q : Quaternion) (w : World) : World :=
  add_pose_log (WQuat rig bone q)
    (update_bone rig bone (fun pb =>
       mkPoseBone (rotation_mode pb) (rotation_euler pb) q)
    (add_pose_log (WMode rig bone "QUATERNION")
      (update_bone rig bone (fun pb =>
         mkPoseBone "QUATERNION" (rotation_euler pb) (rotation_quaternion pb)) w))).

(** The numbers of a stored rotation. *)
Definition rotation_of (v : pyval) : option (Qc * Qc * Qc * Qc) :=
  match v with
  | PList [a; b; c; d] =>
      w ← as_float a; x ← as_float b; y ← as_float c; z ← as_float d;
      Some (w, x, y, z)
  | _ => None
  end.

(** The rig of the operator has the bone of every joint of v1.py. *)
Definition rig_has_joints (w : World) : Prop :=
  Forall (fun j : string * Retarget.JointConfig =>
            is_Some (bone_at w (op_armature_name w) (Retarget.bone j.2)))
    Retarget.JOINT_MAP.

(** Two frames of the wire format, and the started session after the
    receiver has read them: with [example_lib] the shoulder reads as
    (yaw, pitch, roll) = (30, 10, 0) and the forearm as (pitch, roll) =
    (25, 5), in units of 1/100. *)
Definition shoulder_line : string := packet_line "1" "[1, 0, 0.05, 0.15]".
Definition forearm_line : string := packet_line "0" "[1, 0.025, 0.125, 0]".

Definition tick_world : World :=
  exec (@Serial.read_serial_thread example_lib true
          [RxLine shoulder_line; RxLine forearm_line]) sample_world.

(** The object [rig] exists and has a pose. *)
Definition has_pose (w : World) (rig : string) : Prop :=
  is_Some (objects w !! rig ≫= pose).

(** One turn of the joint loop: the two writes when the rig has the bone,
    nothing otherwise. *)
Definition joint_step (rig : string) (angle : string -> Qc)
    (item : string * Retarget.JointConfig) (w : World) : World :=
  if decide (is_Some (bone_at w rig (Retarget.bone item.2)))
  then joint_written rig angle item w
  else w.

(** The writes of the joints whose bone the rig has, in loop order. *)
Definition present_writes (w : World) (rig : string) (angle : string -> Qc)
    (js : list (string * Retarget.JointConfig)) : list HostWrite :=
  flat_map (fun j =>
    if decide (is_Some (bone_at w rig (Retarget.bone j.2)))
    then joint_writes rig angle j else []) js.

(** One turn of the sensor loop of blender_robot_link.py on stored
    rotations: the two writes when the sensor has data and the rig has the
    bone, nothing otherwise. *)
Definition sensor_step {L : HostLib} (rig : string) (item : Z * string) (w : World) : World :=
  match latest_data w !! KNum (zq item.1), bone_at w rig item.2 with
  | Some raw, Some _ =>
      match rotation_of raw with
      | Some (qw, qx, qy, qz) =>
          sensor_written rig item.2 (link_rotation item.1 qw qx qy qz) w
      | None => w
      end
  | _, _ => w
  end.

(** Every configured sensor of blender_robot_link.py that has data has a
    rotation. *)
Definition link_store_ok (w : World) : Prop :=
  Forall (fun item : Z * string =>
            forall raw, latest_data w !! KNum (zq item.1) = Some raw ->
                        is_Some (rotation_of raw))
    Link.BONE_MAP.

(** The started session after one frame for sensor 1 that carries the
    identity rotation. *)
Definition identity_line : string := packet_line "1" "[1, 0, 0, 0]".

Definition link_world : World :=
  exec (@Serial.read_serial_thread example_lib true [RxLine identity_line])
    sample_world.

(** The host writes of one turn of the sensor loop of
    blender_robot_link.py, mode first. *)
Definition sensor_writes {L : HostLib} (rig : string) (w : World) (item : Z * string) : list HostWrite :=
  match latest_data w !! KNum (zq item.1), bone_at w rig item.2 with
  | Some raw, Some _ =>
      match rotation_of raw with
      | Some (qw, qx, qy, qz) =>
          [ WMode rig item.2 "QUATERNION";
            WQuat rig item.2 (link_rotation item.1 qw qx qy qz) ]
      | None => []
      end
  | _, _ => []
  end.

(** The world after the receiver has stored [q] under [k]. *)
Definition stored (k : Key) (q : pyval) (w : World) : World :=
  set_packet_count (packet_count w + 1)%Z (set_latest_data (insert k q) w).

(** A frame with an empty rotation for sensor 1, one for sensor 0, and a
    frame whose id is a text. *)
Definition empty_rotation_line : string := packet_line "1" "[]".
Definition empty_rotation_line_0 : string := packet_line "0" "[]".
Definition text_id_line : string := packet_line (quoted "a") "[1, 0, 0, 0]".

(** ** Vocabulary of the further properties *)

(** The entry a decoded line makes the receiver store, if any. *)
Definition packet_of {L : HostLib} (text : string) : option (Key * pyval) :=
  let line := py_strip text in
  if startswith "{" line && endswith "}" line then
    match json_loads line with
    | Some (PDict kvs) =>
        id ← dict_get "id" kvs; q ← dict_get "q" kvs;
        k ← py_hash_key id; Some (k, q)
    | _ => None
    end
  else None.

(** The entry one turn of the receiver loop stores, if any. *)
Definition rx_packet {L : HostLib} (r : rx) : option (Key * pyval) :=
  match r with
  | RxLine text => packet_of text
  | _ => None
  end.

Definition is_device_error (r : rx) : bool :=
  match r with
  | RxDeviceError => true
  | _ => false
  end.

(** The world after the receiver has stored the packets [ps] in order. *)
Definition stored_all (ps : list (Key * pyval)) (w : World) : World :=
  foldl (fun w p => stored p.1 p.2 w) w ps.

(** A decoded text with white space added on both sides. *)
Definition padded (pre post : list ascii) (text : string) : string :=
  string_of_list_ascii (pre ++ list_ascii_of_string text ++ post).

(** What the receiver has no business with: the scene, the host's write
    log, the operator instance, the window manager and the reports. *)
Definition operator_side (w : World) :=
  (objects w, pose_log w, op_timer w, op_armature_name w, wm_timers w,
   wm_next_timer w, wm_modal_handlers w, receiver_threads w, reports w).

(** A started session in which sensor 0 has sent a rotation and sensor 1
    a frame with an empty rotation. *)
Definition half_bad_world : World :=
  exec (@Serial.read_serial_thread example_lib true
          [RxLine (packet_line "0" "[1, 0, 0, 0]"); RxLine empty_rotation_line])
    sample_world.

(** The rotation a sensor of blender_robot_link.py asks for, when its
    stored value is a rotation. *)
Definition sensor_target {L : HostLib} (sensor_id : Z) (w : World) : option Quaternion :=
  raw ← latest_data w !! KNum (zq sensor_id);
  r ← rotation_of raw;
  Some (link_rotation sensor_id r.1.1.1 r.1.1.2 r.1.2 r.2).

(** The world a successful start leaves, before any report: the name of
    the rig kept, the run flag set, one more receiver task, a new timer of
    16 ms kept in the operator, one more modal handler. *)
Definition start_world (name : string) (w : World) : World :=
  set_wm_modal_handlers (S (wm_modal_handlers w))
    (set_op_timer (Some (wm_next_timer w))
       (set_wm_timers (insert (wm_next_timer w) (Q2Qc (16 # 1000)))
          (S (wm_next_timer w))
          (set_receiver_threads (S (receiver_threads w))
             (set_is_running true (set_op_armature_name name w))))).

(** The world a stop leaves before any home pose: the run flag cleared and
    the timer [h] removed. *)
Definition stop_world (h : nat) (w : World) : World :=
  set_wm_timers (delete h) (wm_next_timer w) (set_is_running false w).

(** The sample session after its rig has been removed from the scene, and
    the session with both sensors read on a rig that lacks the elbow
    bone. *)
Definition orphan_world : World := set_objects (fun _ => ∅) sample_world.

Definition partial_world : World :=
  update_bone "Armature" "UpperArm.018" (fun pb => pb)
    (set_objects
       (fun _ => {[ "Armature" :=
                      mkObject "Armature" "ARMATURE"
                        (Some (delete "UpperArm.018" sample_bones)) ]})
       tick_world).

(** A scene whose only object is a mesh named "Armature", before any
    start. *)
Definition mesh_world : World :=
  set_objects (fun _ => {[ "Armature" := mkObject "Armature" "MESH" None ]})
    empty_world.

(** An operation of the operator itself, as opposed to a turn of the
    receiver task. *)
Definition is_operator_op (op : SysOp) : bool :=
  match op with
  | OpReceiver _ _ => false
  | _ => true
  end.

(** The mesh scene after a start of v1.py and the two sample frames. *)
Definition started_mesh_world : World :=
  exec (@Serial.read_serial_thread example_lib true
          [RxLine shoulder_line; RxLine forearm_line])
    (exec Retarget.execute mesh_world).

(** The store of v1.py with the entries of both sensors cut down to
    their first four elements. *)
Definition cut_store (l1 l2 : list pyval) (w : World) : World :=
  set_latest_data
    (fun m => <[KNum (zq Retarget.IMU_SHOULDER_ID) := PList (take 4 l1)]>
                (<[KNum (zq Retarget.IMU_FOREARM_ID) := PList (take 4 l2)]> m))
    w.

(** A started session in which both sensors have sent a rotation of five
    numbers. *)
Definition long_world : World :=
  exec (@Serial.read_serial_thread example_lib true
          [RxLine (packet_line "1" "[1, 0, 0.05, 0.15, 9]");
           RxLine (packet_line "0" "[1, 0.025, 0.125, 0, 9]")])
    sample_world.

(** * The installer of pyserial

    [install_pyserial] is the same function in both scripts and runs when
    a script is loaded, before anything else.  What it sees of the
    interpreter is a parameter: whether [import serial] succeeds in a given
    state, the path of the interpreter, what [subprocess.call] answers to a
    command given the commands handed to it before, and the user site
    directory.  Its state is what it changes or could change: the commands
    handed to [subprocess.call], [sys.path], the lines printed and the
    calls of [importlib.invalidate_caches]. *)
Module Installer.

(** [subprocess.call(cmd)]: the return code of the process, or an
    exception. *)
Inductive CallResult :=
  | Exit (code : Z)
  | CallRaised (msg : string).

Record Env := mkEnv {
  calls : list (list string);
  sys_path : list string;
  printed : list string;
  invalidations : nat
}.

Class Host := {
  (** [import serial] succeeds; the alternative is an [ImportError] *)
  import_serial : Env -> bool;
  (** [sys.executable] *)
  sys_executable : string;
  (** the answer to a command, after the commands handed over before *)
  subprocess_call : list (list string) -> list string -> CallResult;
  (** [site.getusersitepackages()]; [None] when it raises *)
  getusersitepackages : option string
}.

Section Installer.
Context {H : Host}.

Definition print (line : string) (e : Env) : Env :=
  mkEnv (calls e) (sys_path e) (printed e ++ [line]) (invalidations e).

(** [subprocess.call(cmd)] *)
Definition call (cmd : list string) (e : Env) : CallResult * Env :=
  (subprocess_call (calls e) cmd,
   mkEnv (calls e ++ [cmd]) (sys_path e) (printed e) (invalidations e)).

Definition invalidate_caches (e : Env) : Env :=
  mkEnv (calls e) (sys_path e) (printed e) (S (invalidations e)).

(** [sys.path.append(p)] *)
Definition path_append (p : string) (e : Env) : Env :=
  mkEnv (calls e) (sys_path e ++ [p]) (printed e) (invalidations e).

Definition ensurepip_cmd : list string :=
  [sys_executable; "-m"; "ensurepip"; "--user"].

Definition commands : list (list string) :=
  [ [sys_executable; "-m"; "pip"; "install"; "pyserial"];
    [sys_executable; "-m"; "pip"; "install"; "pyserial"; "--user"] ].

(** The loop over [commands]: the first command that exits with 0 ends it
    with [success = True]; an exception of a call is passed over. *)
Fixpoint try_commands (cmds : list (list string)) (e : Env) : bool * Env :=
  match cmds with
  | [] => (false, e)
  | cmd :: rest =>
      let (result, e') := call cmd e in
      match result with
      | Exit 0 => (true, e')
      | _ => try_commands rest e'
      end
  end.

Definition install_pyserial (e : Env) : Env :=
  if import_serial e then e
  else
    let e := print "Pyserial not found. Attempting installation..." e in
    let (r, e) := call ensurepip_cmd e in
    let e := match r with
             | Exit _ => e
             | CallRaised msg => print ("Ensurepip failed: " ++ msg) e
             end in
    let (success, e) := try_commands commands e in
    if (success : bool) then
      let e := print "Pyserial installed! Refreshing paths..." e in
      let e := invalidate_caches e in
      match getusersitepackages with
      | Some user_site =>
          if decide (user_site ∈ sys_path e) then e else path_append user_site e
      | None => e
      end
    else print "CRITICAL: Manual install required via terminal." e.

(** The head of a script: the installer, then [import serial], whose
    [ImportError] is raised again with the message returned here. *)
Definition load_head (e : Env) : option string * Env :=
  let e := install_pyserial e in
  if import_serial e then (None, e)
  else (Some "Library installed but not loaded. PLEASE RESTART BLENDER.", e).

End Installer.

(** An interpreter without pyserial in which the plain install is refused
    and the install to the user site works; [serial] can be imported once
    the user site is on [sys.path]. *)
Definition example_host : Host := {|
  import_serial e := bool_decide ("/home/u/site-packages" ∈ sys_path e);
  sys_executable := "/opt/blender/python";
  subprocess_call _ cmd :=
    if bool_decide ("ensurepip" ∈ cmd) then CallRaised "no module"
    else if bool_decide ("--user" ∈ cmd) then Exit 0
    else Exit 1;
  getusersitepackages := Some "/home/u/site-packages"
|}.

Definition fresh : Env := mkEnv [] ["/opt/blender/lib"] [] 0.

End Installer.

(** A turn of the receiver on a frame that is no packet: its bytes do not
    decode, or the decoded line fails one of the steps of the inner [try]:
    the brace test, [json.loads], the value not being an object, the
    membership test of "id" and "q", or the hashing of the id. *)
Inductive malformed {L : HostLib} : rx -> Prop :=
| undecodable :
    malformed RxUndecodable
| not_braced (text : string) :
    startswith "{" (py_strip text) && endswith "}" (py_strip text) = false ->
    malformed (RxLine text)
| not_json (text : string) :
    json_loads (py_strip text) = None ->
    malformed (RxLine text)
| not_a_record (text : string) (v : pyval) :
    json_loads (py_strip text) = Some v ->
    (forall kvs, v <> PDict kvs) ->
    malformed (RxLine text)
| member_missing (text : string) (kvs : list (string * pyval)) :
    json_loads (py_strip text) = Some (PDict kvs) ->
    dict_get "id" kvs = None \/ dict_get "q" kvs = None ->
    malformed (RxLine text)
| unhashable_id (text : string) (kvs : list (string * pyval)) (id : pyval) :
    json_loads (py_strip text) = Some (PDict kvs) ->
    dict_get "id" kvs = Some id ->
    py_hash_key id = None ->
    malformed (RxLine text).

(** * Properties *)

Example json_loads_packet :
  Json.loads (packet_line "1" "[1.0, 0, -2.5e-1, 0.5]")
  = Some (PDict [("id", PInt 1);
                 ("q", PList [PFloat (zq 1); PInt 0; PFloat (Q2Qc (-1 # 4)); PFloat (Q2Qc (1 # 2))])]).
Proof. vm_compute. reflexivity. Qed.

(** Membership in a list written out in full. *)
Ltac pick_elem :=
  repeat first [apply list_elem_of_here | apply list_elem_of_further].

(** ** Running the monad *)

Lemma exec_bind {A B : Type} (m : M A) (f : A -> M B) (w : World) :
  exec (m ≫= f) w
  = match m w with
    | (Returned a, w') => exec (f a) w'
    | (Raised, w') => w'
    end.
Proof.
  unfold exec, mbind, M_bind. by destruct (m w) as [[a|] w'].
Qed.

Lemma bind_returned {A B : Type} (m : M A) (f : A -> M B) (w w' : World) (a : A) :
  m w = (Returned a, w') -> (m ≫= f) w = f a w'.
Proof. intros H. unfold mbind, M_bind. by rewrite H. Qed.

Lemma bind_raised {A B : Type} (m : M A) (f : A -> M B) (w w' : World) :
  m w = (Raised, w') -> (m ≫= f) w = (Raised, w').
Proof. intros H. unfold mbind, M_bind. by rewrite H. Qed.

Lemma bind_gets {A B : Type} (f : World -> A) (k : A -> M B) (w : World) :
  (gets f ≫= k) w = k (f w) w.
Proof. reflexivity. Qed.

Lemma bind_modify {B : Type} (f : World -> World) (k : unit -> M B) (w : World) :
  (modify f ≫= k) w = k tt (f w).
Proof. reflexivity. Qed.

Lemma bind_or_raise_Some {A B : Type} (a : A) (k : A -> M B) (w : World) :
  (or_raise (Some a) ≫= k) w = k a w.
Proof. reflexivity. Qed.

Lemma bind_or_raise_None {A B : Type} (k : A -> M B) (w : World) :
  (or_raise None ≫= k) w = (Raised, w).
Proof. reflexivity. Qed.

(** ** Frame rules: what a computation leaves alone *)

Section Frame.
Context {B : Type} (obs : World -> B).

Lemma preserves_ret {A : Type} (a : A) : preserves obs (mret a).
Proof. by intros w. Qed.

Lemma preserves_raise {A : Type} : preserves obs (@raise A).
Proof. by intros w. Qed.

Lemma preserves_gets {A : Type} (f : World -> A) : preserves obs (gets f).
Proof. by intros w. Qed.

Lemma preserves_or_raise {A : Type} (o : option A) : preserves obs (or_raise o).
Proof. by destruct o; intros w. Qed.

Lemma preserves_modify (f : World -> World) :
  (forall w, obs (f w) = obs w) -> preserves obs (modify f).
Proof. intros H w. apply H. Qed.

Lemma preserves_bind {A C : Type} (m : M A) (f : A -> M C) :
  preserves obs m -> (forall a, preserves obs (f a)) -> preserves obs (m ≫= f).
Proof.
  intros Hm Hf w. rewrite exec_bind.
  specialize (Hm w). unfold exec in Hm.
  destruct (m w) as [[a|] w']; simpl in Hm; [|done].
  by rewrite Hf.
Qed.

Lemma preserves_try_pass (m : M unit) : preserves obs m -> preserves obs (try_pass m).
Proof. intros Hm w. apply Hm. Qed.

Lemma preserves_for_each {A : Type} (xs : list A) (body : A -> M unit) :
  (forall x, x ∈ xs -> preserves obs (body x)) -> preserves obs (for_each xs body).
Proof.
  induction xs as [|x xs IH]; intros Hbody; simpl.
  - apply preserves_ret.
  - apply preserves_bind.
    + apply Hbody. left.
    + intros _. apply IH. intros y Hy. apply Hbody. by right.
Qed.
End Frame.

Lemma exec_bind_gets {A B : Type} (f : World -> A) (k : A -> M B) (w : World) :
  exec (gets f ≫= k) w = exec (k (f w)) w.
Proof. reflexivity. Qed.

Lemma exec_bind_ret {A B : Type} (m : M A) (b : B) (w : World) :
  exec (m ≫= fun _ => mret b) w = exec m w.
Proof. rewrite exec_bind. unfold exec. by destruct (m w) as [[a|] w']. Qed.

(** ** Pose bones under update *)

Lemma bone_at_update_bone (rig bone rig' bone' : string) (f : PoseBone -> PoseBone) (w : World) :
  bone_at (update_bone rig bone f w) rig' bone'
  = if decide (rig = rig' /\ bone = bone') then f <$> bone_at w rig' bone'
    else bone_at w rig' bone'.
Proof.
  unfold bone_at, update_bone. simpl.
  rewrite lookup_alter.
  destruct (decide (rig = rig')) as [->|Hr].
  - destruct (objects w !! rig') as [o|]; simpl.
    + destruct (pose o) as [bs|]; simpl.
      * rewrite lookup_alter.
        destruct (decide (bone = bone')) as [->|Hb].
        -- rewrite decide_True by done. done.
        -- rewrite decide_False by (intros [_ ?]; congruence). done.
      * by destruct (decide _).
    + by destruct (decide _).
  - rewrite decide_False by (intros [? _]; congruence). done.
Qed.

Lemma bone_at_update_bone_eq (rig bone : string) (f : PoseBone -> PoseBone) (w : World) :
  bone_at (update_bone rig bone f w) rig bone = f <$> bone_at w rig bone.
Proof. rewrite bone_at_update_bone. by rewrite decide_True. Qed.

Lemma bone_at_update_bone_ne (rig bone rig' bone' : string) (f : PoseBone -> PoseBone) (w : World) :
  bone' <> bone ->
  bone_at (update_bone rig bone f w) rig' bone' = bone_at w rig' bone'.
Proof.
  intros H. rewrite bone_at_update_bone.
  rewrite decide_False; [done|]. intros [_ ?]. congruence.
Qed.

(** ** Numbers *)

Lemma zq_Qc_of_Z (z : Z) : zq z = Qc_of_Z z.
Proof. apply Qc_is_canon. simpl. by rewrite inject_Z_Qred. Qed.

Lemma zq_opp (z : Z) : zq (- z) = - zq z.
Proof. rewrite !zq_Qc_of_Z. apply Z2Qc_inj_opp. Qed.

Lemma zq_sub (a b : Z) : zq a - zq b = zq (a - b).
Proof. rewrite !zq_Qc_of_Z. symmetry. apply Z2Qc_inj_sub. Qed.

(** Negation commutes with the reading of a value as a number. *)
Lemma as_float_neg (v : pyval) (q : Qc) :
  as_float v = Some q ->
  exists nv, py_neg v = Some nv /\ as_float nv = Some (- q).
Proof.
  destruct v as [|b|z|f|s|l|kvs]; simpl; intros H; try discriminate;
    injection H as <-.
  - exists (PInt (- (if b then 1 else 0))). split; [done|].
    simpl. by destruct b; rewrite zq_opp.
  - exists (PInt (- z)). split; [done|]. simpl. by rewrite zq_opp.
  - by exists (PFloat (- f)).
Qed.

(** The identity quaternion is a right unit of the product. *)
Lemma quat_matmul_identity_r (q : Quaternion) : quat_matmul q quat_identity = q.
Proof.
  destruct q as [a b c d]. unfold quat_matmul, quat_identity. simpl.
  f_equal; ring.
Qed.

(** ** The pose-bone primitives *)

Lemma pose_bones_get_run (rig bone : string) (w : World) :
  pose_bones_get rig bone w
  = match objects w !! rig ≫= pose with
    | Some bs => (Returned (bs !! bone), w)
    | None => (Raised, w)
    end.
Proof.
  unfold pose_bones_get, mbind at 1 2, M_bind, or_raise.
  destruct (objects w !! rig) as [o|]; simpl; [|done].
  by destruct (pose o).
Qed.

Lemma pose_bones_get_present (rig bone : string) (w : World) (pb : PoseBone) :
  bone_at w rig bone = Some pb ->
  pose_bones_get rig bone w = (Returned (Some pb), w).
Proof.
  rewrite pose_bones_get_run. unfold bone_at.
  destruct (objects w !! rig) as [o|]; simpl; [|done].
  destruct (pose o) as [bs|]; simpl; [|done].
  by intros ->.
Qed.

Lemma preserves_pose_bones_get {B : Type} (obs : World -> B) (rig bone : string) :
  preserves obs (pose_bones_get rig bone).
Proof.
  intros w. unfold exec. rewrite pose_bones_get_run.
  by destruct (objects w !! rig ≫= pose).
Qed.

Lemma valid_axis_cases (axis : string) :
  axis ∈ ["X"; "Y"; "Z"] ->
  bool_decide (axis = "X") || bool_decide (axis = "Y") || bool_decide (axis = "Z") = true.
Proof.
  rewrite !elem_of_cons, elem_of_nil.
  intros [->|[->|[->|[]]]]; done.
Qed.

(** ** The joint loop of v1.py in closed form *)

Lemma has_pose_update_bone (rig bone rig' : string) (f : PoseBone -> PoseBone) (w : World) :
  has_pose (update_bone rig bone f w) rig' <-> has_pose w rig'.
Proof.
  unfold has_pose, update_bone. simpl. rewrite lookup_alter.
  destruct (decide (rig = rig')) as [->|]; [|done].
  destruct (objects w !! rig') as [o|]; simpl; [|done].
  destruct (pose o); simpl; split; intros [x Hx]; eauto; discriminate.
Qed.

Lemma pose_bones_get_has_pose (rig bone : string) (w : World) :
  has_pose w rig ->
  pose_bones_get rig bone w = (Returned (bone_at w rig bone), w).
Proof.
  intros [bs Hbs]. rewrite pose_bones_get_run, Hbs. unfold bone_at.
  destruct (objects w !! rig) as [o|]; simpl in *; [|discriminate].
  by rewrite Hbs.
Qed.

Lemma pose_bones_get_no_pose (rig bone : string) (w : World) :
  ~ has_pose w rig -> pose_bones_get rig bone w = (Raised, w).
Proof.
  intros H. rewrite pose_bones_get_run.
  destruct (objects w !! rig ≫= pose) as [bs|] eqn:E; [|done].
  exfalso. apply H. unfold has_pose. rewrite E. eauto.
Qed.

Section Joints.
Context {L : HostLib} (rig : string) (angle : string -> Qc).

Lemma bone_at_joint_written (item : string * Retarget.JointConfig)
    (rig' bone' : string) (w : World) :
  bone_at (joint_written rig angle item w) rig' bone'
  = if decide (rig = rig' /\ Retarget.bone item.2 = bone')
    then axis_written (Retarget.axis item.2) (angle item.1) <$> bone_at w rig' bone'
    else bone_at w rig' bone'.
Proof.
  unfold joint_written.
  change (bone_at (add_pose_log ?e ?w0)) with (bone_at w0).
  rewrite bone_at_update_bone.
  change (bone_at (add_pose_log ?e ?w0)) with (bone_at w0).
  rewrite bone_at_update_bone.
  destruct (decide _); [|done].
  by destruct (bone_at w rig' bone').
Qed.

Lemma bone_at_joint_step (item : string * Retarget.JointConfig)
    (rig' bone' : string) (w : World) :
  bone_at (joint_step rig angle item w) rig' bone'
  = if decide (rig = rig' /\ Retarget.bone item.2 = bone')
    then axis_written (Retarget.axis item.2) (angle item.1) <$> bone_at w rig' bone'
    else bone_at w rig' bone'.
Proof.
  unfold joint_step.
  destruct (decide (is_Some (bone_at w rig (Retarget.bone item.2)))) as [Hs|Hn].
  - apply bone_at_joint_written.
  - destruct (decide _) as [[<- <-]|]; [|done].
    destruct (bone_at w rig (Retarget.bone item.2)); [|done].
    exfalso. apply Hn. eauto.
Qed.

Lemma has_pose_joint_step (item : string * Retarget.JointConfig) (rig' : string) (w : World) :
  has_pose (joint_step rig angle item w) rig' <-> has_pose w rig'.
Proof.
  unfold joint_step. destruct (decide _); [|done].
  unfold joint_written.
  change (has_pose (add_pose_log ?e ?w0)) with (has_pose w0).
  rewrite has_pose_update_bone.
  change (has_pose (add_pose_log ?e ?w0)) with (has_pose w0).
  apply has_pose_update_bone.
Qed.

Lemma is_Some_bone_at_joint_step (item : string * Retarget.JointConfig)
    (rig' bone' : string) (w : World) :
  is_Some (bone_at (joint_step rig angle item w) rig' bone')
  <-> is_Some (bone_at w rig' bone').
Proof.
  rewrite bone_at_joint_step. destruct (decide _); [|done].
  by rewrite fmap_is_Some.
Qed.

Lemma pose_log_joint_step (item : string * Retarget.JointConfig) (w : World) :
  pose_log (joint_step rig angle item w)
  = (pose_log w ++ present_writes w rig angle [item])%list.
Proof.
  unfold joint_step, present_writes. simpl.
  destruct (decide _); simpl.
  - unfold joint_written, joint_writes. simpl. by rewrite <- app_assoc.
  - by rewrite app_nil_r.
Qed.

Lemma bone_at_foldl_other (js : list (string * Retarget.JointConfig))
    (rig' bone' : string) (w : World) :
  (rig' <> rig \/ bone' ∉ map (fun j => Retarget.bone j.2) js) ->
  bone_at (foldl (fun w j => joint_step rig angle j w) w js) rig' bone'
  = bone_at w rig' bone'.
Proof.
  revert w. induction js as [|j js IH]; intros w H; simpl; [done|].
  rewrite IH.
  - rewrite bone_at_joint_step. rewrite decide_False; [done|].
    intros [-> <-]. destruct H as [H|H]; [done|]. apply H. simpl. left.
  - destruct H as [H|H]; [by left|right].
    intros Hin. apply H. simpl. by right.
Qed.

(** With distinct bones, each joint of the list ends as its own write
    left it. *)
Lemma bone_at_foldl_joint (js : list (string * Retarget.JointConfig))
    (j : string * Retarget.JointConfig) (w : World) :
  NoDup (map (fun j => Retarget.bone j.2) js) ->
  j ∈ js ->
  bone_at (foldl (fun w j => joint_step rig angle j w) w js) rig (Retarget.bone j.2)
  = axis_written (Retarget.axis j.2) (angle j.1) <$> bone_at w rig (Retarget.bone j.2).
Proof.
  revert w. induction js as [|j0 js IH]; intros w Hnd Hin; simpl.
  - by apply elem_of_nil in Hin.
  - simpl in Hnd. apply NoDup_cons in Hnd as [Hfresh Hnd].
    apply elem_of_cons in Hin as [->|Hin].
    + rewrite bone_at_foldl_other by (by right).
      rewrite bone_at_joint_step. by rewrite decide_True.
    + rewrite IH by done.
      rewrite bone_at_joint_step. rewrite decide_False; [done|].
      intros [_ Heq]. apply Hfresh. rewrite Heq.
      apply list_elem_of_fmap. by exists j.
Qed.

Lemma present_writes_ext (w1 w2 : World) (js : list (string * Retarget.JointConfig)) :
  (forall b, is_Some (bone_at w1 rig b) <-> is_Some (bone_at w2 rig b)) ->
  present_writes w1 rig angle js = present_writes w2 rig angle js.
Proof.
  intros H. unfold present_writes. induction js as [|j js IH]; simpl; [done|].
  rewrite IH. f_equal.
  destruct (decide (is_Some (bone_at w1 rig (Retarget.bone j.2)))) as [H1|H1];
    destruct (decide (is_Some (bone_at w2 rig (Retarget.bone j.2)))) as [H2|H2];
    try done; exfalso; [apply H2, H|apply H1, H]; done.
Qed.

Lemma pose_log_foldl_joints (js : list (string * Retarget.JointConfig)) (w : World) :
  pose_log (foldl (fun w j => joint_step rig angle j w) w js)
  = (pose_log w ++ present_writes w rig angle js)%list.
Proof.
  revert w. induction js as [|j js IH]; intros w; simpl.
  - unfold present_writes. simpl. by rewrite app_nil_r.
  - rewrite IH, pose_log_joint_step. rewrite <- app_assoc. f_equal.
    rewrite (present_writes_ext (joint_step rig angle j w) w js).
    + unfold present_writes. simpl. by rewrite app_nil_r.
    + intros b. apply is_Some_bone_at_joint_step.
Qed.

Lemma present_writes_all (js : list (string * Retarget.JointConfig)) (w : World) :
  Forall (fun j => is_Some (bone_at w rig (Retarget.bone j.2))) js ->
  present_writes w rig angle js = flat_map (joint_writes rig angle) js.
Proof.
  unfold present_writes. induction 1 as [|j js Hj _ IH]; simpl; [done|].
  rewrite IH. by rewrite decide_True.
Qed.

(** The loop leaves every part of the world other than the scene and the
    log as it was. *)
Lemma foldl_joints_frame (js : list (string * Retarget.JointConfig)) (w : World) :
  let w' := foldl (fun w j => joint_step rig angle j w) w js in
  latest_data w' = latest_data w /\ is_running w' = is_running w /\
  packet_count w' = packet_count w /\ op_timer w' = op_timer w /\
  op_armature_name w' = op_armature_name w /\ wm_timers w' = wm_timers w /\
  reports w' = reports w.
Proof.
  revert w. induction js as [|j js IH]; intros w; simpl; [done|].
  specialize (IH (joint_step rig angle j w)). simpl in IH.
  destruct IH as (-> & -> & -> & -> & -> & -> & ->).
  unfold joint_step. by destruct (decide _).
Qed.
End Joints.

(** ** The operators of v1.py in closed form *)

Section RetargetRuns.
Context {L : HostLib}.

Lemma apply_joint_run (rig : string) (target : list (string * Qc))
    (item : string * Retarget.JointConfig) (w : World) :
  has_pose w rig ->
  is_Some (alist_get item.1 target) ->
  Retarget.axis item.2 ∈ ["X"; "Y"; "Z"] ->
  Retarget.apply_joint rig target item w
  = (Returned tt, joint_step rig (angle_of target) item w).
Proof.
  intros Hp [a Ha] Hax. unfold Retarget.apply_joint, joint_step.
  rewrite (bind_returned _ _ _ _ _ (pose_bones_get_has_pose _ _ _ Hp)).
  destruct (bone_at w rig (Retarget.bone item.2)) as [pb|] eqn:Hpb.
  - rewrite decide_True by eauto.
    unfold assign_rotation_mode, assign_euler_axis, joint_written, angle_of.
    cbn beta. rewrite Ha, (valid_axis_cases _ Hax). reflexivity.
  - rewrite decide_False; [done|]. by intros [? ?].
Qed.

Lemma home_joint_run (rig : string) (item : string * Retarget.JointConfig) (w : World) :
  has_pose w rig ->
  Retarget.axis item.2 ∈ ["X"; "Y"; "Z"] ->
  Retarget.home_joint rig item w
  = (Returned tt, joint_step rig home_angle item w).
Proof.
  intros Hp Hax. unfold Retarget.home_joint, joint_step.
  rewrite (bind_returned _ _ _ _ _ (pose_bones_get_has_pose _ _ _ Hp)).
  destruct (bone_at w rig (Retarget.bone item.2)) as [pb|] eqn:Hpb.
  - rewrite decide_True by eauto.
    unfold assign_rotation_mode, assign_euler_axis.
    rewrite (valid_axis_cases _ Hax). reflexivity.
  - rewrite decide_False; [done|]. by intros [? ?].
Qed.

(** A loop whose body is one [joint_step] is the fold of those steps, on a
    rig that has a pose. *)
Lemma for_each_joint_run (rig : string) (angle : string -> Qc)
    (body : string * Retarget.JointConfig -> M unit)
    (js : list (string * Retarget.JointConfig)) :
  forall w,
    (forall j w', j ∈ js -> has_pose w' rig ->
                  body j w' = (Returned tt, joint_step rig angle j w')) ->
    has_pose w rig ->
    for_each js body w
    = (Returned tt, foldl (fun w j => joint_step rig angle j w) w js).
Proof.
  induction js as [|j js IH]; intros w Hbody Hp; simpl; [done|].
  rewrite (bind_returned _ _ w (joint_step rig angle j w) tt).
  - apply IH.
    + intros j' w' Hj'. apply Hbody. by right.
    + by apply has_pose_joint_step.
  - apply Hbody; [left|done].
Qed.

(** Without a pose the first turn of a non-empty joint loop raises, before
    any write. *)
Lemma for_each_joint_no_pose
    (body : string * Retarget.JointConfig -> M unit)
    (j : string * Retarget.JointConfig) (js : list (string * Retarget.JointConfig))
    (w : World) :
  body j w = (Raised, w) -> for_each (j :: js) body w = (Raised, w).
Proof. intros H. simpl. by apply bind_raised. Qed.

Lemma JOINT_MAP_axes (j : string * Retarget.JointConfig) :
  j ∈ Retarget.JOINT_MAP -> Retarget.axis j.2 ∈ ["X"; "Y"; "Z"].
Proof.
  unfold Retarget.JOINT_MAP. rewrite !elem_of_cons, elem_of_nil.
  intros [->|[->|[->|[->|[->|[->|[]]]]]]]; simpl; auto 6.
Qed.

Lemma JOINT_MAP_bones_distinct :
  NoDup (map (fun j : string * Retarget.JointConfig => Retarget.bone j.2)
             Retarget.JOINT_MAP).
Proof. compute_done. Qed.

Lemma target_angles_total (q1 q2 : Quaternion) (j : string * Retarget.JointConfig) :
  j ∈ Retarget.JOINT_MAP -> is_Some (alist_get j.1 (Retarget.target_angles q1 q2)).
Proof.
  unfold Retarget.JOINT_MAP. rewrite !elem_of_cons, elem_of_nil.
  intros [->|[->|[->|[->|[->|[->|[]]]]]]]; simpl; eauto.
Qed.

Lemma has_pose_object (w : World) (rig : string) :
  has_pose w rig -> is_Some (objects w !! rig).
Proof.
  unfold has_pose. destruct (objects w !! rig); eauto. by intros [? ?].
Qed.

(** The tick with the gate open. *)
Lemma retarget_tick_run (w : World) (raw1 raw2 : pyval) (q1 q2 : Quaternion) :
  latest_data w !! KNum (zq Retarget.IMU_SHOULDER_ID) = Some raw1 ->
  latest_data w !! KNum (zq Retarget.IMU_FOREARM_ID) = Some raw2 ->
  Retarget.quaternion_of_raw raw1 = Some q1 ->
  Retarget.quaternion_of_raw raw2 = Some q2 ->
  has_pose w (op_armature_name w) ->
  Retarget.modal "TIMER" w
  = (Returned PASS_THROUGH,
     foldl (fun w' j => joint_step (op_armature_name w)
                          (angle_of (Retarget.target_angles q1 q2)) j w')
       w Retarget.JOINT_MAP).
Proof.
  intros H1 H2 Hq1 Hq2 Hp.
  destruct (has_pose_object _ _ Hp) as [o Ho].
  unfold Retarget.modal.
  rewrite decide_False by done. rewrite decide_True by done.
  rewrite !bind_gets. cbn beta. rewrite Ho, H1, H2, Hq1, Hq2.
  rewrite !bind_or_raise_Some.
  erewrite bind_returned; [reflexivity|].
  apply for_each_joint_run; [|done].
  intros j w' Hj Hb. apply apply_joint_run; [done| |].
  - by apply target_angles_total.
  - by apply JOINT_MAP_axes.
Qed.

(** The tick with the gate closed. *)
Lemma retarget_tick_closed (w : World) :
  latest_data w !! KNum (zq Retarget.IMU_SHOULDER_ID) = None \/
  latest_data w !! KNum (zq Retarget.IMU_FOREARM_ID) = None ->
  Retarget.modal "TIMER" w = (Returned PASS_THROUGH, w).
Proof.
  intros H. unfold Retarget.modal.
  rewrite decide_False by done. rewrite decide_True by done.
  rewrite !bind_gets. cbn beta.
  destruct (objects w !! op_armature_name w); [|done].
  destruct H as [-> | ->]; [done|].
  by destruct (latest_data w !! KNum (zq Retarget.IMU_SHOULDER_ID)).
Qed.

(** Whatever the world, a tick that does not run the whole joint loop
    leaves the world as it was. *)
Lemma retarget_tick_cases (w : World) :
  exec (Retarget.modal "TIMER") w = w \/
  exists raw1 raw2 q1 q2,
    latest_data w !! KNum (zq Retarget.IMU_SHOULDER_ID) = Some raw1 /\
    latest_data w !! KNum (zq Retarget.IMU_FOREARM_ID) = Some raw2 /\
    Retarget.quaternion_of_raw raw1 = Some q1 /\
    Retarget.quaternion_of_raw raw2 = Some q2 /\
    has_pose w (op_armature_name w).
Proof.
  destruct (latest_data w !! KNum (zq Retarget.IMU_SHOULDER_ID)) as [raw1|] eqn:H1;
    [|left; unfold exec; rewrite retarget_tick_closed; auto].
  destruct (latest_data w !! KNum (zq Retarget.IMU_FOREARM_ID)) as [raw2|] eqn:H2;
    [|left; unfold exec; rewrite retarget_tick_closed; auto].
  unfold exec, Retarget.modal.
  rewrite decide_False by done. rewrite decide_True by done.
  rewrite !bind_gets. cbn beta. rewrite H1, H2.
  destruct (objects w !! op_armature_name w) as [o|] eqn:Ho; [|by left].
  destruct (Retarget.quaternion_of_raw raw1) as [q1|] eqn:Hq1; [|by left].
  destruct (Retarget.quaternion_of_raw raw2) as [q2|] eqn:Hq2; [|by left].
  rewrite !bind_or_raise_Some.
  destruct (decide (has_pose w (op_armature_name w))) as [Hp|Hp].
  - right. by exists raw1, raw2, q1, q2.
  - left.
    assert (for_each Retarget.JOINT_MAP
              (Retarget.apply_joint (op_armature_name w)
                 (Retarget.target_angles q1 q2)) w = (Raised, w)) as Hr.
    { apply for_each_joint_no_pose.
      unfold Retarget.apply_joint. cbv zeta.
      apply (bind_raised _ _ w w). by apply pose_bones_get_no_pose. }
    by rewrite (bind_raised _ _ _ _ Hr).
Qed.
End RetargetRuns.

Section RetargetCancel.
Context {L : HostLib}.

(** [cancel] on a started operator whose rig has a pose. *)
Lemma retarget_cancel_run (w : World) (h : nat) :
  op_timer w = Some h ->
  has_pose w (op_armature_name w) ->
  Retarget.cancel w
  = (Returned CANCELLED,
     foldl (fun w' j => joint_step (op_armature_name w) home_angle j w')
       (set_wm_timers (delete h) (wm_next_timer w) (set_is_running false w))
       Retarget.JOINT_MAP).
Proof.
  intros Ht Hp.
  destruct (has_pose_object _ _ Hp) as [o Ho].
  unfold Retarget.cancel, event_timer_remove.
  rewrite bind_modify, bind_gets. cbn beta.
  change (op_timer (set_is_running false w)) with (op_timer w). rewrite Ht.
  set (w1 := set_wm_timers (delete h) (wm_next_timer w) (set_is_running false w)).
  erewrite (bind_returned _ _ _ w1 tt) by reflexivity.
  rewrite !bind_gets. cbn beta.
  change (objects w1) with (objects w).
  change (op_armature_name w1) with (op_armature_name w). rewrite Ho.
  erewrite bind_returned; [reflexivity|].
  apply for_each_joint_run; [|done].
  intros j w' Hj Hb. apply home_joint_run; [done|]. by apply JOINT_MAP_axes.
Qed.
End RetargetCancel.

(** ** Single-axis writes *)

Lemma euler_component_with_same (axis : string) (v : Qc) (e : Euler) :
  axis ∈ ["X"; "Y"; "Z"] -> euler_component axis (euler_with axis v e) = v.
Proof.
  rewrite !elem_of_cons, elem_of_nil. intros [->|[->|[->|[]]]]; reflexivity.
Qed.

Lemma euler_component_with_other (axis a : string) (v : Qc) (e : Euler) :
  a ∈ ["X"; "Y"; "Z"] -> a <> axis ->
  euler_component a (euler_with axis v e) = euler_component a e.
Proof.
  rewrite !elem_of_cons, elem_of_nil. unfold euler_with, euler_component.
  intros [->|[->|[->|[]]]] Hne;
    repeat (destruct (decide _) as [?|?]; try done; try congruence).
Qed.

Lemma order_euler_with (axis : string) (v : Qc) (e : Euler) :
  order (euler_with axis v e) = order e.
Proof. unfold euler_with. by repeat destruct (decide _). Qed.

Lemma JOINT_MAP_names (j : string * Retarget.JointConfig) :
  j ∈ Retarget.JOINT_MAP -> alist_get j.1 Retarget.JOINT_MAP = Some j.2.
Proof.
  unfold Retarget.JOINT_MAP. rewrite !elem_of_cons, elem_of_nil.
  intros [->|[->|[->|[->|[->|[->|[]]]]]]]; reflexivity.
Qed.

(** After the fold of the six joint writes every joint shows its angle. *)
Lemma joint_angle_foldl (rig : string) (angle : string -> Qc) (w : World)
    (j : string * Retarget.JointConfig) :
  j ∈ Retarget.JOINT_MAP ->
  is_Some (bone_at w rig (Retarget.bone j.2)) ->
  joint_angle (foldl (fun w' j => joint_step rig angle j w') w Retarget.JOINT_MAP)
    rig j.1
  = Some (angle j.1).
Proof.
  intros Hj [pb Hpb]. unfold joint_angle.
  rewrite (JOINT_MAP_names j Hj). cbn [mbind option_bind].
  rewrite (bone_at_foldl_joint rig angle _ j w JOINT_MAP_bones_distinct Hj).
  rewrite Hpb. simpl. f_equal.
  apply euler_component_with_same. by apply JOINT_MAP_axes.
Qed.

Lemma bone_at_has_pose (w : World) (rig bone : string) :
  is_Some (bone_at w rig bone) -> has_pose w rig.
Proof.
  unfold bone_at, has_pose. destruct (objects w !! rig) as [o|]; simpl.
  - destruct (pose o); simpl; eauto. by intros [? ?].
  - by intros [? ?].
Qed.

Lemma rig_has_joints_pose (w : World) :
  rig_has_joints w -> has_pose w (op_armature_name w).
Proof.
  unfold rig_has_joints, Retarget.JOINT_MAP. intros H.
  apply Forall_cons in H as [H _]. by apply bone_at_has_pose in H.
Qed.

(** ** C1: the six derived angles *)

(** C1. On a tick of the Retarget Stage with both sensors present (and a
    rig that has the six bones), the joints show: base = shoulder yaw,
    shoulder = shoulder pitch, elbow = forearm pitch - shoulder pitch,
    wrist = forearm roll - shoulder roll, wrist_2 = 0, gripper = forearm
    roll, where yaw, pitch and roll are the Z, Y and X components of the
    library's Euler conversion called with the order ZYX.  In particular,
    for any size [deg] of one degree in the engine's unit, shoulder
    (yaw 30, pitch 10, roll 0) and forearm (pitch 25, roll 5) give
    base 30, shoulder 10, elbow 15, wrist 5, wrist_2 0, gripper 5. *)
Theorem retarget_derived_angles {L : HostLib} (w : World)
    (raw1 raw2 : pyval) (q1 q2 : Quaternion) :
  latest_data w !! KNum (zq Retarget.IMU_SHOULDER_ID) = Some raw1 ->
  latest_data w !! KNum (zq Retarget.IMU_FOREARM_ID) = Some raw2 ->
  Retarget.quaternion_of_raw raw1 = Some q1 ->
  Retarget.quaternion_of_raw raw2 = Some q2 ->
  rig_has_joints w ->
  let shoulder := quat_to_euler "ZYX" q1 in
  let forearm := quat_to_euler "ZYX" q2 in
  let rig := op_armature_name w in
  let w' := exec (Retarget.modal "TIMER") w in
  (joint_angle w' rig "Base" = Some (ez shoulder) /\
   joint_angle w' rig "Shoulder" = Some (ey shoulder) /\
   joint_angle w' rig "Elbow" = Some (ey forearm - ey shoulder) /\
   joint_angle w' rig "Wrist" = Some (ex forearm - ex shoulder) /\
   joint_angle w' rig "Wrist_2" = Some 0 /\
   joint_angle w' rig "Gripper" = Some (ex forearm)) /\
  (forall deg : Qc,
     ez shoulder = zq 30 * deg -> ey shoulder = zq 10 * deg ->
     ex shoulder = zq 0 * deg ->
     ey forearm = zq 25 * deg -> ex forearm = zq 5 * deg ->
     joint_angle w' rig "Base" = Some (zq 30 * deg) /\
     joint_angle w' rig "Shoulder" = Some (zq 10 * deg) /\
     joint_angle w' rig "Elbow" = Some (zq 15 * deg) /\
     joint_angle w' rig "Wrist" = Some (zq 5 * deg) /\
     joint_angle w' rig "Wrist_2" = Some (zq 0 * deg) /\
     joint_angle w' rig "Gripper" = Some (zq 5 * deg)).
Proof.
  intros H1 H2 Hq1 Hq2 Hrig shoulder forearm rig w'.
  assert (has_pose w rig) as Hpose by (by apply rig_has_joints_pose).
  unfold rig_has_joints in Hrig. rewrite Forall_forall in Hrig.
  assert (forall j, j ∈ Retarget.JOINT_MAP ->
            joint_angle w' rig j.1
            = Some (angle_of (Retarget.target_angles q1 q2) j.1)) as Hangle.
  { intros j Hj. subst w'. unfold exec.
    rewrite (retarget_tick_run w raw1 raw2 q1 q2 H1 H2 Hq1 Hq2 Hpose). simpl.
    apply joint_angle_foldl; auto. }
  assert (joint_angle w' rig "Base" = Some (ez shoulder) /\
          joint_angle w' rig "Shoulder" = Some (ey shoulder) /\
          joint_angle w' rig "Elbow" = Some (ey forearm - ey shoulder) /\
          joint_angle w' rig "Wrist" = Some (ex forearm - ex shoulder) /\
          joint_angle w' rig "Wrist_2" = Some 0 /\
          joint_angle w' rig "Gripper" = Some (ex forearm)) as Hgen.
  { repeat split.
    - apply (Hangle ("Base", Retarget.mkJoint "UpperArm.008" "Z")). pick_elem.
    - apply (Hangle ("Shoulder", Retarget.mkJoint "UpperArm.015" "X")). pick_elem.
    - apply (Hangle ("Elbow", Retarget.mkJoint "UpperArm.018" "X")). pick_elem.
    - apply (Hangle ("Wrist", Retarget.mkJoint "UpperArm.019" "Y")). pick_elem.
    - apply (Hangle ("Wrist_2", Retarget.mkJoint "UpperArm.020" "X")). pick_elem.
    - apply (Hangle ("Gripper", Retarget.mkJoint "UpperArm.021" "Y")). pick_elem. }
  split; [exact Hgen|].
  intros deg Hyaw Hpitch Hroll Hpitch2 Hroll2.
  destruct Hgen as (Hb & Hs & He & Hw & Hw2 & Hg).
  rewrite Hb, Hs, He, Hw, Hw2, Hg.
  rewrite Hyaw, Hpitch, Hroll, Hpitch2, Hroll2.
  repeat split; f_equal.
  - replace (zq 25 * deg - zq 10 * deg) with ((zq 25 - zq 10) * deg) by ring.
    by rewrite zq_sub.
  - replace (zq 5 * deg - zq 0 * deg) with ((zq 5 - zq 0) * deg) by ring.
    by rewrite zq_sub.
  - change (zq 0) with 0. ring.
Qed.

Lemma retarget_derived_angles_witness :
  rig_has_joints tick_world /\
  let w' := exec (@Retarget.modal example_lib "TIMER") tick_world in
  joint_angle w' "Armature" "Base" = Some (zq 30 * Q2Qc (1 # 100)) /\
  joint_angle w' "Armature" "Elbow" = Some (zq 15 * Q2Qc (1 # 100)) /\
  joint_angle w' "Armature" "Wrist_2" = Some 0.
Proof.
  assert (rig_has_joints tick_world) as Hrig.
  { unfold rig_has_joints. repeat constructor; vm_compute; eauto. }
  split; [exact Hrig|].
  edestruct (@retarget_derived_angles example_lib tick_world) as [Hgen Hscen];
    [vm_compute; reflexivity | vm_compute; reflexivity
    | vm_compute; reflexivity | vm_compute; reflexivity | exact Hrig |].
  destruct (Hscen (Q2Qc (1 # 100))) as (Hb & _ & He & _ & _ & _);
    try (apply Qc_is_canon; reflexivity).
  destruct Hgen as (_ & _ & _ & _ & Hw2 & _).
  exact (conj Hb (conj He Hw2)).
Defined.

(** ** The operators of blender_robot_link.py in closed form *)

Section LinkRuns.
Context {L : HostLib}.

Lemma bone_at_sensor_written (rig bone : string) (q : Quaternion)
    (rig' bone' : string) (w : World) :
  bone_at (sensor_written rig bone q w) rig' bone'
  = if decide (rig = rig' /\ bone = bone')
    then quat_written q <$> bone_at w rig' bone'
    else bone_at w rig' bone'.
Proof.
  unfold sensor_written.
  change (bone_at (add_pose_log ?e ?w0)) with (bone_at w0).
  rewrite bone_at_update_bone.
  change (bone_at (add_pose_log ?e ?w0)) with (bone_at w0).
  rewrite bone_at_update_bone.
  destruct (decide _); [|done].
  by destruct (bone_at w rig' bone').
Qed.

Lemma has_pose_sensor_written (rig bone : string) (q : Quaternion) (rig' : string) (w : World) :
  has_pose (sensor_written rig bone q w) rig' <-> has_pose w rig'.
Proof.
  unfold sensor_written.
  change (has_pose (add_pose_log ?e ?w0)) with (has_pose w0).
  rewrite has_pose_update_bone.
  change (has_pose (add_pose_log ?e ?w0)) with (has_pose w0).
  apply has_pose_update_bone.
Qed.

(** The stored value unpacks, negates and converts exactly when it is a
    rotation. *)
Lemma link_sensor_quat (raw : pyval) (qw qx qy qz : Qc) :
  rotation_of raw = Some (qw, qx, qy, qz) ->
  exists a b c d nd,
    unpack4 raw = Some (a, b, c, d) /\ py_neg d = Some nd /\
    make_quaternion a c b nd = Some (mkQuat qw qy qx (- qz)).
Proof.
  unfold rotation_of.
  destruct raw as [| | | | |l|]; try discriminate.
  destruct l as [|a [|b [|c [|d [|e l]]]]]; try discriminate.
  destruct (as_float a) as [fa|] eqn:Ha; [|discriminate].
  destruct (as_float b) as [fb|] eqn:Hb; [|discriminate].
  destruct (as_float c) as [fc|] eqn:Hc; [|discriminate].
  destruct (as_float d) as [fd|] eqn:Hd; [|discriminate].
  simpl. intros [= <- <- <- <-].
  destruct (as_float_neg d fd Hd) as (nd & Hnd & Hfnd).
  exists a, b, c, d, nd. repeat split; [done|].
  unfold make_quaternion. by rewrite Ha, Hc, Hb, Hfnd.
Qed.

Lemma update_sensor_bone_run (rig : string) (item : Z * string) (w : World) :
  has_pose w rig ->
  (forall raw, latest_data w !! KNum (zq item.1) = Some raw -> is_Some (rotation_of raw)) ->
  Link.update_sensor_bone rig item w = (Returned tt, sensor_step rig item w).
Proof.
  intros Hp Hok. unfold Link.update_sensor_bone, sensor_step. cbv zeta.
  rewrite bind_gets. cbn beta.
  destruct (latest_data w !! KNum (zq item.1)) as [raw|] eqn:Hraw; [|done].
  rewrite (bind_returned _ _ _ _ _ (pose_bones_get_has_pose _ _ _ Hp)).
  destruct (bone_at w rig item.2) as [pb|]; [|done].
  destruct (Hok raw eq_refl) as [[[[qw qx] qy] qz] Hrot]. rewrite Hrot.
  destruct (link_sensor_quat raw qw qx qy qz Hrot) as (a & b & c & d & nd & Hu & Hn & Hq).
  rewrite Hu, bind_or_raise_Some. cbv iota beta.
  rewrite Hn, bind_or_raise_Some, Hq, bind_or_raise_Some.
  reflexivity.
Qed.

(** A sensor without data leaves the world alone, whatever the rig. *)
Lemma update_sensor_bone_absent (rig : string) (item : Z * string) (w : World) :
  latest_data w !! KNum (zq item.1) = None ->
  Link.update_sensor_bone rig item w = (Returned tt, w).
Proof.
  intros H. unfold Link.update_sensor_bone. cbv zeta.
  rewrite bind_gets. cbn beta. by rewrite H.
Qed.

Lemma latest_data_sensor_step (rig : string) (item : Z * string) (w : World) :
  latest_data (sensor_step rig item w) = latest_data w.
Proof.
  unfold sensor_step.
  destruct (latest_data w !! KNum (zq item.1)); [|done].
  destruct (bone_at w rig item.2); [|done].
  by destruct (rotation_of p) as [[[[? ?] ?] ?]|].
Qed.

Lemma has_pose_sensor_step (rig : string) (item : Z * string) (rig' : string) (w : World) :
  has_pose (sensor_step rig item w) rig' <-> has_pose w rig'.
Proof.
  unfold sensor_step.
  destruct (latest_data w !! KNum (zq item.1)); [|done].
  destruct (bone_at w rig item.2); [|done].
  destruct (rotation_of p) as [[[[? ?] ?] ?]|]; [|done].
  apply has_pose_sensor_written.
Qed.

(** The tick on a resolved rig with well-formed data: both sensors in
    turn. *)
Lemma link_tick_run (w : World) :
  has_pose w (op_armature_name w) ->
  link_store_ok w ->
  Link.modal "TIMER" w
  = (Returned PASS_THROUGH,
     sensor_step (op_armature_name w) (1%Z, "UpperArm.021")
       (sensor_step (op_armature_name w) (0%Z, "UpperArm.008") w)).
Proof.
  intros Hp Hok.
  destruct (has_pose_object _ _ Hp) as [o Ho].
  unfold link_store_ok, Link.BONE_MAP in Hok.
  apply Forall_cons in Hok as [Hok0 Hok]. apply Forall_cons in Hok as [Hok1 _].
  unfold Link.modal.
  rewrite decide_False by done. rewrite decide_True by done.
  rewrite !bind_gets. cbn beta. rewrite Ho.
  unfold Link.BONE_MAP, for_each.
  set (w0 := sensor_step (op_armature_name w) (0%Z, "UpperArm.008") w).
  assert (Link.update_sensor_bone (op_armature_name w) (0%Z, "UpperArm.008") w
          = (Returned tt, w0)) as H0 by (by apply update_sensor_bone_run).
  assert (Link.update_sensor_bone (op_armature_name w) (1%Z, "UpperArm.021") w0
          = (Returned tt, sensor_step (op_armature_name w) (1%Z, "UpperArm.021") w0))
    as H1.
  { apply update_sensor_bone_run.
    - by apply has_pose_sensor_step.
    - subst w0. by rewrite latest_data_sensor_step. }
  erewrite bind_returned; [reflexivity|].
  erewrite bind_returned; [|exact H0].
  erewrite bind_returned; [reflexivity|exact H1].
Qed.
End LinkRuns.

Section LinkBones.
Context {L : HostLib}.

Lemma bone_at_sensor_step_other (rig : string) (item : Z * string)
    (rig' bone' : string) (w : World) :
  bone' <> item.2 ->
  bone_at (sensor_step rig item w) rig' bone' = bone_at w rig' bone'.
Proof.
  intros Hne. unfold sensor_step.
  destruct (latest_data w !! KNum (zq item.1)); [|done].
  destruct (bone_at w rig item.2); [|done].
  destruct (rotation_of p) as [[[[? ?] ?] ?]|]; [|done].
  rewrite bone_at_sensor_written. rewrite decide_False; [done|].
  intros [_ ?]. congruence.
Qed.

Lemma bone_at_sensor_step_own (rig : string) (item : Z * string) (w : World)
    (raw : pyval) (qw qx qy qz : Qc) (pb : PoseBone) :
  latest_data w !! KNum (zq item.1) = Some raw ->
  rotation_of raw = Some (qw, qx, qy, qz) ->
  bone_at w rig item.2 = Some pb ->
  bone_at (sensor_step rig item w) rig item.2
  = Some (quat_written (link_rotation item.1 qw qx qy qz) pb).
Proof.
  intros Hraw Hrot Hpb. unfold sensor_step. rewrite Hraw, Hpb, Hrot.
  rewrite bone_at_sensor_written, decide_True by done. by rewrite Hpb.
Qed.
End LinkBones.

(** ** C2: the rotation the Link Stage applies *)

(** C2. On a tick of the Link Stage, for every configured sensor whose
    stored value is a rotation (w, x, y, z) and whose bone the rig has, the
    bone ends in quaternion mode with the rotation (w, y, x, -z) composed
    with the sensor's static offset on the right.  With an identity offset
    the bone carries (w, y, x, -z) itself, and the stored (1, 0, 0, 0) puts
    the identity rotation on the bone. *)
Theorem link_rotation_applied {L : HostLib} (w : World)
    (sid : Z) (bone : string) (raw : pyval) (qw qx qy qz : Qc) (pb : PoseBone) :
  link_store_ok w ->
  (sid, bone) ∈ Link.BONE_MAP ->
  latest_data w !! KNum (zq sid) = Some raw ->
  rotation_of raw = Some (qw, qx, qy, qz) ->
  bone_at w (op_armature_name w) bone = Some pb ->
  let w' := exec (Link.modal "TIMER") w in
  fst (Link.modal "TIMER" w) = Returned PASS_THROUGH /\
  bone_at w' (op_armature_name w) bone
  = Some (quat_written
            (quat_matmul (mkQuat qw qy qx (- qz)) (offset_quat sid)) pb) /\
  (offset_quat sid = quat_identity ->
   bone_at w' (op_armature_name w) bone
   = Some (quat_written (mkQuat qw qy qx (- qz)) pb) /\
   (qw = 1 -> qx = 0 -> qy = 0 -> qz = 0 ->
    rotation_quaternion <$> bone_at w' (op_armature_name w) bone
    = Some quat_identity)).
Proof.
  intros Hok Hin Hraw Hrot Hpb w'.
  assert (has_pose w (op_armature_name w)) as Hp
    by (apply (bone_at_has_pose _ _ bone); rewrite Hpb; eauto).
  assert (bone_at w' (op_armature_name w) bone
          = Some (quat_written (link_rotation sid qw qx qy qz) pb)) as Hbone.
  { subst w'. unfold exec. rewrite (link_tick_run w Hp Hok). cbn [snd].
    unfold Link.BONE_MAP in Hin.
    apply elem_of_cons in Hin as [[= -> ->]|Hin].
    - rewrite bone_at_sensor_step_other by done.
      by apply (bone_at_sensor_step_own _ (0%Z, "UpperArm.008") _ raw).
    - apply elem_of_cons in Hin as [[= -> ->]|Hin]; [|by apply elem_of_nil in Hin].
      apply (bone_at_sensor_step_own _ (1%Z, "UpperArm.021") _ raw).
      + by rewrite latest_data_sensor_step.
      + done.
      + by rewrite bone_at_sensor_step_other. }
  split; [by rewrite (link_tick_run w Hp Hok)|].
  split; [exact Hbone|].
  intros Hid. rewrite Hbone. unfold link_rotation.
  rewrite Hid, quat_matmul_identity_r. split; [done|].
  intros -> -> -> ->. simpl. unfold quat_identity. do 2 f_equal; ring.
Qed.

Lemma link_rotation_applied_witness :
  link_store_ok link_world /\
  rotation_quaternion <$>
    bone_at (exec (@Link.modal example_lib "TIMER") link_world) "Armature" "UpperArm.021"
  = Some quat_identity.
Proof.
  assert (link_store_ok link_world) as Hok.
  { unfold link_store_ok. repeat constructor; intros raw H; vm_compute in H;
      first [discriminate H | injection H as <-; vm_compute; eauto]. }
  split; [exact Hok|].
  edestruct (@link_rotation_applied example_lib link_world 1 "UpperArm.021")
    as (_ & _ & Hid);
    [exact Hok | pick_elem | vm_compute; reflexivity | vm_compute; reflexivity
    | vm_compute; reflexivity |].
  destruct Hid as [_ Hone].
  - vm_compute. f_equal; apply Qc_is_canon; reflexivity.
  - apply Hone; apply Qc_is_canon; reflexivity.
Defined.

(** ** C3: the all-or-nothing gate of the Retarget Stage *)



(** ** C9: single-axis writes *)



(** ** C7: the home pose on stop *)

Lemma link_cancel_frame (w : World) :
  objects (exec Link.cancel w) = objects w /\
  pose_log (exec Link.cancel w) = pose_log w.
Proof.
  unfold exec, Link.cancel, event_timer_remove.
  rewrite bind_modify, bind_gets. cbn beta.
  change (op_timer (set_is_running false w)) with (op_timer w).
  by destruct (op_timer w).
Qed.

(** C7. On the stop command of a started Retarget Stage whose rig has the
    six bones, whatever the pose and the store at that moment, every
    configured joint ends with its axis at the configured home angle
    converted by [radians]; the stop issues the two writes of each joint
    exactly once, in one batch, and clears the run flag.  The stop of the
    Link Stage writes no bone at all. *)
Theorem retarget_stop_homes_joints {L : HostLib} (w : World) (h : nat) :
  op_timer w = Some h ->
  rig_has_joints w ->
  let rig := op_armature_name w in
  let w' := exec Retarget.cancel w in
  Retarget.modal "ESC" w = Retarget.cancel w /\
  fst (Retarget.cancel w) = Returned CANCELLED /\
  is_running w' = false /\
  Forall (fun j : string * Retarget.JointConfig =>
            joint_angle w' rig j.1
            = Some (radians (angle_of Retarget.INITIAL_POSE j.1)))
    Retarget.JOINT_MAP /\
  pose_log w'
  = (pose_log w ++ flat_map (joint_writes rig home_angle) Retarget.JOINT_MAP)%list /\
  (forall w0 : World,
     objects (exec Link.cancel w0) = objects w0 /\
     pose_log (exec Link.cancel w0) = pose_log w0).
Proof.
  intros Ht Hrig rig w'.
  pose proof (rig_has_joints_pose w Hrig) as Hp.
  split; [reflexivity|].
  subst w' rig. unfold exec.
  rewrite (retarget_cancel_run w h Ht Hp). cbn [fst snd].
  set (w1 := set_wm_timers (delete h) (wm_next_timer w) (set_is_running false w)).
  split; [done|]. split.
  { by destruct (foldl_joints_frame (op_armature_name w) home_angle
                   Retarget.JOINT_MAP w1) as (_ & -> & _). }
  split.
  { apply Forall_forall. intros j Hj.
    apply (joint_angle_foldl (op_armature_name w) home_angle w1 j Hj).
    unfold rig_has_joints in Hrig. rewrite Forall_forall in Hrig.
    by apply Hrig. }
  split; [|apply link_cancel_frame].
  rewrite pose_log_foldl_joints. change (pose_log w1) with (pose_log w). f_equal.
  by apply present_writes_all.
Qed.

Lemma retarget_stop_homes_joints_witness :
  joint_angle (exec (@Retarget.cancel example_lib) tick_world) "Armature" "Elbow"
  = Some (@radians example_lib 0) /\
  length (pose_log (exec (@Retarget.cancel example_lib) tick_world)) = 12%nat.
Proof.
  destruct (@retarget_stop_homes_joints example_lib tick_world 0%nat)
    as (_ & _ & _ & Hhome & Hlog & _);
    [reflexivity | unfold rig_has_joints; repeat constructor; vm_compute; eauto |].
  split.
  - rewrite Forall_forall in Hhome.
    apply (Hhome ("Elbow", Retarget.mkJoint "UpperArm.018" "X")). pick_elem.
  - rewrite Hlog. reflexivity.
Defined.

(** ** C10: the rotation mode is overwritten before every write *)

Lemma pose_log_sensor_step {L : HostLib} (rig : string) (item : Z * string) (w : World) :
  pose_log (sensor_step rig item w)
  = (pose_log w ++ sensor_writes rig w item)%list.
Proof.
  unfold sensor_step, sensor_writes.
  destruct (latest_data w !! KNum (zq item.1)) as [raw|]; [|by rewrite app_nil_r].
  destruct (bone_at w rig item.2); [|by rewrite app_nil_r].
  destruct (rotation_of raw) as [[[[? ?] ?] ?]|]; [|by rewrite app_nil_r].
  unfold sensor_written. simpl. by rewrite <- app_assoc.
Qed.

Lemma rotation_mode_axis_written (axis : string) (angle : Qc) (o : option PoseBone) (pb : PoseBone) :
  o = Some pb -> rotation_mode <$> (axis_written axis angle <$> o) = Some "XYZ".
Proof. by intros ->. Qed.

(** C10. Every pose write sets the rotation mode of its bone first,
    whatever mode the bone had: on a tick of the Link Stage each bone that
    is written ends in mode QUATERNION, on a tick of the Retarget Stage and
    on its stop each bone that is written ends in mode XYZ, and the host
    receives, for each bone, the mode write immediately before the rotation
    write. *)
Theorem pose_writes_overwrite_mode {L : HostLib} (w : World) :
  let rig := op_armature_name w in
  has_pose w rig ->
  (link_store_ok w ->
   let w' := exec (Link.modal "TIMER") w in
   Forall (fun item : Z * string =>
             forall raw pb,
               latest_data w !! KNum (zq item.1) = Some raw ->
               bone_at w rig item.2 = Some pb ->
               rotation_mode <$> bone_at w' rig item.2 = Some "QUATERNION")
     Link.BONE_MAP /\
   pose_log w' = (pose_log w ++ flat_map (sensor_writes rig w) Link.BONE_MAP)%list) /\
  (forall raw1 raw2 q1 q2,
     latest_data w !! KNum (zq Retarget.IMU_SHOULDER_ID) = Some raw1 ->
     latest_data w !! KNum (zq Retarget.IMU_FOREARM_ID) = Some raw2 ->
     Retarget.quaternion_of_raw raw1 = Some q1 ->
     Retarget.quaternion_of_raw raw2 = Some q2 ->
     let w' := exec (Retarget.modal "TIMER") w in
     Forall (fun j : string * Retarget.JointConfig =>
               forall pb,
                 bone_at w rig (Retarget.bone j.2) = Some pb ->
                 rotation_mode <$> bone_at w' rig (Retarget.bone j.2) = Some "XYZ")
       Retarget.JOINT_MAP /\
     pose_log w'
     = (pose_log w
        ++ present_writes w rig (angle_of (Retarget.target_angles q1 q2))
             Retarget.JOINT_MAP)%list) /\
  (forall h,
     op_timer w = Some h ->
     let w' := exec Retarget.cancel w in
     Forall (fun j : string * Retarget.JointConfig =>
               forall pb,
                 bone_at w rig (Retarget.bone j.2) = Some pb ->
                 rotation_mode <$> bone_at w' rig (Retarget.bone j.2) = Some "XYZ")
       Retarget.JOINT_MAP /\
     pose_log w'
     = (pose_log w ++ present_writes w rig home_angle Retarget.JOINT_MAP)%list).
Proof.
  intros rig Hp. subst rig. split; [|split].
  - intros Hok w'. subst w'. unfold exec.
    rewrite (link_tick_run w Hp Hok). cbn [snd].
    pose proof Hok as Hok'. unfold link_store_ok, Link.BONE_MAP in Hok'.
    apply Forall_cons in Hok' as [Hok0 Hok']. apply Forall_cons in Hok' as [Hok1 _].
    split.
    + unfold Link.BONE_MAP. repeat apply Forall_cons_2; [| |apply Forall_nil_2].
      * intros raw pb Hraw Hpb.
        destruct (Hok0 raw Hraw) as [[[[qw qx] qy] qz] Hrot].
        rewrite bone_at_sensor_step_other by done.
        by rewrite (bone_at_sensor_step_own _ (0%Z, "UpperArm.008") _ raw qw qx qy qz pb).
      * intros raw pb Hraw Hpb.
        destruct (Hok1 raw Hraw) as [[[[qw qx] qy] qz] Hrot].
        rewrite (bone_at_sensor_step_own _ (1%Z, "UpperArm.021") _ raw qw qx qy qz pb);
          [done| |done|].
        -- by rewrite latest_data_sensor_step.
        -- by rewrite bone_at_sensor_step_other.
    + rewrite !pose_log_sensor_step. rewrite <- app_assoc. f_equal.
      unfold Link.BONE_MAP. simpl. rewrite app_nil_r. f_equal.
      unfold sensor_writes. rewrite latest_data_sensor_step.
      by rewrite bone_at_sensor_step_other.
  - intros raw1 raw2 q1 q2 H1 H2 Hq1 Hq2 w'. subst w'. unfold exec.
    rewrite (retarget_tick_run w raw1 raw2 q1 q2 H1 H2 Hq1 Hq2 Hp). cbn [snd].
    split; [|apply pose_log_foldl_joints].
    apply Forall_forall. intros j Hj pb Hpb.
    rewrite bone_at_foldl_joint by (apply JOINT_MAP_bones_distinct || done).
    by apply (rotation_mode_axis_written _ _ _ pb).
  - intros h Ht w'. subst w'. unfold exec.
    rewrite (retarget_cancel_run w h Ht Hp). cbn [snd].
    set (w1 := set_wm_timers (delete h) (wm_next_timer w) (set_is_running false w)).
    split; [|apply (pose_log_foldl_joints _ _ _ w1)].
    apply Forall_forall. intros j Hj pb Hpb.
    rewrite bone_at_foldl_joint by (apply JOINT_MAP_bones_distinct || done).
    by apply (rotation_mode_axis_written _ _ _ pb).
Qed.

Lemma pose_writes_overwrite_mode_witness :
  rotation_mode <$> bone_at tick_world "Armature" "UpperArm.021" = Some "QUATERNION" /\
  rotation_mode <$>
    bone_at (exec (@Retarget.cancel example_lib) tick_world) "Armature" "UpperArm.021"
  = Some "XYZ".
Proof.
  split; [reflexivity|].
  destruct (@pose_writes_overwrite_mode example_lib tick_world) as (_ & _ & Hstop).
  { vm_compute. eauto. }
  destruct (Hstop 0%nat eq_refl) as [Hmode _].
  rewrite Forall_forall in Hmode.
  apply (Hmode ("Gripper", Retarget.mkJoint "UpperArm.021" "Y") ltac:(pick_elem)
           sample_bone).
  reflexivity.
Defined.

(** ** The serial receiver *)

Section Receiver.
Context {L : HostLib}.

Lemma accepted_unique (text : string) (k k' : Key) (q q' : pyval) :
  accepted text k q -> accepted text k' q' -> k = k' /\ q = q'.
Proof.
  intros (kvs & id & _ & _ & Hj & Hid & Hq & Hk)
         (kvs' & id' & _ & _ & Hj' & Hid' & Hq' & Hk').
  rewrite Hj in Hj'. injection Hj' as <-.
  rewrite Hid in Hid'. injection Hid' as <-.
  rewrite Hq in Hq'. injection Hq' as <-.
  rewrite Hk in Hk'. by injection Hk' as <-.
Qed.

Lemma store_packet_accepted (text : string) (k : Key) (q : pyval) (w : World) :
  accepted text k q ->
  Serial.store_packet text w = (Returned tt, stored k q w).
Proof.
  intros (kvs & id & Hs & He & Hj & Hid & Hq & Hk).
  unfold Serial.store_packet. cbv zeta.
  rewrite Hs, He, Hj. cbn [andb].
  rewrite bind_or_raise_Some, Hid, Hq.
  rewrite !bool_decide_eq_true_2 by eauto. cbn [andb].
  rewrite !bind_or_raise_Some, Hk, bind_or_raise_Some.
  reflexivity.
Qed.

(** A frame that is not accepted leaves the world as it was, whether the
    body of the [try] returns or raises. *)
Lemma store_packet_rejected (text : string) (w : World) :
  (forall k q, ~ accepted text k q) ->
  exec (Serial.store_packet text) w = w.
Proof.
  intros Hno. unfold exec, Serial.store_packet. cbv zeta.
  destruct (startswith "{" (py_strip text)) eqn:Hs; [|done].
  destruct (endswith "}" (py_strip text)) eqn:He; [|done].
  cbn [andb].
  destruct (json_loads (py_strip text)) as [data|] eqn:Hj; [|done].
  rewrite bind_or_raise_Some.
  destruct data as [| | | | | |kvs]; try done.
  destruct (dict_get "id" kvs) as [id|] eqn:Hid.
  - destruct (dict_get "q" kvs) as [q|] eqn:Hq.
    + rewrite !bool_decide_eq_true_2 by eauto. cbn [andb].
      rewrite !bind_or_raise_Some.
      destruct (py_hash_key id) as [k|] eqn:Hk; [|done].
      exfalso. apply (Hno k q). by exists kvs, id.
    + rewrite (bool_decide_eq_false_2 (is_Some None)) by (by intros [? ?]).
      by rewrite andb_false_r.
  - by rewrite (bool_decide_eq_false_2 (is_Some None)) by (by intros [? ?]).
Qed.

Lemma accepted_dec (text : string) :
  (exists k q, accepted text k q) \/ (forall k q, ~ accepted text k q).
Proof.
  unfold accepted.
  destruct (startswith "{" (py_strip text)) eqn:Hs; cycle 1.
  { right. intros k q (kvs & id & Hs' & He' & Hj' & Hid' & Hq' & Hk'). congruence. }
  destruct (endswith "}" (py_strip text)) eqn:He; cycle 1.
  { right. intros k q (kvs & id & Hs' & He' & Hj' & Hid' & Hq' & Hk'). congruence. }
  destruct (json_loads (py_strip text)) as [data|] eqn:Hj; cycle 1.
  { right. intros k q (kvs & id & Hs' & He' & Hj' & Hid' & Hq' & Hk'). congruence. }
  destruct data as [| | | | | |kvs];
    try (right; intros k q (kvs' & id & Hs' & He' & Hj' & Hid' & Hq' & Hk');
         congruence).
  destruct (dict_get "id" kvs) as [id|] eqn:Hid; cycle 1.
  { right. intros k q (kvs' & id & Hs' & He' & Hj' & Hid' & Hq' & Hk').
    injection Hj' as <-. congruence. }
  destruct (dict_get "q" kvs) as [q|] eqn:Hq; cycle 1.
  { right. intros k q (kvs' & id' & Hs' & He' & Hj' & Hid' & Hq' & Hk').
    injection Hj' as <-. congruence. }
  destruct (py_hash_key id) as [k|] eqn:Hk; cycle 1.
  { right. intros k q' (kvs' & id' & Hs' & He' & Hj' & Hid' & Hq' & Hk').
    injection Hj' as <-. congruence. }
  left. exists k, q, kvs, id. repeat split; auto.
Qed.

Lemma iteration_line_accepted (text : string) (k : Key) (q : pyval) (w : World) :
  accepted text k q ->
  Serial.iteration (RxLine text) w = (Returned tt, stored k q w).
Proof.
  intros H. unfold Serial.iteration, try_pass.
  by rewrite (store_packet_accepted text k q w H).
Qed.

Lemma iteration_line_rejected (text : string) (w : World) :
  (forall k q, ~ accepted text k q) ->
  Serial.iteration (RxLine text) w = (Returned tt, w).
Proof.
  intros H. unfold Serial.iteration, try_pass.
  f_equal. by apply store_packet_rejected.
Qed.

(** The text of the malformed frame fails the brace test under any
    library. *)
Lemma not_json_rejected (k : Key) (q : pyval) : ~ accepted "{not json" k q.
Proof. intros (? & ? & _ & He & _). vm_compute in He. discriminate. Qed.
End Receiver.

(** ** C5: what the receiver stores *)

(** C5 (amended). One turn of the receiver on a decoded line never
    raises.  It stores an entry exactly when the stripped line is
    brace-delimited and decodes to an object that has both members, with
    a hashable id; it then stores the rotation member as decoded, under
    that id, and counts the packet.  Any other line, and an undecodable
    frame, leave the world as it was. *)
Theorem receiver_stores_on_parse {L : HostLib} (text : string) (w : World) :
  let w' := exec (Serial.iteration (RxLine text)) w in
  fst (Serial.iteration (RxLine text) w) = Returned tt /\
  Serial.iteration RxUndecodable w = (Returned tt, w) /\
  ((exists k q, accepted text k q /\
                latest_data w' = <[k := q]> (latest_data w) /\
                packet_count w' = (packet_count w + 1)%Z /\
                objects w' = objects w /\ pose_log w' = pose_log w) \/
   ((forall k q, ~ accepted text k q) /\ w' = w)).
Proof.
  intros w'. subst w'. unfold exec.
  split; [done|]. split; [done|].
  destruct (accepted_dec text) as [(k & q & Hacc)|Hno].
  - left. exists k, q. by rewrite (iteration_line_accepted text k q w Hacc).
  - right. by rewrite (iteration_line_rejected text w Hno).
Qed.

(** C5, as stated, fails: a brace-delimited frame whose rotation member is
    an empty list is stored as it is, it is not a rotation, and the next
    tick of either pose updater raises on it; and a frame whose id is a
    text is stored under that text. *)
Lemma receiver_stores_malformed_rotation :
  let w1 := exec (@Serial.iteration example_lib (RxLine empty_rotation_line))
              sample_world in
  let w2 := exec (@Serial.iteration example_lib (RxLine empty_rotation_line_0)) w1 in
  let w3 := exec (@Serial.iteration example_lib (RxLine text_id_line)) sample_world in
  latest_data w1 !! KNum (zq 1) = Some (PList []) /\
  ~ is_rotation (PList []) /\
  fst (@Link.modal example_lib "TIMER" w1) = Raised /\
  fst (@Retarget.modal example_lib "TIMER" w2) = Raised /\
  is_Some (latest_data w3 !! KStr "a").
Proof.
  repeat split.
  - intros (a & b & c & d & [=] & _).
  - vm_compute. eauto.
Qed.

(** ** C6: a malformed line between two packets *)

Lemma loop_accepted {L : HostLib} (text : string) (k : Key) (q : pyval)
    (rest : list rx) (w : World) :
  is_running w = true ->
  accepted text k q ->
  Serial.loop (RxLine text :: rest) w = Serial.loop rest (stored k q w).
Proof.
  intros Hrun Hacc. cbn [Serial.loop]. rewrite bind_gets. cbn beta. rewrite Hrun.
  by rewrite (bind_returned _ _ _ _ _ (iteration_line_accepted text k q w Hacc)).
Qed.

Lemma loop_rejected {L : HostLib} (text : string) (rest : list rx) (w : World) :
  is_running w = true ->
  (forall k q, ~ accepted text k q) ->
  Serial.loop (RxLine text :: rest) w = Serial.loop rest w.
Proof.
  intros Hrun Hno. cbn [Serial.loop]. rewrite bind_gets. cbn beta. rewrite Hrun.
  by rewrite (bind_returned _ _ _ _ _ (iteration_line_rejected text w Hno)).
Qed.

(** A malformed line is one the receiver does not accept, and the other
    way round: every decoded line is a packet the receiver stores or is
    malformed. *)
Lemma malformed_rejected {L : HostLib} (text : string) :
  malformed (RxLine text) -> forall k q, ~ accepted text k q.
Proof.
  intros Hbad k q (kvs & id & Hs & He & Hj & Hid & Hq & Hk).
  inversion Hbad as [|t Hb|t Hn|t v Hv Hnd|t kvs' Hv [Hm|Hm]|t kvs' id' Hv Hi Hh];
    subst.
  - rewrite Hs, He in Hb. discriminate.
  - congruence.
  - rewrite Hj in Hv. injection Hv as <-. by apply (Hnd kvs).
  - rewrite Hj in Hv. injection Hv as <-. congruence.
  - rewrite Hj in Hv. injection Hv as <-. congruence.
  - rewrite Hj in Hv. injection Hv as <-.
    rewrite Hid in Hi. injection Hi as <-. congruence.
Qed.

Lemma malformed_or_accepted {L : HostLib} (text : string) :
  malformed (RxLine text) \/ exists k q, accepted text k q.
Proof.
  destruct (startswith "{" (py_strip text) && endswith "}" (py_strip text))
    eqn:Hb; [|left; by apply not_braced].
  apply andb_prop in Hb as [Hs He].
  destruct (json_loads (py_strip text)) as [v|] eqn:Hj;
    [|left; by apply not_json].
  destruct v as [| | | | | |kvs];
    try (left; eapply not_a_record; [exact Hj|done]).
  destruct (dict_get "id" kvs) as [id|] eqn:Hid;
    [|left; eapply member_missing; eauto].
  destruct (dict_get "q" kvs) as [q|] eqn:Hq;
    [|left; eapply member_missing; eauto].
  destruct (py_hash_key id) as [k|] eqn:Hk;
    [|left; eapply unhashable_id; eauto].
  right. by exists k, q, kvs, id.
Qed.

(** The turn on a malformed frame returns and leaves the world as it
    was: the inner [except] swallows what the [try] raised. *)
Lemma iteration_malformed {L : HostLib} (bad : rx) (w : World) :
  malformed bad -> Serial.iteration bad w = (Returned tt, w).
Proof.
  intros Hbad. destruct bad as [| | |text]; try (by inversion Hbad).
  apply iteration_line_rejected. by apply malformed_rejected.
Qed.

Lemma loop_malformed {L : HostLib} (bad : rx) (rest : list rx) (w : World) :
  is_running w = true ->
  malformed bad ->
  Serial.loop (bad :: rest) w = Serial.loop rest w.
Proof.
  intros Hrun Hbad. cbn [Serial.loop]. rewrite bind_gets. cbn beta. rewrite Hrun.
  by rewrite (bind_returned _ _ _ _ _ (iteration_malformed bad w Hbad)).
Qed.

(** C6. With the run flag set, take a first accepted packet, then a
    malformed frame, then a second accepted packet.  Whatever makes the
    frame malformed (bytes that do not decode, a line that fails the brace
    test, a line on which the JSON parse raises, a value that is no object,
    a missing member, an unhashable id), the receiver returns normally with
    the run flag still set; the store holds the first packet's entry
    overwritten or joined by the second's and nothing else new, two packets
    are counted, and the world is the one the two packets alone produce.
    The line [{not json] is such a frame under any JSON library.  And
    whatever the line in the middle is, malformed or not, the loop is not
    ended and the second packet is stored after it. *)
Theorem malformed_line_is_skipped {L : HostLib} (w : World)
    (t1 t3 : string) (k1 k3 : Key) (q1 q3 : pyval) :
  is_running w = true ->
  accepted t1 k1 q1 ->
  accepted t3 k3 q3 ->
  let skipped (bad : rx) :=
    let w' :=
      exec (Serial.read_serial_thread true [RxLine t1; bad; RxLine t3]) w in
    fst (Serial.read_serial_thread true [RxLine t1; bad; RxLine t3] w)
    = Returned tt /\
    latest_data w' = <[k3 := q3]> (<[k1 := q1]> (latest_data w)) /\
    packet_count w' = (packet_count w + 2)%Z /\
    is_running w' = true /\
    w' = exec (Serial.read_serial_thread true [RxLine t1; RxLine t3]) w in
  (forall bad, malformed bad -> skipped bad) /\
  skipped (RxLine "{not json") /\
  (forall text,
     let w' :=
       exec (Serial.read_serial_thread true
               [RxLine t1; RxLine text; RxLine t3]) w in
     fst (Serial.read_serial_thread true
            [RxLine t1; RxLine text; RxLine t3] w) = Returned tt /\
     is_running w' = true /\
     latest_data w' !! k3 = Some q3 /\
     (packet_count w + 2 <= packet_count w')%Z).
Proof.
  intros Hrun H1 H3 skipped.
  assert (is_running (stored k1 q1 w) = true) as Hrun1 by exact Hrun.
  assert (Serial.loop [RxLine t1; RxLine t3] w
          = (Returned tt, stored k3 q3 (stored k1 q1 w))) as Htwo.
  { rewrite (loop_accepted t1 k1 q1 _ w Hrun H1).
    by rewrite (loop_accepted t3 k3 q3 _ _ Hrun1 H3). }
  assert (forall bad, malformed bad -> skipped bad) as Hskip.
  { intros bad Hbad. subst skipped. cbv beta zeta.
    assert (Serial.loop [RxLine t1; bad; RxLine t3] w
            = (Returned tt, stored k3 q3 (stored k1 q1 w))) as Hthree.
    { rewrite (loop_accepted t1 k1 q1 _ w Hrun H1).
      rewrite (loop_malformed bad _ _ Hrun1 Hbad).
      by rewrite (loop_accepted t3 k3 q3 _ _ Hrun1 H3). }
    unfold exec, Serial.read_serial_thread. rewrite Hthree, Htwo. cbn [fst snd].
    repeat split; simpl; auto. lia. }
  split; [exact Hskip|]. split.
  - apply Hskip. apply not_braced. vm_compute. reflexivity.
  - intros text. cbv zeta.
    destruct (malformed_or_accepted text) as [Hbad|(k & q & Hacc)].
    + destruct (Hskip _ Hbad) as (Hr & Hd & Hc & Hf & _).
      split; [exact Hr|]. split; [exact Hf|]. split.
      * rewrite Hd. apply lookup_insert_eq.
      * rewrite Hc. lia.
    + assert (is_running (stored k q (stored k1 q1 w)) = true) as Hrun2
        by exact Hrun.
      assert (Serial.loop [RxLine t1; RxLine text; RxLine t3] w
              = (Returned tt, stored k3 q3 (stored k q (stored k1 q1 w))))
        as Hthree.
      { rewrite (loop_accepted t1 k1 q1 _ w Hrun H1).
        rewrite (loop_accepted text k q _ _ Hrun1 Hacc).
        by rewrite (loop_accepted t3 k3 q3 _ _ Hrun2 H3). }
      unfold exec, Serial.read_serial_thread. rewrite Hthree. cbn [fst snd].
      split; [done|]. split; [exact Hrun|]. split.
      * simpl. apply lookup_insert_eq.
      * simpl. lia.
Qed.

Lemma malformed_line_is_skipped_witness :
  is_running sample_world = true /\
  @malformed example_lib (RxLine "{not json}") /\
  exec (@Serial.read_serial_thread example_lib true
          [RxLine shoulder_line; RxLine "{not json}"; RxLine forearm_line])
    sample_world
  = tick_world /\
  let w' :=
    exec (@Serial.read_serial_thread example_lib true
            [RxLine shoulder_line; RxLine "{not json"; RxLine forearm_line])
      sample_world in
  packet_count w' = 2%Z /\ w' = tick_world.
Proof.
  assert (@malformed example_lib (RxLine "{not json}")) as Hbad
    by (apply not_json; vm_compute; reflexivity).
  split; [reflexivity|]. split; [exact Hbad|].
  edestruct (@malformed_line_is_skipped example_lib sample_world
               shoulder_line forearm_line) as (Hany & Hlit & _);
    [reflexivity
    | eexists _, _; repeat split; vm_compute; reflexivity
    | eexists _, _; repeat split; vm_compute; reflexivity |].
  destruct (Hany _ Hbad) as (_ & _ & _ & _ & Hsame).
  destruct Hlit as (_ & _ & Hcount & _ & Hsame').
  split; [exact Hsame|]. split; [exact Hcount|exact Hsame'].
Defined.

(** ** C8: start without a rig *)

(** C8. When the operator is idle and no rig can be resolved (the
    active object, if any, is not an armature, and no object is named
    "Armature"), the start command of either script reports an error to the
    user and returns CANCELLED; apart from that report the world is as it
    was: the run flag stays cleared, no receiver task is launched, no timer
    and no modal handler is registered. *)
Theorem start_without_rig_aborts (w : World) :
  is_running w = false ->
  (forall o, active_object w = Some o -> obj_type o <> "ARMATURE") ->
  objects w !! "Armature" = None ->
  (Link.execute w
   = (Returned CANCELLED,
      add_report "ERROR" "Please SELECT your Robot Armature first!" w) /\
   Retarget.execute w
   = (Returned CANCELLED, add_report "ERROR" "Select Armature first!" w)) /\
  (forall w', w' = exec Link.execute w \/ w' = exec Retarget.execute w ->
     is_running w' = false /\
     receiver_threads w' = receiver_threads w /\
     wm_timers w' = wm_timers w /\
     wm_modal_handlers w' = wm_modal_handlers w /\
     op_timer w' = op_timer w /\
     op_armature_name w' = op_armature_name w /\
     latest_data w' = latest_data w /\
     objects w' = objects w /\
     exists msg, reports w' = (reports w ++ [("ERROR", msg)])%list).
Proof.
  intros Hidle Hactive Hnone.
  assert (Link.execute w
          = (Returned CANCELLED,
             add_report "ERROR" "Please SELECT your Robot Armature first!" w)) as Hl.
  { unfold Link.execute, Link.start_fallback.
    rewrite !bind_gets. cbn beta. rewrite Hidle. rewrite bind_gets. cbn beta.
    destruct (active_object w) as [o|] eqn:Ho.
    - rewrite decide_False by (by apply Hactive).
      rewrite bind_gets. cbn beta. by rewrite Hnone.
    - rewrite bind_gets. cbn beta. by rewrite Hnone. }
  assert (Retarget.execute w
          = (Returned CANCELLED, add_report "ERROR" "Select Armature first!" w)) as Hr.
  { unfold Retarget.execute, Retarget.start_fallback.
    rewrite !bind_gets. cbn beta. rewrite Hidle. rewrite bind_gets. cbn beta.
    destruct (active_object w) as [o|] eqn:Ho.
    - rewrite decide_False by (by apply Hactive).
      rewrite bind_gets. cbn beta. by rewrite Hnone.
    - rewrite bind_gets. cbn beta. by rewrite Hnone. }
  split; [by split|].
  intros w' [-> | ->]; unfold exec; [rewrite Hl|rewrite Hr]; cbn [snd];
    simpl; repeat split; eauto.
Qed.

Lemma start_without_rig_aborts_witness :
  is_running empty_world = false /\
  fst (Link.execute empty_world) = Returned CANCELLED /\
  fst (Retarget.execute empty_world) = Returned CANCELLED /\
  receiver_threads (exec Retarget.execute empty_world) = 0%nat.
Proof.
  destruct (start_without_rig_aborts empty_world) as [[Hl Hr] Hsame];
    [reflexivity | intros o [=] | reflexivity |].
  split; [reflexivity|].
  rewrite Hl, Hr. split; [reflexivity|]. split; [reflexivity|].
  destruct (Hsame _ (or_intror eq_refl)) as (_ & Hthreads & _).
  exact Hthreads.
Defined.

(** ** The system over a run: what the operations leave alone *)

(** Walks a computation built from the monad's combinators down to its
    [modify] leaves. *)
Ltac frame_step :=
  lazymatch goal with
  | |- preserves _ (mret _) => apply preserves_ret
  | |- preserves _ raise => apply preserves_raise
  | |- preserves _ (gets _) => apply preserves_gets
  | |- preserves _ (or_raise _) => apply preserves_or_raise
  | |- preserves _ (pose_bones_get _ _) => apply preserves_pose_bones_get
  | |- preserves _ (try_pass _) => apply preserves_try_pass
  | |- preserves _ (for_each _ _) => apply preserves_for_each; intros ? _
  | |- preserves _ (_ ≫= _) => apply preserves_bind; [|intros ?]
  | |- preserves _ (modify _) => apply preserves_modify; intros ?
  | |- preserves _ (match ?x with _ => _ end) => destruct x
  | |- preserves _ (let _ := _ in _) => cbv zeta
  end.

Ltac frame := repeat frame_step.

Lemma bone_at_objects (w1 w2 : World) (rig bone : string) :
  objects w1 = objects w2 -> bone_at w1 rig bone = bone_at w2 rig bone.
Proof. unfold bone_at. by intros ->. Qed.

Lemma preserves_event_timer_add {B : Type} (obs : World -> B) (period : Qc) :
  (forall w f n, obs (set_wm_timers f n w) = obs w) ->
  preserves obs (event_timer_add period).
Proof. intros H w. apply H. Qed.

Section OperatorFrames.
Context {L : HostLib}.

(** The operators never write the store. *)
Lemma link_execute_store : preserves latest_data Link.execute.
Proof.
  unfold Link.execute, Link.start_fallback, Link.start.
  frame; try reflexivity; by apply preserves_event_timer_add.
Qed.

Lemma link_cancel_store : preserves latest_data Link.cancel.
Proof. unfold Link.cancel, event_timer_remove. frame; reflexivity. Qed.

Lemma link_modal_store (ev : string) : preserves latest_data (Link.modal ev).
Proof.
  unfold Link.modal. destruct (decide _); [apply link_cancel_store|].
  destruct (decide _); [|apply preserves_ret].
  apply preserves_bind; [apply preserves_gets|intros rig].
  apply preserves_bind; [apply preserves_gets|intros [o|]];
    [|apply link_cancel_store].
  unfold Link.update_sensor_bone, assign_rotation_mode, assign_rotation_quaternion.
  frame; reflexivity.
Qed.

Lemma retarget_execute_store : preserves latest_data Retarget.execute.
Proof.
  unfold Retarget.execute, Retarget.start_fallback, Retarget.start.
  frame; try reflexivity; by apply preserves_event_timer_add.
Qed.

Lemma retarget_cancel_store : preserves latest_data Retarget.cancel.
Proof.
  unfold Retarget.cancel, event_timer_remove, Retarget.home_joint,
    assign_rotation_mode, assign_euler_axis.
  frame; reflexivity.
Qed.

Lemma retarget_modal_store (ev : string) : preserves latest_data (Retarget.modal ev).
Proof.
  unfold Retarget.modal. destruct (decide _); [apply retarget_cancel_store|].
  destruct (decide _); [|apply preserves_ret].
  unfold Retarget.apply_joint, assign_rotation_mode, assign_euler_axis.
  frame; reflexivity.
Qed.

(** Starting and, for the Link Stage, stopping never write the scene. *)
Lemma link_execute_scene :
  preserves (fun w => (objects w, pose_log w)) Link.execute.
Proof.
  unfold Link.execute, Link.start_fallback, Link.start.
  frame; try reflexivity; by apply preserves_event_timer_add.
Qed.

Lemma link_cancel_scene :
  preserves (fun w => (objects w, pose_log w)) Link.cancel.
Proof. unfold Link.cancel, event_timer_remove. frame; reflexivity. Qed.

Lemma retarget_execute_scene :
  preserves (fun w => (objects w, pose_log w)) Retarget.execute.
Proof.
  unfold Retarget.execute, Retarget.start_fallback, Retarget.start.
  frame; try reflexivity; by apply preserves_event_timer_add.
Qed.

(** The receiver never writes the scene, and its store only grows. *)
Lemma store_packet_scene (text : string) :
  preserves (fun w => (objects w, pose_log w)) (Serial.store_packet text).
Proof. unfold Serial.store_packet. frame; reflexivity. Qed.

Lemma iteration_scene (r : rx) :
  preserves (fun w => (objects w, pose_log w)) (Serial.iteration r).
Proof.
  destruct r; unfold Serial.iteration; frame. apply store_packet_scene.
Qed.

Lemma loop_scene (rxs : list rx) :
  preserves (fun w => (objects w, pose_log w)) (Serial.loop rxs).
Proof.
  induction rxs as [|r rxs IH]; cbn [Serial.loop]; [apply preserves_ret|].
  apply preserves_bind; [apply preserves_gets|intros [|]];
    [|apply preserves_ret].
  apply preserves_bind; [apply iteration_scene|intros _; apply IH].
Qed.

Lemma receiver_scene (opened : bool) (rxs : list rx) :
  preserves (fun w => (objects w, pose_log w)) (Serial.read_serial_thread opened rxs).
Proof.
  intros w. unfold exec, Serial.read_serial_thread.
  destruct opened; [|done].
  pose proof (loop_scene rxs w) as H. unfold exec in H.
  by destruct (Serial.loop rxs w) as [[[]|] w'].
Qed.

Lemma iteration_store_grows (r : rx) (k : Key) (w : World) :
  is_Some (latest_data w !! k) ->
  is_Some (latest_data (exec (Serial.iteration r) w) !! k).
Proof.
  intros Hk. destruct r as [| | |text]; try done.
  destruct (accepted_dec text) as [(k' & q & Hacc)|Hno].
  - unfold exec. rewrite (iteration_line_accepted text k' q w Hacc). simpl.
    rewrite lookup_insert. by destruct (decide (k' = k)).
  - unfold exec. by rewrite (iteration_line_rejected text w Hno).
Qed.

Lemma loop_store_grows (rxs : list rx) (k : Key) :
  forall w, is_Some (latest_data w !! k) ->
            is_Some (latest_data (exec (Serial.loop rxs) w) !! k).
Proof.
  induction rxs as [|r rxs IH]; intros w Hk; [done|].
  cbn [Serial.loop]. unfold exec. rewrite bind_gets. cbn beta.
  destruct (is_running w); [|done].
  pose proof (iteration_store_grows r k w Hk) as Hr. unfold exec in Hr.
  change ((Serial.iteration r ≫= fun _ => Serial.loop rxs) w).2
    with (exec (Serial.iteration r ≫= fun _ => Serial.loop rxs) w).
  rewrite exec_bind.
  destruct (Serial.iteration r w) as [[[]|] w1]; [|done].
  by apply IH.
Qed.

Lemma receiver_store_grows (opened : bool) (rxs : list rx) (k : Key) (w : World) :
  is_Some (latest_data w !! k) ->
  is_Some (latest_data (exec (Serial.read_serial_thread opened rxs) w) !! k).
Proof.
  intros Hk. unfold exec, Serial.read_serial_thread.
  destruct opened; [|done].
  pose proof (loop_store_grows rxs k w Hk) as H. unfold exec in H.
  by destruct (Serial.loop rxs w) as [[[]|] w'].
Qed.
End OperatorFrames.

Section RunFrames.
Context {L : HostLib}.

Lemma update_sensor_bone_other (rig : string) (item : Z * string) (rig' bone' : string) :
  bone' <> item.2 ->
  preserves (fun w => (latest_data w, bone_at w rig' bone'))
    (Link.update_sensor_bone rig item).
Proof.
  intros Hne.
  unfold Link.update_sensor_bone, assign_rotation_mode, assign_rotation_quaternion.
  frame; try reflexivity.
  - f_equal. change (bone_at (add_pose_log ?e ?w0)) with (bone_at w0).
    by apply bone_at_update_bone_ne.
  - f_equal. change (bone_at (add_pose_log ?e ?w0)) with (bone_at w0).
    by apply bone_at_update_bone_ne.
Qed.

(** A tick of the Link Stage leaves the bone of a sensor without data as
    it was, whatever else the tick does and however it ends. *)
Lemma link_modal_absent (ev : string) (sid : Z) (bone rig' : string) (w : World) :
  (sid, bone) ∈ Link.BONE_MAP ->
  latest_data w !! KNum (zq sid) = None ->
  bone_at (exec (Link.modal ev) w) rig' bone = bone_at w rig' bone.
Proof.
  intros Hin Habs. unfold Link.modal.
  destruct (decide (ev = "ESC")).
  { apply bone_at_objects. by destruct (link_cancel_frame w). }
  destruct (decide (ev = "TIMER")); [|done].
  rewrite !exec_bind_gets.
  destruct (objects w !! op_armature_name w) as [o|].
  2:{ apply bone_at_objects. by destruct (link_cancel_frame w). }
  rewrite exec_bind_ret.
  unfold Link.BONE_MAP in *. cbn [for_each].
  apply elem_of_cons in Hin as [[= -> ->]|Hin].
  - rewrite exec_bind.
    rewrite (update_sensor_bone_absent _ (0%Z, "UpperArm.008") w Habs).
    rewrite exec_bind_ret.
    pose proof (update_sensor_bone_other (op_armature_name w) (1%Z, "UpperArm.021")
                  rig' "UpperArm.008" ltac:(done) w) as H.
    by injection H as _ H.
  - apply elem_of_cons in Hin as [[= -> ->]|Hin]; [|by apply elem_of_nil in Hin].
    rewrite exec_bind.
    pose proof (update_sensor_bone_other (op_armature_name w) (0%Z, "UpperArm.008")
                  rig' "UpperArm.021" ltac:(done) w) as H.
    unfold exec in H.
    destruct (Link.update_sensor_bone (op_armature_name w) (0%Z, "UpperArm.008") w)
      as [[[]|] w0]; cbn [snd] in H; injection H as Hstore Hbone; [|done].
    rewrite exec_bind_ret. unfold exec.
    rewrite (update_sensor_bone_absent _ (1%Z, "UpperArm.021") w0);
      [done|by rewrite Hstore].
Qed.

Lemma link_step_store_grows (op : SysOp) (k : Key) (w : World) :
  is_Some (latest_data w !! k) -> is_Some (latest_data (link_step op w) !! k).
Proof.
  destruct op as [|ev| |opened rxs]; cbn [link_step].
  - by rewrite link_execute_store.
  - by rewrite link_modal_store.
  - by rewrite link_cancel_store.
  - apply receiver_store_grows.
Qed.

Lemma retarget_step_store_grows (op : SysOp) (k : Key) (w : World) :
  is_Some (latest_data w !! k) -> is_Some (latest_data (retarget_step op w) !! k).
Proof.
  destruct op as [|ev| |opened rxs]; cbn [retarget_step].
  - by rewrite retarget_execute_store.
  - by rewrite retarget_modal_store.
  - by rewrite retarget_cancel_store.
  - apply receiver_store_grows.
Qed.

Lemma run_store_grows (step : SysOp -> World -> World) (ops : list SysOp) (k : Key) :
  (forall op w, is_Some (latest_data w !! k) -> is_Some (latest_data (step op w) !! k)) ->
  forall w, is_Some (latest_data w !! k) ->
            is_Some (latest_data (run step ops w) !! k).
Proof.
  intros Hstep. induction ops as [|op ops IH]; intros w Hk; [done|].
  cbn [run foldl]. apply IH. by apply Hstep.
Qed.

(** An entry that is absent after a run was absent all along. *)
Lemma run_absent_before (step : SysOp -> World -> World) (ops : list SysOp) (k : Key) (w : World) :
  (forall op w, is_Some (latest_data w !! k) -> is_Some (latest_data (step op w) !! k)) ->
  latest_data (run step ops w) !! k = None ->
  latest_data w !! k = None.
Proof.
  intros Hstep Hend.
  destruct (latest_data w !! k) as [v|] eqn:Hk; [|done].
  destruct (run_store_grows step ops k Hstep w) as [v' Hv']; [by rewrite Hk; eauto|].
  congruence.
Qed.

Lemma link_step_absent (op : SysOp) (sid : Z) (bone rig' : string) (w : World) :
  (sid, bone) ∈ Link.BONE_MAP ->
  latest_data w !! KNum (zq sid) = None ->
  bone_at (link_step op w) rig' bone = bone_at w rig' bone.
Proof.
  intros Hin Habs. destruct op as [|ev| |opened rxs]; cbn [link_step].
  - apply bone_at_objects. pose proof (link_execute_scene w) as H. by injection H.
  - by apply (link_modal_absent ev sid).
  - apply bone_at_objects. by destruct (link_cancel_frame w).
  - apply bone_at_objects. pose proof (receiver_scene opened rxs w) as H.
    by injection H.
Qed.

Lemma retarget_step_closed (op : SysOp) (w : World) :
  is_stop op = false ->
  latest_data w !! KNum (zq Retarget.IMU_SHOULDER_ID) = None \/
  latest_data w !! KNum (zq Retarget.IMU_FOREARM_ID) = None ->
  objects (retarget_step op w) = objects w /\
  pose_log (retarget_step op w) = pose_log w.
Proof.
  intros Hstop Hgate. destruct op as [|ev| |opened rxs]; cbn [retarget_step].
  - pose proof (retarget_execute_scene w) as H. by injection H.
  - simpl in Hstop. apply bool_decide_eq_false in Hstop.
    destruct (decide (ev = "TIMER")) as [->|Hev].
    + unfold exec. by rewrite (retarget_tick_closed w Hgate).
    + unfold exec, Retarget.modal.
      rewrite decide_False by done. by rewrite decide_False by done.
  - discriminate.
  - pose proof (receiver_scene opened rxs w) as H. by injection H.
Qed.
End RunFrames.

(** ** C4: sensors that never sent a packet *)

(** C4 (amended). Over any run of the Link Stage (starts, ticks and
    other events, stops, and turns of the receiver in any order), a
    configured sensor that has no entry in the store at the end of the run
    has its bone, on every object, exactly as it was at the beginning.
    Over any run of the Retarget Stage that contains no stop, if the
    shoulder id or the forearm id has no entry at the end, the whole scene
    is as it was and the host received no pose write. *)
Theorem absent_sensor_leaves_bones {L : HostLib} (ops : list SysOp) (w : World) :
  (forall sid bone rig,
     (sid, bone) ∈ Link.BONE_MAP ->
     latest_data (run link_step ops w) !! KNum (zq sid) = None ->
     bone_at (run link_step ops w) rig bone = bone_at w rig bone) /\
  (Forall (fun op => is_stop op = false) ops ->
   latest_data (run retarget_step ops w) !! KNum (zq Retarget.IMU_SHOULDER_ID) = None \/
   latest_data (run retarget_step ops w) !! KNum (zq Retarget.IMU_FOREARM_ID) = None ->
   objects (run retarget_step ops w) = objects w /\
   pose_log (run retarget_step ops w) = pose_log w).
Proof.
  split.
  - intros sid bone rig Hin. revert w.
    induction ops as [|op ops IH]; intros w Hend; [done|].
    cbn [run foldl] in *. change (foldl _ ?w0 ops) with (run link_step ops w0) in *.
    rewrite (IH _ Hend).
    apply (link_step_absent op sid); [done|].
    pose proof (fun op w => link_step_store_grows op (KNum (zq sid)) w) as Hgrow.
    apply (run_absent_before link_step [op] (KNum (zq sid)) w Hgrow).
    cbn [run foldl].
    by apply (run_absent_before link_step ops _ _ Hgrow).
  - revert w. induction ops as [|op ops IH]; intros w Hops Hend; [done|].
    apply Forall_cons in Hops as [Hop Hops].
    cbn [run foldl] in *. change (foldl _ ?w0 ops) with (run retarget_step ops w0) in *.
    destruct (IH _ Hops Hend) as [-> ->].
    apply retarget_step_closed; [done|].
    destruct Hend as [Hend|Hend]; [left|right].
    + pose proof (fun op w => retarget_step_store_grows op
                    (KNum (zq Retarget.IMU_SHOULDER_ID)) w) as Hgrow.
      apply (run_absent_before retarget_step [op] _ w Hgrow). cbn [run foldl].
      by apply (run_absent_before retarget_step ops _ _ Hgrow).
    + pose proof (fun op w => retarget_step_store_grows op
                    (KNum (zq Retarget.IMU_FOREARM_ID)) w) as Hgrow.
      apply (run_absent_before retarget_step [op] _ w Hgrow). cbn [run foldl].
      by apply (run_absent_before retarget_step ops _ _ Hgrow).
Qed.

Lemma absent_sensor_leaves_bones_witness :
  bone_at
    (run (@link_step example_lib)
       [OpExecute; OpReceiver true [RxLine identity_line]; OpModal "TIMER";
        OpModal "ESC"] sample_world)
    "Armature" "UpperArm.008"
  = Some sample_bone.
Proof.
  destruct (@absent_sensor_leaves_bones example_lib
              [OpExecute; OpReceiver true [RxLine identity_line]; OpModal "TIMER";
               OpModal "ESC"] sample_world) as [Hlink _].
  rewrite (Hlink 0%Z "UpperArm.008" "Armature"); [reflexivity|pick_elem|].
  vm_compute. reflexivity.
Defined.

(** C4, as stated, fails across stop: with an empty store, the stop
    of the Retarget Stage rewrites the base joint's bone (mode and Z
    angle). *)
Lemma retarget_stop_rewrites_unfed_joint :
  latest_data sample_world = ∅ /\
  bone_at (run (@retarget_step example_lib) [OpModal "ESC"] sample_world)
    "Armature" "UpperArm.008"
  <> bone_at sample_world "Armature" "UpperArm.008".
Proof.
  split; [reflexivity|].
  vm_compute. intros H. discriminate H.
Qed.

(** * Further properties of the code *)

(** ** The receiver over a whole run *)

Section ReceiverRuns.
Context {L : HostLib}.

Lemma packet_of_accepted (text : string) (k : Key) (q : pyval) :
  packet_of text = Some (k, q) <-> accepted text k q.
Proof.
  unfold packet_of, accepted. cbv zeta. split.
  - destruct (startswith "{" (py_strip text)); [|done].
    destruct (endswith "}" (py_strip text)); [|done]. cbn [andb].
    destruct (json_loads (py_strip text)) as [[| | | | | |kvs]|]; try done.
    destruct (dict_get "id" kvs) as [id|] eqn:Hid; cbn; [|done].
    destruct (dict_get "q" kvs) as [q'|] eqn:Hq; cbn; [|done].
    destruct (py_hash_key id) as [k'|] eqn:Hk; cbn; [|done].
    intros [= <- <-]. exists kvs, id. repeat split; done.
  - intros (kvs & id & -> & -> & -> & -> & -> & Hk). cbn. by rewrite Hk.
Qed.

Lemma packet_of_None (text : string) :
  packet_of text = None -> forall k q, ~ accepted text k q.
Proof.
  intros Hnone k q Hacc. apply packet_of_accepted in Hacc. congruence.
Qed.

Lemma iteration_rx_packet (r : rx) (w : World) :
  is_device_error r = false ->
  Serial.iteration r w
  = (Returned tt, match rx_packet r with
                  | Some p => stored p.1 p.2 w
                  | None => w
                  end).
Proof.
  intros Herr. destruct r as [| | |text]; try done. cbn [rx_packet].
  destruct (packet_of text) as [[k q]|] eqn:Hp.
  - apply iteration_line_accepted. by apply packet_of_accepted.
  - apply iteration_line_rejected. by apply packet_of_None.
Qed.

Lemma is_running_stored_all (ps : list (Key * pyval)) (w : World) :
  is_running (stored_all ps w) = is_running w.
Proof.
  revert w. induction ps as [|p ps IH]; intros w; [done|].
  cbn [stored_all foldl]. change (foldl _ ?w0 ps) with (stored_all ps w0).
  by rewrite IH.
Qed.

Lemma loop_no_error (rxs : list rx) (w : World) :
  is_running w = true ->
  Forall (fun r => is_device_error r = false) rxs ->
  Serial.loop rxs w = (Returned tt, stored_all (omap rx_packet rxs) w).
Proof.
  revert w. induction rxs as [|r rxs IH]; intros w Hrun Hok; [done|].
  apply Forall_cons in Hok as [Hr Hok].
  cbn [Serial.loop]. rewrite bind_gets. cbn beta. rewrite Hrun.
  rewrite (bind_returned _ _ _ _ _ (iteration_rx_packet r w Hr)).
  cbn [omap list_omap]. destruct (rx_packet r) as [p|].
  - rewrite IH by done. done.
  - by apply IH.
Qed.

Lemma latest_data_stored_all (ps : list (Key * pyval)) (w : World) :
  latest_data (stored_all ps w)
  = foldl (fun m p => <[p.1 := p.2]> m) (latest_data w) ps.
Proof.
  revert w. induction ps as [|p ps IH]; intros w; [done|].
  cbn [stored_all foldl]. change (foldl _ ?w0 ps) with (stored_all ps w0) at 1.
  by rewrite IH.
Qed.

Lemma packet_count_stored_all (ps : list (Key * pyval)) (w : World) :
  packet_count (stored_all ps w) = (packet_count w + Z.of_nat (length ps))%Z.
Proof.
  revert w. induction ps as [|p ps IH]; intros w.
  - simpl. lia.
  - cbn [stored_all foldl]. change (foldl _ ?w0 ps) with (stored_all ps w0).
    rewrite IH. simpl packet_count. cbn [length]. lia.
Qed.
End ReceiverRuns.

(** X1. While the run flag is set and the device raises no error, the
    receiver's loop over any sequence of turns returns normally and leaves
    exactly the world in which the accepted frames, in their order of
    arrival, have been stored one after the other: the store is the fold
    of their insertions and the packet counter has grown by their number.
    Idle turns, undecodable frames and rejected lines contribute
    nothing. *)
Theorem receiver_stores_accepted_in_order {L : HostLib} (rxs : list rx) (w : World) :
  is_running w = true ->
  Forall (fun r => is_device_error r = false) rxs ->
  let ps := omap rx_packet rxs in
  let w' := exec (Serial.read_serial_thread true rxs) w in
  Serial.read_serial_thread true rxs w = (Returned tt, stored_all ps w) /\
  latest_data w' = foldl (fun m p => <[p.1 := p.2]> m) (latest_data w) ps /\
  packet_count w' = (packet_count w + Z.of_nat (length ps))%Z /\
  is_running w' = true.
Proof.
  intros Hrun Hok ps w'. subst w'. unfold exec, Serial.read_serial_thread.
  rewrite (loop_no_error rxs w Hrun Hok). cbn [fst snd]. fold ps.
  split; [done|]. split; [apply latest_data_stored_all|].
  split; [apply packet_count_stored_all|].
  by rewrite is_running_stored_all.
Qed.

Lemma receiver_stores_accepted_in_order_witness :
  packet_count
    (exec (@Serial.read_serial_thread example_lib true
             [RxIdle; RxLine shoulder_line; RxUndecodable; RxLine "{not json";
              RxLine forearm_line; RxLine identity_line]) sample_world)
  = 3%Z.
Proof.
  edestruct (@receiver_stores_accepted_in_order example_lib
               [RxIdle; RxLine shoulder_line; RxUndecodable; RxLine "{not json";
                RxLine forearm_line; RxLine identity_line] sample_world)
    as (_ & _ & Hcount & _);
    [reflexivity | repeat constructor |].
  rewrite Hcount. reflexivity.
Defined.

(** X2. Last write wins: when two accepted frames carry the same id, the
    store after both is the store after the second alone; the first
    frame's rotation is fully superseded, and reading the id gives the
    second rotation. *)
Theorem receiver_last_write_wins {L : HostLib} (w : World)
    (t1 t2 : string) (k : Key) (q1 q2 : pyval) :
  is_running w = true ->
  accepted t1 k q1 ->
  accepted t2 k q2 ->
  let w' := exec (Serial.read_serial_thread true [RxLine t1; RxLine t2]) w in
  latest_data w' = <[k := q2]> (latest_data w) /\
  latest_data w' = latest_data (exec (Serial.read_serial_thread true [RxLine t2]) w) /\
  latest_data w' !! k = Some q2.
Proof.
  intros Hrun H1 H2 w'. subst w'.
  apply packet_of_accepted in H1, H2.
  unfold exec, Serial.read_serial_thread.
  rewrite !loop_no_error by (done || (repeat constructor)). cbn [snd].
  rewrite !latest_data_stored_all.
  cbn [omap list_omap rx_packet]. rewrite H1, H2.
  cbn [foldl fst snd]. rewrite insert_insert_eq.
  split; [done|]. split; [done|]. apply lookup_insert_eq.
Qed.

Lemma receiver_last_write_wins_witness :
  latest_data
    (exec (@Serial.read_serial_thread example_lib true
             [RxLine shoulder_line; RxLine identity_line]) sample_world)
    !! KNum (zq 1)
  = Some (PList [PInt 1; PInt 0; PInt 0; PInt 0]).
Proof.
  edestruct (@receiver_last_write_wins example_lib sample_world
               shoulder_line identity_line) as (_ & _ & Hread);
    [reflexivity
    | eexists _, _; repeat split; vm_compute; reflexivity
    | eexists _, _; repeat split; vm_compute; reflexivity |].
  exact Hread.
Defined.

Lemma loop_device_error {L : HostLib} (pre post : list rx) (w : World) :
  is_running w = true ->
  Forall (fun r => is_device_error r = false) pre ->
  Serial.loop (pre ++ RxDeviceError :: post) w
  = (Raised, stored_all (omap rx_packet pre) w).
Proof.
  revert w. induction pre as [|r pre IH]; intros w Hrun Hok.
  - cbn [app Serial.loop]. rewrite bind_gets. cbn beta. by rewrite Hrun.
  - apply Forall_cons in Hok as [Hr Hok].
    cbn [app Serial.loop]. rewrite bind_gets. cbn beta. rewrite Hrun.
    rewrite (bind_returned _ _ _ _ _ (iteration_rx_packet r w Hr)).
    cbn [omap list_omap]. destruct (rx_packet r) as [p|].
    + by rewrite IH.
    + by apply IH.
Qed.

(** X3. A device error in the middle of a run ends the receiver: the
    frames accepted before the error stay stored, the run flag is cleared,
    the task returns without raising, and nothing that arrives after the
    error is looked at. *)
Theorem receiver_device_error_ends_task {L : HostLib} (pre post : list rx) (w : World) :
  is_running w = true ->
  Forall (fun r => is_device_error r = false) pre ->
  Serial.read_serial_thread true (pre ++ RxDeviceError :: post) w
  = (Returned tt, set_is_running false (stored_all (omap rx_packet pre) w)) /\
  exec (Serial.read_serial_thread true (pre ++ RxDeviceError :: post)) w
  = exec (Serial.read_serial_thread true (pre ++ [RxDeviceError])) w.
Proof.
  intros Hrun Hok. unfold exec, Serial.read_serial_thread.
  by rewrite !(loop_device_error pre _ w Hrun Hok).
Qed.

Lemma receiver_device_error_ends_task_witness :
  let w' :=
    exec (@Serial.read_serial_thread example_lib true
            [RxLine shoulder_line; RxDeviceError; RxLine forearm_line])
      sample_world in
  is_running w' = false /\
  is_Some (latest_data w' !! KNum (zq 1)) /\
  latest_data w' !! KNum (zq 0) = None.
Proof.
  destruct (@receiver_device_error_ends_task example_lib
              [RxLine shoulder_line] [RxLine forearm_line] sample_world)
    as [Hrun _]; [reflexivity | repeat constructor |].
  unfold exec. cbn [app] in Hrun. rewrite Hrun. cbn [snd].
  split; [reflexivity|]. split; [vm_compute; eauto|reflexivity].
Defined.

(** ** The receiver and the operators together *)

Lemma loop_stopped {L : HostLib} (rxs : list rx) (w : World) :
  is_running w = false -> Serial.loop rxs w = (Returned tt, w).
Proof.
  intros Hrun. destruct rxs as [|r rxs]; [done|].
  cbn [Serial.loop]. rewrite bind_gets. cbn beta. by rewrite Hrun.
Qed.

Lemma receiver_stopped {L : HostLib} (opened : bool) (rxs : list rx) (w : World) :
  is_running w = false ->
  exec (Serial.read_serial_thread opened rxs) w = w.
Proof.
  intros Hrun. unfold exec, Serial.read_serial_thread. destruct opened.
  - by rewrite (loop_stopped rxs w Hrun).
  - destruct w. simpl in *. by subst.
Qed.

Lemma link_cancel_clears_flag (w : World) : is_running (exec Link.cancel w) = false.
Proof.
  unfold exec, Link.cancel, event_timer_remove.
  rewrite bind_modify, bind_gets. cbn beta.
  change (op_timer (set_is_running false w)) with (op_timer w).
  by destruct (op_timer w).
Qed.

Lemma retarget_cancel_clears_flag {L : HostLib} (w : World) :
  is_running (exec Retarget.cancel w) = false.
Proof.
  unfold Retarget.cancel.
  change (exec (modify (set_is_running false) ≫= ?k) w)
    with (exec (k tt) (set_is_running false w)).
  assert (preserves is_running
            (t ← gets op_timer;
             _ ← event_timer_remove t;
             rig ← gets op_armature_name;
             obj ← gets (fun w => objects w !! rig);
             _ ← match obj with
                 | Some _ => for_each Retarget.JOINT_MAP (Retarget.home_joint rig)
                 | None => mret tt
                 end;
             mret CANCELLED)) as H.
  { unfold event_timer_remove, Retarget.home_joint,
      assign_rotation_mode, assign_euler_axis.
    frame; reflexivity. }
  by rewrite H.
Qed.


Section ReceiverNever.
Context {L : HostLib}.

Lemma store_packet_operator_side (text : string) :
  preserves operator_side (Serial.store_packet text).
Proof. unfold Serial.store_packet. frame; reflexivity. Qed.

Lemma loop_operator_side (rxs : list rx) : preserves operator_side (Serial.loop rxs).
Proof.
  induction rxs as [|r rxs IH]; cbn [Serial.loop]; [apply preserves_ret|].
  apply preserves_bind; [apply preserves_gets|intros [|]];
    [|apply preserves_ret].
  apply preserves_bind; [|intros _; apply IH].
  destruct r; unfold Serial.iteration; frame. apply store_packet_operator_side.
Qed.

Lemma iteration_count_grows (r : rx) (w : World) :
  (packet_count w <= packet_count (exec (Serial.iteration r) w))%Z.
Proof.
  destruct r as [| | |text]; try done.
  destruct (accepted_dec text) as [(k & q & Hacc)|Hno].
  - unfold exec. rewrite (iteration_line_accepted text k q w Hacc). simpl. lia.
  - unfold exec. by rewrite (iteration_line_rejected text w Hno).
Qed.

Lemma loop_count_grows (rxs : list rx) :
  forall w, (packet_count w <= packet_count (exec (Serial.loop rxs) w))%Z.
Proof.
  induction rxs as [|r rxs IH]; intros w; [done|].
  cbn [Serial.loop]. rewrite exec_bind_gets.
  destruct (is_running w); [|done].
  rewrite exec_bind.
  pose proof (iteration_count_grows r w) as Hr. unfold exec in Hr.
  destruct (Serial.iteration r w) as [[[]|] w1]; [|done].
  cbn [snd] in Hr. specialize (IH w1). lia.
Qed.
End ReceiverNever.

(** X5. The receiver task, over any input and whether or not the device
    opens, never raises into its caller, never writes the scene, the
    host's write log, the operator instance, the window manager or the
    reports, never removes an entry from the store, and never lowers the
    packet counter. *)
Theorem receiver_only_adds_to_store {L : HostLib} (opened : bool) (rxs : list rx) (w : World) :
  let w' := exec (Serial.read_serial_thread opened rxs) w in
  fst (Serial.read_serial_thread opened rxs w) = Returned tt /\
  operator_side w' = operator_side w /\
  (forall k, is_Some (latest_data w !! k) -> is_Some (latest_data w' !! k)) /\
  (packet_count w <= packet_count w')%Z.
Proof.
  intros w'. subst w'. split; [|split; [|split]].
  - unfold Serial.read_serial_thread. destruct opened; [|done].
    by destruct (Serial.loop rxs w) as [[[]|] w'].
  - unfold exec, Serial.read_serial_thread. destruct opened; [|done].
    pose proof (loop_operator_side rxs w) as H. unfold exec in H.
    by destruct (Serial.loop rxs w) as [[[]|] w'].
  - intros k. apply receiver_store_grows.
  - unfold exec, Serial.read_serial_thread. destruct opened; [|simpl; lia].
    pose proof (loop_count_grows rxs w) as H. unfold exec in H.
    by destruct (Serial.loop rxs w) as [[[]|] w'].
Qed.

(** ** White space around a frame *)

Lemma lstrip_spaces (pre l : list ascii) :
  Forall (fun c => py_isspace c = true) pre -> lstrip (pre ++ l) = lstrip l.
Proof.
  induction 1 as [|c pre Hc _ IH]; [done|]. cbn [app lstrip]. by rewrite Hc.
Qed.

Lemma lstrip_all_spaces (l : list ascii) :
  Forall (fun c => py_isspace c = true) l -> lstrip l = [].
Proof.
  intros H. rewrite <- (app_nil_r l). by rewrite lstrip_spaces.
Qed.

(** Stripping on the left removes a run of white space and nothing
    else. *)
Lemma lstrip_split (l : list ascii) :
  exists pre, Forall (fun c => py_isspace c = true) pre /\
              l = (pre ++ lstrip l)%list /\
              (lstrip l = [] \/ exists c rest, lstrip l = c :: rest /\ py_isspace c = false).
Proof.
  induction l as [|c l IH].
  - exists []. repeat split; auto.
  - cbn [lstrip]. destruct (py_isspace c) eqn:Hc.
    + destruct IH as (pre & Hpre & Heq & Hhead).
      exists (c :: pre). split; [by constructor|]. split; [|done].
      cbn [app]. by rewrite <- Heq.
    + exists []. split; [constructor|]. split; [done|]. right. by exists c, l.
Qed.

Lemma lstrip_app_kept (l post : list ascii) (c : ascii) (rest : list ascii) :
  lstrip l = c :: rest -> lstrip (l ++ post) = (lstrip l ++ post)%list.
Proof.
  induction l as [|c0 l IH]; [done|].
  cbn [app lstrip]. destruct (py_isspace c0); [apply IH|done].
Qed.

Lemma strip_chars_padded (pre post cs : list ascii) :
  Forall (fun c => py_isspace c = true) pre ->
  Forall (fun c => py_isspace c = true) post ->
  rev (lstrip (rev (lstrip (pre ++ cs ++ post))))
  = rev (lstrip (rev (lstrip cs))).
Proof.
  intros Hpre Hpost. rewrite (lstrip_spaces pre) by done.
  destruct (lstrip_split cs) as (sp & Hsp & Hcs & [Hnil|(c & rest & Hhead & Hc)]).
  - rewrite Hnil, app_nil_r in Hcs. subst cs.
    rewrite (lstrip_all_spaces (sp ++ post)) by (by apply Forall_app).
    by rewrite (lstrip_all_spaces sp).
  - rewrite (lstrip_app_kept cs post c rest Hhead).
    rewrite rev_app_distr, lstrip_spaces; [done|].
    by apply Forall_rev.
Qed.

(** X6. White space around a frame does not matter: a decoded text padded
    on both sides with any run of white-space characters (carriage returns
    and line feeds included) is stripped to the same line, so the receiver
    does with it exactly what it does with the bare text. *)
Theorem receiver_ignores_padding {L : HostLib} (pre post : list ascii) (text : string) (w : World) :
  Forall (fun c => py_isspace c = true) pre ->
  Forall (fun c => py_isspace c = true) post ->
  py_strip (padded pre post text) = py_strip text /\
  Serial.iteration (RxLine (padded pre post text)) w
  = Serial.iteration (RxLine text) w.
Proof.
  intros Hpre Hpost.
  assert (py_strip (padded pre post text) = py_strip text) as Hstrip.
  { unfold py_strip, padded. rewrite list_ascii_of_string_of_list_ascii.
    by rewrite strip_chars_padded. }
  split; [exact Hstrip|].
  unfold Serial.iteration, try_pass, Serial.store_packet. cbv zeta.
  by rewrite Hstrip.
Qed.

Lemma receiver_ignores_padding_witness :
  latest_data
    (exec (@Serial.iteration example_lib
             (RxLine (padded [" "%char; ascii_of_nat 9]
                        [ascii_of_nat 13; ascii_of_nat 10] identity_line)))
       sample_world)
  = latest_data (exec (@Serial.iteration example_lib (RxLine identity_line))
                   sample_world).
Proof.
  destruct (@receiver_ignores_padding example_lib [" "%char; ascii_of_nat 9]
              [ascii_of_nat 13; ascii_of_nat 10] identity_line sample_world)
    as [_ Hsame]; [repeat constructor | repeat constructor |].
  unfold exec. by rewrite Hsame.
Defined.

(** ** The tick of blender_robot_link.py on malformed entries *)

Section LinkMalformed.
Context {L : HostLib}.

Lemma as_float_py_neg (d nd : pyval) :
  py_neg d = Some nd -> is_Some (as_float d).
Proof. destruct d; simpl; intros [=]; eauto. Qed.

(** A stored value that is not a rotation fails at the unpacking, at the
    negation or at the construction of the quaternion. *)
Lemma link_sensor_quat_None (raw : pyval) :
  rotation_of raw = None ->
  unpack4 raw = None \/
  exists a b c d,
    unpack4 raw = Some (a, b, c, d) /\
    (py_neg d = None \/
     exists nd, py_neg d = Some nd /\ make_quaternion a c b nd = None).
Proof.
  intros Hrot. destruct raw as [| | | |s|l|kvs]; try (by left).
  - unfold unpack4.
    destruct (list_ascii_of_string s) as [|c1 [|c2 [|c3 [|c4 [|c5 cs]]]]];
      try (by left).
    right. eexists _, _, _, _. split; [reflexivity|]. by left.
  - destruct l as [|a [|b [|c [|d [|e l]]]]]; try (by left).
    right. exists a, b, c, d. split; [done|].
    destruct (py_neg d) as [nd|] eqn:Hn; [|by left].
    right. exists nd. split; [done|].
    destruct (as_float_py_neg d nd Hn) as [fd Hd].
    unfold rotation_of in Hrot. unfold make_quaternion.
    destruct (as_float a) as [fa|]; [|done].
    destruct (as_float c) as [fc|]; [|done].
    destruct (as_float b) as [fb|]; [|done].
    rewrite Hd in Hrot. discriminate.
  - unfold unpack4.
    destruct (dict_keys kvs) as [|k1 [|k2 [|k3 [|k4 [|k5 ks]]]]];
      try (by left).
    right. eexists _, _, _, _. split; [reflexivity|]. by left.
Qed.

Lemma update_sensor_bone_malformed (rig : string) (item : Z * string) (w : World)
    (raw : pyval) (pb : PoseBone) :
  latest_data w !! KNum (zq item.1) = Some raw ->
  bone_at w rig item.2 = Some pb ->
  rotation_of raw = None ->
  Link.update_sensor_bone rig item w = (Raised, w).
Proof.
  intros Hraw Hpb Hrot. unfold Link.update_sensor_bone. cbv zeta.
  rewrite bind_gets. cbn beta. rewrite Hraw.
  rewrite (bind_returned _ _ _ _ _ (pose_bones_get_present _ _ _ _ Hpb)).
  destruct (link_sensor_quat_None raw Hrot)
    as [Hu|(a & b & c & d & Hu & [Hn|(nd & Hn & Hq)])]; rewrite Hu.
  - reflexivity.
  - rewrite bind_or_raise_Some. cbv iota beta. by rewrite Hn.
  - rewrite bind_or_raise_Some. cbv iota beta.
    rewrite Hn, bind_or_raise_Some. by rewrite Hq.
Qed.
End LinkMalformed.

(** X7. The tick of the Link Stage is not atomic: it serves the sensors in
    the order of BONE_MAP and raises at the first stored value that is not
    a rotation.  When sensor 0 holds a rotation and sensor 1 does not, the
    tick raises after bone 0 has been written, and bone 1 keeps its pose;
    when sensor 0 holds no rotation, the tick raises at once and the world
    is as it was, also when sensor 1 holds a perfectly good rotation. *)
Theorem link_tick_stops_at_malformed {L : HostLib} (w : World)
    (raw0 raw1 : pyval) (pb0 pb1 : PoseBone) :
  let rig := op_armature_name w in
  let w' := exec (Link.modal "TIMER") w in
  latest_data w !! KNum (zq 0) = Some raw0 ->
  latest_data w !! KNum (zq 1) = Some raw1 ->
  bone_at w rig "UpperArm.008" = Some pb0 ->
  bone_at w rig "UpperArm.021" = Some pb1 ->
  (forall qw qx qy qz,
     rotation_of raw0 = Some (qw, qx, qy, qz) ->
     rotation_of raw1 = None ->
     fst (Link.modal "TIMER" w) = Raised /\
     bone_at w' rig "UpperArm.008"
     = Some (quat_written (link_rotation 0 qw qx qy qz) pb0) /\
     bone_at w' rig "UpperArm.021" = Some pb1) /\
  (rotation_of raw0 = None -> Link.modal "TIMER" w = (Raised, w)).
Proof.
  intros rig w' H0 H1 Hb0 Hb1. subst rig w'.
  assert (has_pose w (op_armature_name w)) as Hp
    by (apply (bone_at_has_pose _ _ "UpperArm.008"); rewrite Hb0; eauto).
  destruct (has_pose_object _ _ Hp) as [o Ho].
  assert (Link.modal "TIMER" w
          = ((_ ← for_each Link.BONE_MAP
                    (Link.update_sensor_bone (op_armature_name w));
              mret PASS_THROUGH) w)) as Hmodal.
  { unfold Link.modal.
    rewrite decide_False by done. rewrite decide_True by done.
    rewrite !bind_gets. cbn beta. by rewrite Ho. }
  split.
  - intros qw qx qy qz Hr0 Hr1.
    set (w0 := sensor_step (op_armature_name w) (0%Z, "UpperArm.008") w).
    assert (Link.update_sensor_bone (op_armature_name w) (0%Z, "UpperArm.008") w
            = (Returned tt, w0)) as Hs0.
    { apply update_sensor_bone_run; [done|].
      intros raw. cbn [fst]. rewrite H0. intros [= <-]. rewrite Hr0. eauto. }
    assert (bone_at w0 (op_armature_name w) "UpperArm.021" = Some pb1) as Hb1'.
    { subst w0. by rewrite bone_at_sensor_step_other. }
    assert (Link.update_sensor_bone (op_armature_name w) (1%Z, "UpperArm.021") w0
            = (Raised, w0)) as Hs1.
    { apply (update_sensor_bone_malformed _ (1%Z, "UpperArm.021") w0 raw1 pb1);
        [|done|done].
      subst w0. by rewrite latest_data_sensor_step. }
    assert (Link.modal "TIMER" w = (Raised, w0)) as Hrun.
    { rewrite Hmodal. unfold Link.BONE_MAP. cbn [for_each].
      apply bind_raised.
      rewrite (bind_returned _ _ _ _ _ Hs0). by apply bind_raised. }
    unfold exec. rewrite Hrun. cbn [fst snd].
    split; [done|]. split; [|done].
    by apply (bone_at_sensor_step_own _ (0%Z, "UpperArm.008") w raw0).
  - intros Hr0. rewrite Hmodal. unfold Link.BONE_MAP. cbn [for_each].
    apply bind_raised. apply bind_raised.
    by apply (update_sensor_bone_malformed _ (0%Z, "UpperArm.008") w raw0 pb0).
Qed.

Lemma link_tick_stops_at_malformed_witness :
  fst (@Link.modal example_lib "TIMER" half_bad_world) = Raised /\
  rotation_mode <$>
    bone_at (exec (@Link.modal example_lib "TIMER") half_bad_world)
      "Armature" "UpperArm.008"
  = Some "QUATERNION" /\
  bone_at (exec (@Link.modal example_lib "TIMER") half_bad_world)
    "Armature" "UpperArm.021"
  = Some sample_bone.
Proof.
  edestruct (@link_tick_stops_at_malformed example_lib half_bad_world)
    as [Hpartial _];
    [vm_compute; reflexivity | vm_compute; reflexivity
    | reflexivity | reflexivity |].
  edestruct Hpartial as (Hraise & Hb0 & Hb1);
    [vm_compute; reflexivity | reflexivity |].
  split; [exact Hraise|]. split; [|exact Hb1].
  cbn [op_armature_name half_bad_world] in Hb0.
  change (op_armature_name half_bad_world) with "Armature" in Hb0.
  by rewrite Hb0.
Defined.

(** ** What a tick leaves alone *)

Section TickFrames.
Context {L : HostLib}.

Lemma fmap_euler_update_bone (rig bone rig' bone' : string) (f : PoseBone -> PoseBone)
    (w : World) :
  (forall pb, rotation_euler (f pb) = rotation_euler pb) ->
  rotation_euler <$> bone_at (update_bone rig bone f w) rig' bone'
  = rotation_euler <$> bone_at w rig' bone'.
Proof.
  intros Hf. rewrite bone_at_update_bone. destruct (decide _); [|done].
  destruct (bone_at w rig' bone'); [|done]. simpl. by rewrite Hf.
Qed.

Lemma fmap_quaternion_update_bone (rig bone rig' bone' : string)
    (f : PoseBone -> PoseBone) (w : World) :
  (forall pb, rotation_quaternion (f pb) = rotation_quaternion pb) ->
  rotation_quaternion <$> bone_at (update_bone rig bone f w) rig' bone'
  = rotation_quaternion <$> bone_at w rig' bone'.
Proof.
  intros Hf. rewrite bone_at_update_bone. destruct (decide _); [|done].
  destruct (bone_at w rig' bone'); [|done]. simpl. by rewrite Hf.
Qed.

(** One turn of the sensor loop never writes an Euler rotation. *)
Lemma update_sensor_bone_euler (rig : string) (item : Z * string) (rig' bone' : string) :
  preserves (fun w => rotation_euler <$> bone_at w rig' bone')
    (Link.update_sensor_bone rig item).
Proof.
  unfold Link.update_sensor_bone, assign_rotation_mode, assign_rotation_quaternion.
  frame; try reflexivity;
    change (bone_at (add_pose_log ?e ?w0)) with (bone_at w0);
    by apply fmap_euler_update_bone.
Qed.

(** One turn of the sensor loop writes its own bone of its own rig
    only. *)
Lemma update_sensor_bone_elsewhere (rig : string) (item : Z * string) (rig' bone' : string) :
  rig' <> rig \/ bone' <> item.2 ->
  preserves (fun w => bone_at w rig' bone') (Link.update_sensor_bone rig item).
Proof.
  intros Hne.
  unfold Link.update_sensor_bone, assign_rotation_mode, assign_rotation_quaternion.
  frame; try reflexivity;
    change (bone_at (add_pose_log ?e ?w0)) with (bone_at w0);
    rewrite bone_at_update_bone; rewrite decide_False; try done;
    intros [? ?]; destruct Hne; congruence.
Qed.

Lemma link_tick_loop (w : World) (o : Object) :
  objects w !! op_armature_name w = Some o ->
  exec (Link.modal "TIMER") w
  = exec (for_each Link.BONE_MAP (Link.update_sensor_bone (op_armature_name w))) w.
Proof.
  intros Ho. unfold Link.modal.
  rewrite decide_False by done. rewrite decide_True by done.
  rewrite !exec_bind_gets, Ho. apply exec_bind_ret.
Qed.

Lemma link_tick_no_object (w : World) :
  objects w !! op_armature_name w = None ->
  Link.modal "TIMER" w = Link.cancel w.
Proof.
  intros Ho. unfold Link.modal.
  rewrite decide_False by done. rewrite decide_True by done.
  rewrite !bind_gets. cbn beta. by rewrite Ho.
Qed.

Lemma joint_step_quaternion (rig : string) (angle : string -> Qc)
    (item : string * Retarget.JointConfig) (rig' bone' : string) (w : World) :
  rotation_quaternion <$> bone_at (joint_step rig angle item w) rig' bone'
  = rotation_quaternion <$> bone_at w rig' bone'.
Proof.
  rewrite bone_at_joint_step. destruct (decide _); [|done].
  by destruct (bone_at w rig' bone').
Qed.

Lemma foldl_joints_quaternion (rig : string) (angle : string -> Qc)
    (js : list (string * Retarget.JointConfig)) (rig' bone' : string) (w : World) :
  rotation_quaternion
    <$> bone_at (foldl (fun w j => joint_step rig angle j w) w js) rig' bone'
  = rotation_quaternion <$> bone_at w rig' bone'.
Proof.
  revert w. induction js as [|j js IH]; intros w; [done|].
  cbn [foldl]. rewrite IH. apply joint_step_quaternion.
Qed.
End TickFrames.

(** X8. A tick of the Link Stage, in any world and however it ends
    (returned or raised), changes no bone other than the two bones of
    BONE_MAP on the operator's own rig, changes the Euler rotation of no
    bone at all, and leaves the store as it was. *)
Theorem link_tick_leaves_the_rest {L : HostLib} (w : World) (rig' bone' : string) :
  let w' := exec (Link.modal "TIMER") w in
  (rig' <> op_armature_name w \/ bone' ∉ map snd Link.BONE_MAP ->
   bone_at w' rig' bone' = bone_at w rig' bone') /\
  rotation_euler <$> bone_at w' rig' bone' = rotation_euler <$> bone_at w rig' bone' /\
  latest_data w' = latest_data w.
Proof.
  intros w'. subst w'.
  split; [|split; [|apply link_modal_store]].
  - intros Hne.
    destruct (objects w !! op_armature_name w) as [o|] eqn:Ho.
    + rewrite (link_tick_loop w o Ho).
      apply (preserves_for_each (fun w => bone_at w rig' bone')).
      intros item Hitem. apply update_sensor_bone_elsewhere.
      destruct Hne as [Hne|Hne]; [by left|right].
      intros ->. apply Hne. apply list_elem_of_fmap. by exists item.
    + unfold exec. rewrite (link_tick_no_object w Ho).
      apply bone_at_objects. by destruct (link_cancel_frame w).
  - destruct (objects w !! op_armature_name w) as [o|] eqn:Ho.
    + rewrite (link_tick_loop w o Ho).
      apply (preserves_for_each (fun w => rotation_euler <$> bone_at w rig' bone')).
      intros item _. apply update_sensor_bone_euler.
    + unfold exec. rewrite (link_tick_no_object w Ho).
      f_equal. apply bone_at_objects. by destruct (link_cancel_frame w).
Qed.

(** X9. A tick of the Retarget Stage, in any world and however it ends,
    changes no bone other than the six bones of JOINT_MAP on the
    operator's own rig, changes the quaternion of no bone at all, and
    leaves the store, the run flag, the operator instance, the timers and
    the reports as they were. *)
Theorem retarget_tick_leaves_the_rest {L : HostLib} (w : World) (rig' bone' : string) :
  let w' := exec (Retarget.modal "TIMER") w in
  (rig' <> op_armature_name w \/
   bone' ∉ map (fun j : string * Retarget.JointConfig => Retarget.bone j.2)
             Retarget.JOINT_MAP ->
   bone_at w' rig' bone' = bone_at w rig' bone') /\
  rotation_quaternion <$> bone_at w' rig' bone'
  = rotation_quaternion <$> bone_at w rig' bone' /\
  latest_data w' = latest_data w /\ is_running w' = is_running w /\
  packet_count w' = packet_count w /\ op_timer w' = op_timer w /\
  op_armature_name w' = op_armature_name w /\ wm_timers w' = wm_timers w /\
  reports w' = reports w.
Proof.
  intros w'. subst w'.
  destruct (retarget_tick_cases w)
    as [Hsame|(raw1 & raw2 & q1 & q2 & H1 & H2 & Hq1 & Hq2 & Hp)].
  - rewrite Hsame. repeat split; done.
  - unfold exec.
    rewrite (retarget_tick_run w raw1 raw2 q1 q2 H1 H2 Hq1 Hq2 Hp). cbn [snd].
    split; [|split].
    + intros Hne. by apply bone_at_foldl_other.
    + apply foldl_joints_quaternion.
    + apply (foldl_joints_frame (op_armature_name w)
               (angle_of (Retarget.target_angles q1 q2)) Retarget.JOINT_MAP w).
Qed.

(** ** Ticks without new data *)

Section Idempotence.
Context {L : HostLib}.

Lemma euler_with_twice (axis : string) (v : Qc) (e : Euler) :
  euler_with axis v (euler_with axis v e) = euler_with axis v e.
Proof. unfold euler_with. by repeat destruct (decide _). Qed.

Lemma axis_written_twice (axis : string) (v : Qc) (o : option PoseBone) :
  axis_written axis v <$> (axis_written axis v <$> o) = axis_written axis v <$> o.
Proof.
  destruct o as [pb|]; [|done]. simpl. unfold axis_written. simpl.
  by rewrite euler_with_twice.
Qed.

Lemma has_pose_foldl_joints (rig : string) (angle : string -> Qc)
    (js : list (string * Retarget.JointConfig)) (rig' : string) (w : World) :
  has_pose w rig' ->
  has_pose (foldl (fun w j => joint_step rig angle j w) w js) rig'.
Proof.
  revert w. induction js as [|j js IH]; intros w Hp; [done|].
  cbn [foldl]. apply IH. by apply has_pose_joint_step.
Qed.

Lemma bone_at_sensor_step (rig : string) (item : Z * string)
    (rig' bone' : string) (w : World) :
  bone_at (sensor_step rig item w) rig' bone'
  = if decide (rig = rig' /\ item.2 = bone')
    then match sensor_target item.1 w with
         | Some q => quat_written q <$> bone_at w rig' bone'
         | None => bone_at w rig' bone'
         end
    else bone_at w rig' bone'.
Proof.
  unfold sensor_step, sensor_target.
  destruct (latest_data w !! KNum (zq item.1)) as [raw|]; simpl;
    [|by destruct (decide _)].
  destruct (bone_at w rig item.2) as [pb|] eqn:Hpb.
  - destruct (rotation_of raw) as [[[[qw qx] qy] qz]|]; simpl;
      [|by destruct (decide _)].
    apply bone_at_sensor_written.
  - destruct (decide _) as [[<- <-]|]; [|done].
    rewrite Hpb. by destruct (rotation_of raw) as [[[[qw qx] qy] qz]|].
Qed.

Lemma sensor_target_sensor_step (rig : string) (item : Z * string) (sid : Z) (w : World) :
  sensor_target sid (sensor_step rig item w) = sensor_target sid w.
Proof. unfold sensor_target. by rewrite latest_data_sensor_step. Qed.

Lemma link_store_ok_sensor_step (rig : string) (item : Z * string) (w : World) :
  link_store_ok w -> link_store_ok (sensor_step rig item w).
Proof. unfold link_store_ok. by rewrite latest_data_sensor_step. Qed.

Lemma op_armature_name_sensor_step (rig : string) (item : Z * string) (w : World) :
  op_armature_name (sensor_step rig item w) = op_armature_name w.
Proof.
  unfold sensor_step.
  destruct (latest_data w !! KNum (zq item.1)); [|done].
  destruct (bone_at w rig item.2); [|done].
  by destruct (rotation_of p) as [[[[? ?] ?] ?]|].
Qed.
End Idempotence.

(** X10. A tick repeated without new data changes no pose: after one tick
    of the Retarget Stage, in any world, a second tick leaves every bone
    of every object as the first tick left it; the same holds for the
    Link Stage on a resolved rig whose stored values are rotations. *)
Theorem tick_twice_is_tick_once {L : HostLib} (w : World) (rig' bone' : string) :
  bone_at (exec (Retarget.modal "TIMER") (exec (Retarget.modal "TIMER") w)) rig' bone'
  = bone_at (exec (Retarget.modal "TIMER") w) rig' bone' /\
  (link_store_ok w -> has_pose w (op_armature_name w) ->
   bone_at (exec (Link.modal "TIMER") (exec (Link.modal "TIMER") w)) rig' bone'
   = bone_at (exec (Link.modal "TIMER") w) rig' bone').
Proof.
  split.
  - destruct (retarget_tick_cases w)
      as [Hsame|(raw1 & raw2 & q1 & q2 & H1 & H2 & Hq1 & Hq2 & Hp)].
    + by rewrite !Hsame.
    + unfold exec at 2 3.
      rewrite (retarget_tick_run w raw1 raw2 q1 q2 H1 H2 Hq1 Hq2 Hp). cbn [snd].
      set (rig := op_armature_name w).
      set (angle := angle_of (Retarget.target_angles q1 q2)).
      set (w1 := foldl _ w Retarget.JOINT_MAP).
      destruct (foldl_joints_frame rig angle Retarget.JOINT_MAP w)
        as (Hstore & _ & _ & _ & Hname & _).
      fold w1 in Hstore, Hname.
      assert (has_pose w1 rig) as Hp1 by (by apply has_pose_foldl_joints).
      unfold exec.
      rewrite (retarget_tick_run w1 raw1 raw2 q1 q2);
        [|by rewrite Hstore|by rewrite Hstore|done|done|by rewrite Hname].
      cbn [snd]. rewrite Hname. fold rig angle.
      destruct (decide (rig' = rig)) as [->|Hrig];
        [|by rewrite bone_at_foldl_other by (by left)].
      destruct (decide (bone' ∈ map (fun j : string * Retarget.JointConfig =>
                                       Retarget.bone j.2) Retarget.JOINT_MAP))
        as [Hin|Hout]; [|by rewrite bone_at_foldl_other by (by right)].
      apply list_elem_of_fmap in Hin as (j & -> & Hj).
      rewrite (bone_at_foldl_joint rig angle _ j w1 JOINT_MAP_bones_distinct Hj).
      subst w1.
      rewrite (bone_at_foldl_joint rig angle _ j w JOINT_MAP_bones_distinct Hj).
      apply axis_written_twice.
  - intros Hok Hp. unfold exec.
    rewrite (link_tick_run w Hp Hok). cbn [snd].
    set (rig := op_armature_name w).
    set (i0 := (0%Z, "UpperArm.008")). set (i1 := (1%Z, "UpperArm.021")).
    set (w1 := sensor_step rig i1 (sensor_step rig i0 w)).
    assert (op_armature_name w1 = rig) as Hname
      by (subst w1; by rewrite !op_armature_name_sensor_step).
    rewrite (link_tick_run w1).
    2:{ rewrite Hname. subst w1. by rewrite !has_pose_sensor_step. }
    2:{ subst w1. by do 2 apply link_store_ok_sensor_step. }
    cbn [snd]. rewrite Hname. fold i0 i1. subst w1.
    rewrite !bone_at_sensor_step, !sensor_target_sensor_step.
    destruct (decide (rig = rig' /\ i1.2 = bone'));
      destruct (decide (rig = rig' /\ i0.2 = bone'));
      destruct (sensor_target i1.1 w) as [qa|];
      destruct (sensor_target i0.1 w) as [qb|];
      by destruct (bone_at w rig' bone').
Qed.

Lemma tick_twice_is_tick_once_witness :
  bone_at (exec (@Link.modal example_lib "TIMER")
             (exec (@Link.modal example_lib "TIMER") link_world))
    "Armature" "UpperArm.021"
  = bone_at (exec (@Link.modal example_lib "TIMER") link_world)
      "Armature" "UpperArm.021".
Proof.
  apply (@tick_twice_is_tick_once example_lib link_world).
  - unfold link_store_ok. repeat constructor; intros raw H; vm_compute in H;
      first [discriminate H | injection H as <-; vm_compute; eauto].
  - vm_compute. eauto.
Defined.

(** ** A rig that goes away *)

(** X11. When the object the operator was started on is no longer in the
    scene, the two scripts part ways on the next tick: the Link Stage stops
    itself (it runs its own [cancel]: flag cleared, timer removed, result
    CANCELLED), while the Retarget Stage returns PASS_THROUGH and leaves
    the world, its run flag and its timer included, exactly as it was. *)
Theorem tick_without_rig {L : HostLib} (w : World) (h : nat) :
  objects w !! op_armature_name w = None ->
  op_timer w = Some h ->
  Link.modal "TIMER" w = (Returned CANCELLED, stop_world h w) /\
  Retarget.modal "TIMER" w = (Returned PASS_THROUGH, w).
Proof.
  intros Ho Ht. split.
  - rewrite (link_tick_no_object w Ho).
    unfold Link.cancel, event_timer_remove.
    rewrite bind_modify, bind_gets. cbn beta.
    change (op_timer (set_is_running false w)) with (op_timer w).
    by rewrite Ht.
  - unfold Retarget.modal.
    rewrite decide_False by done. rewrite decide_True by done.
    rewrite !bind_gets. cbn beta. by rewrite Ho.
Qed.

Lemma tick_without_rig_witness :
  is_running (exec (@Link.modal example_lib "TIMER") orphan_world) = false /\
  is_running (exec (@Retarget.modal example_lib "TIMER") orphan_world) = true.
Proof.
  destruct (@tick_without_rig example_lib orphan_world 0%nat) as [Hl Hr];
    [reflexivity | reflexivity |].
  unfold exec. by rewrite Hl, Hr.
Defined.

(** ** Starting *)

Lemma link_start_run (name : string) (w : World) :
  Link.start name w
  = (Returned RUNNING_MODAL,
     add_report "INFO" "Robot Link Started on COM3" (start_world name w)).
Proof. reflexivity. Qed.

Lemma retarget_start_run (name : string) (w : World) :
  Retarget.start name w = (Returned RUNNING_MODAL, start_world name w).
Proof. reflexivity. Qed.

Lemma execute_on_active (w : World) (o : Object) :
  is_running w = false ->
  active_object w = Some o -> obj_type o = "ARMATURE" ->
  Link.execute w
  = (Returned RUNNING_MODAL,
     add_report "INFO" "Robot Link Started on COM3" (start_world (obj_name o) w)) /\
  Retarget.execute w = (Returned RUNNING_MODAL, start_world (obj_name o) w).
Proof.
  intros Hidle Ho Htype. unfold Link.execute, Retarget.execute.
  rewrite !bind_gets. cbn beta. rewrite Hidle. rewrite !bind_gets. cbn beta.
  rewrite Ho. by rewrite !decide_True by done.
Qed.

Lemma execute_fallback (w : World) :
  is_running w = false ->
  (forall o, active_object w = Some o -> obj_type o <> "ARMATURE") ->
  Link.execute w = Link.start_fallback w /\
  Retarget.execute w = Retarget.start_fallback w.
Proof.
  intros Hidle Hactive. unfold Link.execute, Retarget.execute.
  rewrite !bind_gets. cbn beta. rewrite Hidle. rewrite !bind_gets. cbn beta.
  destruct (active_object w) as [o|] eqn:Ho; [|done].
  by rewrite !decide_False by (by apply Hactive).
Qed.

Lemma execute_on_fallback (w : World) (fb : Object) :
  is_running w = false ->
  (forall o, active_object w = Some o -> obj_type o <> "ARMATURE") ->
  objects w !! "Armature" = Some fb ->
  Link.execute w
  = (Returned RUNNING_MODAL,
     add_report "INFO" "Robot Link Started on COM3" (start_world "Armature" w)) /\
  Retarget.execute w = (Returned RUNNING_MODAL, start_world "Armature" w).
Proof.
  intros Hidle Hactive Hfb.
  destruct (execute_fallback w Hidle Hactive) as [-> ->].
  unfold Link.start_fallback, Retarget.start_fallback.
  rewrite !bind_gets. cbn beta. by rewrite Hfb.
Qed.

Lemma execute_no_rig (w : World) :
  is_running w = false ->
  (forall o, active_object w = Some o -> obj_type o <> "ARMATURE") ->
  objects w !! "Armature" = None ->
  Link.execute w
  = (Returned CANCELLED,
     add_report "ERROR" "Please SELECT your Robot Armature first!" w) /\
  Retarget.execute w
  = (Returned CANCELLED, add_report "ERROR" "Select Armature first!" w).
Proof.
  intros Hidle Hactive Hfb.
  destruct (execute_fallback w Hidle Hactive) as [-> ->].
  unfold Link.start_fallback, Retarget.start_fallback.
  rewrite !bind_gets. cbn beta. by rewrite Hfb.
Qed.

Lemma execute_cases (w : World) :
  is_running w = false ->
  (exists name,
     Link.execute w
     = (Returned RUNNING_MODAL,
        add_report "INFO" "Robot Link Started on COM3" (start_world name w)) /\
     Retarget.execute w = (Returned RUNNING_MODAL, start_world name w)) \/
  (Link.execute w
   = (Returned CANCELLED,
      add_report "ERROR" "Please SELECT your Robot Armature first!" w) /\
   Retarget.execute w
   = (Returned CANCELLED, add_report "ERROR" "Select Armature first!" w)).
Proof.
  intros Hidle.
  destruct (active_object w) as [o|] eqn:Ho.
  - destruct (decide (obj_type o = "ARMATURE")) as [Ht|Ht].
    + left. exists (obj_name o). by apply execute_on_active.
    + assert (forall o', Some o = Some o' -> obj_type o' <> "ARMATURE") as Hna
        by (by intros o' [= <-]).
      destruct (objects w !! "Armature") as [fb|] eqn:Hfb.
      * left. exists "Armature". apply (execute_on_fallback w fb Hidle); [|done].
        intros o' Ho'. rewrite Ho in Ho'. by apply Hna.
      * right. apply (execute_no_rig w Hidle); [|done].
        intros o' Ho'. rewrite Ho in Ho'. by apply Hna.
  - assert (forall o', None = Some o' -> obj_type o' <> "ARMATURE") as Hna by done.
    destruct (objects w !! "Armature") as [fb|] eqn:Hfb.
    + left. exists "Armature". apply (execute_on_fallback w fb Hidle); [|done].
      intros o' Ho'. rewrite Ho in Ho'. by apply Hna.
    + right. apply (execute_no_rig w Hidle); [|done].
      intros o' Ho'. rewrite Ho in Ho'. by apply Hna.
Qed.

(** X12. From the idle state, the start of either script on an active
    object of type ARMATURE takes that object's name, also when another
    object is named "Armature"; without such an active object it takes any
    object named "Armature", whatever its type.  In both cases it returns
    RUNNING_MODAL and leaves the stated world: flag set, one more receiver
    task, one new 16 ms timer kept in the operator, one more modal handler
    (and, for the Link Stage, an INFO report); the scene and the store,
    entries of an earlier session included, are untouched. *)
Theorem start_takes_the_rig (w : World) :
  is_running w = false ->
  (forall o,
     active_object w = Some o -> obj_type o = "ARMATURE" ->
     Link.execute w
     = (Returned RUNNING_MODAL,
        add_report "INFO" "Robot Link Started on COM3" (start_world (obj_name o) w)) /\
     Retarget.execute w = (Returned RUNNING_MODAL, start_world (obj_name o) w)) /\
  (forall fb,
     (forall o, active_object w = Some o -> obj_type o <> "ARMATURE") ->
     objects w !! "Armature" = Some fb ->
     Link.execute w
     = (Returned RUNNING_MODAL,
        add_report "INFO" "Robot Link Started on COM3" (start_world "Armature" w)) /\
     Retarget.execute w = (Returned RUNNING_MODAL, start_world "Armature" w)) /\
  (forall name, objects (start_world name w) = objects w /\
                latest_data (start_world name w) = latest_data w /\
                pose_log (start_world name w) = pose_log w).
Proof.
  intros Hidle. split; [|split; [|done]].
  - intros o Ho Htype. by apply execute_on_active.
  - intros fb Hactive Hfb. by apply (execute_on_fallback w fb).
Qed.

Lemma start_takes_the_rig_witness :
  op_armature_name (exec Retarget.execute mesh_world) = "Armature" /\
  is_running (exec Link.execute mesh_world) = true.
Proof.
  destruct (start_takes_the_rig mesh_world) as (_ & Hfb & _); [reflexivity|].
  destruct (Hfb (mkObject "Armature" "MESH" None)) as [Hl Hr];
    [intros o [=] | reflexivity |].
  unfold exec. by rewrite Hl, Hr.
Defined.


(** X13. The start command is idempotent: while the run flag is set,
    [execute] of either script returns RUNNING_MODAL and changes nothing,
    so a start that succeeded and is repeated launches no second receiver
    task and registers no second timer or handler. *)
Theorem start_twice_is_start_once (w : World) :
  (is_running w = true ->
   Link.execute w = (Returned RUNNING_MODAL, w) /\
   Retarget.execute w = (Returned RUNNING_MODAL, w)) /\
  (fst (Link.execute w) = Returned RUNNING_MODAL ->
   Link.execute (exec Link.execute w)
   = (Returned RUNNING_MODAL, exec Link.execute w)) /\
  (fst (Retarget.execute w) = Returned RUNNING_MODAL ->
   Retarget.execute (exec Retarget.execute w)
   = (Returned RUNNING_MODAL, exec Retarget.execute w)).
Proof.
  assert (forall w0, is_running w0 = true ->
            Link.execute w0 = (Returned RUNNING_MODAL, w0) /\
            Retarget.execute w0 = (Returned RUNNING_MODAL, w0)) as Hrunning.
  { intros w0 Hrun. unfold Link.execute, Retarget.execute.
    rewrite !bind_gets. cbn beta. by rewrite Hrun. }
  split; [apply Hrunning|].
  destruct (is_running w) eqn:Hrun.
  - destruct (Hrunning w Hrun) as [Hl Hr]. unfold exec. rewrite Hl, Hr.
    cbn [snd]. by rewrite Hl, Hr.
  - destruct (execute_cases w Hrun) as [(name & Hl & Hr)|[Hl Hr]];
      unfold exec; rewrite Hl, Hr; cbn [fst snd].
    + split; intros _; by apply Hrunning.
    + split; intros [=].
Qed.

(** ** Starting and stopping *)

Section StartStop.
Context {L : HostLib}.

Lemma link_cancel_run (w : World) (h : nat) :
  op_timer w = Some h -> Link.cancel w = (Returned CANCELLED, stop_world h w).
Proof.
  intros Ht. unfold Link.cancel, event_timer_remove.
  rewrite bind_modify, bind_gets. cbn beta.
  change (op_timer (set_is_running false w)) with (op_timer w). by rewrite Ht.
Qed.

Lemma retarget_cancel_timers (w : World) (h : nat) :
  op_timer w = Some h ->
  wm_timers (exec Retarget.cancel w) = delete h (wm_timers w).
Proof.
  intros Ht. unfold Retarget.cancel, event_timer_remove.
  change (exec (modify (set_is_running false) ≫= ?k) w)
    with (exec (k tt) (set_is_running false w)).
  cbn beta. rewrite exec_bind_gets.
  change (op_timer (set_is_running false w)) with (op_timer w). rewrite Ht.
  rewrite exec_bind, bind_or_raise_Some. unfold modify at 1. cbv iota beta.
  change (set_wm_timers _ _ _) with (stop_world h w).
  assert (preserves wm_timers
            (rig ← gets op_armature_name;
             obj ← gets (fun w => objects w !! rig);
             _ ← match obj with
                 | Some _ => for_each Retarget.JOINT_MAP (Retarget.home_joint rig)
                 | None => mret tt
                 end;
             mret CANCELLED)) as H.
  { unfold Retarget.home_joint, assign_rotation_mode, assign_euler_axis.
    frame; reflexivity. }
  by rewrite H.
Qed.
End StartStop.

(** X14. Start followed by stop gives the timers back: from the idle
    state with a fresh timer handle, after a successful [execute] and then
    [cancel] of either script, the window manager holds exactly the timers
    it held before the start, the run flag is cleared again, and the store
    is as it was; for the Link Stage the scene and the host's write log are
    untouched as well. *)
Theorem start_then_stop_restores_timers {L : HostLib} (w : World) :
  is_running w = false ->
  wm_timers w !! wm_next_timer w = None ->
  fst (Link.execute w) = Returned RUNNING_MODAL ->
  let wl := exec Link.cancel (exec Link.execute w) in
  let wr := exec Retarget.cancel (exec Retarget.execute w) in
  (fst (Link.cancel (exec Link.execute w)) = Returned CANCELLED /\
   is_running wl = false /\ wm_timers wl = wm_timers w /\
   latest_data wl = latest_data w /\
   objects wl = objects w /\ pose_log wl = pose_log w) /\
  (is_running wr = false /\ wm_timers wr = wm_timers w /\
   latest_data wr = latest_data w).
Proof.
  intros Hidle Hfresh Hok wl wr. subst wl wr.
  destruct (execute_cases w Hidle) as [(name & Hl & Hr)|[Hl Hr]];
    [|rewrite Hl in Hok; discriminate].
  assert (exec Link.execute w
          = add_report "INFO" "Robot Link Started on COM3" (start_world name w))
    as -> by (unfold exec; by rewrite Hl).
  assert (exec Retarget.execute w = start_world name w)
    as -> by (unfold exec; by rewrite Hr).
  split.
  - rewrite (link_cancel_run _ (wm_next_timer w)) by reflexivity.
    unfold exec. rewrite (link_cancel_run _ (wm_next_timer w)) by reflexivity.
    cbn [fst snd]. repeat split; try reflexivity.
    simpl. rewrite delete_insert_eq. by apply delete_id.
  - split; [apply retarget_cancel_clears_flag|]. split.
    + rewrite (retarget_cancel_timers _ (wm_next_timer w)) by reflexivity.
      simpl. rewrite delete_insert_eq. by apply delete_id.
    + by rewrite retarget_cancel_store.
Qed.

Lemma start_then_stop_restores_timers_witness :
  wm_timers (exec Link.cancel (exec Link.execute mesh_world)) = ∅ /\
  wm_timers (exec (@Retarget.cancel example_lib) (exec Retarget.execute mesh_world)) = ∅.
Proof.
  destruct (@start_then_stop_restores_timers example_lib mesh_world)
    as [(_ & _ & Hl & _) (_ & Hr & _)]; [reflexivity | reflexivity | reflexivity |].
  split; [exact Hl|exact Hr].
Defined.

(** ** The store over a run *)

Lemma run_operator_store {L : HostLib} (step : SysOp -> World -> World) (ops : list SysOp) :
  (forall op w, is_operator_op op = true -> latest_data (step op w) = latest_data w) ->
  Forall (fun op => is_operator_op op = true) ops ->
  forall w, latest_data (run step ops w) = latest_data w.
Proof.
  intros Hstep. induction 1 as [|op ops Hop _ IH]; intros w; [done|].
  cbn [run foldl]. change (foldl _ ?w0 ops) with (run step ops w0).
  rewrite IH. by apply Hstep.
Qed.

(** X15. The store is never cleared: over any run of either script no
    entry ever disappears, and a run made of operator calls only (starts,
    events, stops, in any number and order) leaves the store identical.
    In particular the entries of a finished session are still there after
    a stop and a new start. *)
Theorem store_survives_every_run {L : HostLib} (ops : list SysOp) (w : World) :
  (forall k,
     is_Some (latest_data w !! k) ->
     is_Some (latest_data (run link_step ops w) !! k) /\
     is_Some (latest_data (run retarget_step ops w) !! k)) /\
  (Forall (fun op => is_operator_op op = true) ops ->
   latest_data (run link_step ops w) = latest_data w /\
   latest_data (run retarget_step ops w) = latest_data w) /\
  latest_data (run link_step [OpCancel; OpExecute] w) = latest_data w /\
  latest_data (run retarget_step [OpCancel; OpExecute] w) = latest_data w.
Proof.
  assert (forall ops', Forall (fun op => is_operator_op op = true) ops' ->
            latest_data (run link_step ops' w) = latest_data w /\
            latest_data (run retarget_step ops' w) = latest_data w) as Hops.
  { intros ops' Hops. split.
    - apply (run_operator_store link_step ops'); [|done].
      intros [|ev| |opened rxs] w0 Hop; cbn [link_step]; try discriminate.
      + apply link_execute_store.
      + apply link_modal_store.
      + apply link_cancel_store.
    - apply (run_operator_store retarget_step ops'); [|done].
      intros [|ev| |opened rxs] w0 Hop; cbn [retarget_step]; try discriminate.
      + apply retarget_execute_store.
      + apply retarget_modal_store.
      + apply retarget_cancel_store. }
  split; [|split; [apply Hops|apply Hops; repeat constructor]].
  intros k Hk. split.
  - apply run_store_grows; [|done]. intros op w0. apply link_step_store_grows.
  - apply run_store_grows; [|done]. intros op w0. apply retarget_step_store_grows.
Qed.

(** ** An object without a pose *)

Section Poseless.
Context {L : HostLib}.

Lemma retarget_tick_no_pose (w : World) (o : Object) (raw1 raw2 : pyval) :
  objects w !! op_armature_name w = Some o ->
  pose o = None ->
  latest_data w !! KNum (zq Retarget.IMU_SHOULDER_ID) = Some raw1 ->
  latest_data w !! KNum (zq Retarget.IMU_FOREARM_ID) = Some raw2 ->
  Retarget.modal "TIMER" w = (Raised, w).
Proof.
  intros Ho Hpose H1 H2. unfold Retarget.modal.
  rewrite decide_False by done. rewrite decide_True by done.
  rewrite !bind_gets. cbn beta. rewrite Ho, H1, H2.
  destruct (Retarget.quaternion_of_raw raw1) as [q1|]; [|done].
  rewrite bind_or_raise_Some.
  destruct (Retarget.quaternion_of_raw raw2) as [q2|]; [|done].
  rewrite bind_or_raise_Some.
  apply bind_raised. unfold Retarget.JOINT_MAP. cbn [for_each].
  apply bind_raised. unfold Retarget.apply_joint. cbv zeta.
  apply bind_raised. apply pose_bones_get_no_pose.
  unfold has_pose. rewrite Ho. simpl. rewrite Hpose. by intros [? ?].
Qed.

Lemma update_sensor_bone_no_pose (w : World) (rig : string) (o : Object)
    (item : Z * string) (raw : pyval) :
  objects w !! rig = Some o ->
  pose o = None ->
  latest_data w !! KNum (zq item.1) = Some raw ->
  Link.update_sensor_bone rig item w = (Raised, w).
Proof.
  intros Ho Hpose Hraw. unfold Link.update_sensor_bone. cbv zeta.
  rewrite bind_gets. cbn beta. rewrite Hraw.
  apply bind_raised. apply pose_bones_get_no_pose.
  unfold has_pose. rewrite Ho. simpl. rewrite Hpose. by intros [? ?].
Qed.
End Poseless.

(** X16. The fall-back of the start does not look at the type of the
    object named "Armature".  On an object that has no pose the tick of
    the Retarget Stage raises as soon as both sensors have an entry, and
    the tick of the Link Stage raises as soon as one configured sensor has
    an entry; in both cases nothing has been written and the world is as it
    was, so every later tick raises the same way. *)
Theorem tick_on_object_without_pose {L : HostLib} (w : World) (o : Object) :
  objects w !! op_armature_name w = Some o ->
  pose o = None ->
  (forall raw1 raw2,
     latest_data w !! KNum (zq Retarget.IMU_SHOULDER_ID) = Some raw1 ->
     latest_data w !! KNum (zq Retarget.IMU_FOREARM_ID) = Some raw2 ->
     Retarget.modal "TIMER" w = (Raised, w)) /\
  (forall item raw,
     item ∈ Link.BONE_MAP ->
     latest_data w !! KNum (zq item.1) = Some raw ->
     Link.modal "TIMER" w = (Raised, w)).
Proof.
  intros Ho Hpose. split.
  - intros raw1 raw2. by apply (retarget_tick_no_pose w o).
  - intros item raw Hin Hraw. unfold Link.modal.
    rewrite decide_False by done. rewrite decide_True by done.
    rewrite !bind_gets. cbn beta. rewrite Ho.
    apply bind_raised. unfold Link.BONE_MAP in *. cbn [for_each].
    apply elem_of_cons in Hin as [->|Hin].
    + apply bind_raised. by apply (update_sensor_bone_no_pose w _ o _ raw).
    + apply elem_of_cons in Hin as [->|Hin]; [|by apply elem_of_nil in Hin].
      destruct (latest_data w !! KNum (zq 0)) as [raw0|] eqn:H0.
      * apply bind_raised.
        by apply (update_sensor_bone_no_pose w _ o (0%Z, "UpperArm.008") raw0).
      * rewrite (bind_returned _ _ _ _ _
                   (update_sensor_bone_absent _ (0%Z, "UpperArm.008") w H0)).
        apply bind_raised.
        by apply (update_sensor_bone_no_pose w _ o (1%Z, "UpperArm.021") raw).
Qed.

Lemma tick_on_object_without_pose_witness :
  fst (Retarget.execute mesh_world) = Returned RUNNING_MODAL /\
  @Retarget.modal example_lib "TIMER" started_mesh_world
  = (Raised, started_mesh_world).
Proof.
  split; [reflexivity|].
  edestruct (@tick_on_object_without_pose example_lib started_mesh_world)
    as [Hr _]; [reflexivity | reflexivity |].
  eapply Hr; vm_compute; reflexivity.
Defined.

(** ** A rig that lacks some bones *)

(** X17. A missing bone costs only its own joint.  On a rig that has a
    pose, a tick of the Retarget Stage with both sensors read returns
    normally, and its stop on a started operator returns CANCELLED; in
    both, every joint whose bone the rig has shows its angle (derived,
    respectively home), whichever other bones are missing, and a bone the
    rig lacks is still lacking afterwards: nothing is created. *)
Theorem missing_bones_are_skipped {L : HostLib} (w : World) :
  let rig := op_armature_name w in
  has_pose w rig ->
  (forall raw1 raw2 q1 q2,
     latest_data w !! KNum (zq Retarget.IMU_SHOULDER_ID) = Some raw1 ->
     latest_data w !! KNum (zq Retarget.IMU_FOREARM_ID) = Some raw2 ->
     Retarget.quaternion_of_raw raw1 = Some q1 ->
     Retarget.quaternion_of_raw raw2 = Some q2 ->
     let w' := exec (Retarget.modal "TIMER") w in
     fst (Retarget.modal "TIMER" w) = Returned PASS_THROUGH /\
     Forall (fun j : string * Retarget.JointConfig =>
               (is_Some (bone_at w rig (Retarget.bone j.2)) ->
                joint_angle w' rig j.1
                = Some (angle_of (Retarget.target_angles q1 q2) j.1)) /\
               (bone_at w rig (Retarget.bone j.2) = None ->
                bone_at w' rig (Retarget.bone j.2) = None))
       Retarget.JOINT_MAP) /\
  (forall h,
     op_timer w = Some h ->
     let w' := exec Retarget.cancel w in
     fst (Retarget.cancel w) = Returned CANCELLED /\
     Forall (fun j : string * Retarget.JointConfig =>
               (is_Some (bone_at w rig (Retarget.bone j.2)) ->
                joint_angle w' rig j.1 = Some (home_angle j.1)) /\
               (bone_at w rig (Retarget.bone j.2) = None ->
                bone_at w' rig (Retarget.bone j.2) = None))
       Retarget.JOINT_MAP).
Proof.
  intros rig Hp. subst rig. split.
  - intros raw1 raw2 q1 q2 H1 H2 Hq1 Hq2 w'. subst w'. unfold exec.
    rewrite (retarget_tick_run w raw1 raw2 q1 q2 H1 H2 Hq1 Hq2 Hp). cbn [fst snd].
    split; [done|]. apply Forall_forall. intros j Hj. split.
    + intros Hb. by apply joint_angle_foldl.
    + intros Hb.
      rewrite bone_at_foldl_joint by (apply JOINT_MAP_bones_distinct || done).
      by rewrite Hb.
  - intros h Ht w'. subst w'. unfold exec.
    rewrite (retarget_cancel_run w h Ht Hp). cbn [fst snd].
    split; [done|]. apply Forall_forall. intros j Hj. split.
    + intros Hb.
      apply (joint_angle_foldl (op_armature_name w) home_angle
               (set_wm_timers (delete h) (wm_next_timer w) (set_is_running false w))
               j Hj Hb).
    + intros Hb.
      rewrite bone_at_foldl_joint by (apply JOINT_MAP_bones_distinct || done).
      change (bone_at (set_wm_timers ?f ?n (set_is_running ?b w))) with (bone_at w).
      by rewrite Hb.
Qed.

Lemma missing_bones_are_skipped_witness :
  bone_at partial_world "Armature" "UpperArm.018" = None /\
  let w' := exec (@Retarget.modal example_lib "TIMER") partial_world in
  bone_at w' "Armature" "UpperArm.018" = None /\
  is_Some (joint_angle w' "Armature" "Wrist").
Proof.
  split; [reflexivity|].
  destruct (@missing_bones_are_skipped example_lib partial_world) as [Htick _].
  { vm_compute. eauto. }
  edestruct Htick as [_ Hjoints];
    [vm_compute; reflexivity | vm_compute; reflexivity
    | vm_compute; reflexivity | vm_compute; reflexivity |].
  rewrite Forall_forall in Hjoints. split.
  - apply (Hjoints ("Elbow", Retarget.mkJoint "UpperArm.018" "X")); [pick_elem|].
    reflexivity.
  - destruct (Hjoints ("Wrist", Retarget.mkJoint "UpperArm.019" "Y")) as [Hw _];
      [pick_elem|].
    eexists. apply Hw. vm_compute. eauto.
Defined.

(** ** Rotations of more than four numbers *)

Lemma quaternion_of_raw_take (l : list pyval) :
  Retarget.quaternion_of_raw (PList (take 4 l)) = Retarget.quaternion_of_raw (PList l).
Proof. by destruct l as [|a [|b [|c [|d rest]]]]. Qed.

Lemma rotation_of_long (l : list pyval) :
  (4 < length l)%nat -> rotation_of (PList l) = None.
Proof.
  destruct l as [|a [|b [|c [|d [|e rest]]]]]; cbn [length]; try lia. done.
Qed.

Lemma joint_step_store (rig : string) (angle : string -> Qc)
    (f : gmap Key pyval -> gmap Key pyval)
    (js : list (string * Retarget.JointConfig)) (w : World) :
  foldl (fun w' j => joint_step rig angle j w') (set_latest_data f w) js
  = set_latest_data f (foldl (fun w' j => joint_step rig angle j w') w js).
Proof.
  revert w. induction js as [|j js IH]; intros w; [done|].
  cbn [foldl]. rewrite <- IH. f_equal.
  unfold joint_step.
  change (bone_at (set_latest_data f w)) with (bone_at w).
  by destruct (decide (is_Some (bone_at w rig (Retarget.bone j.2)))).
Qed.

(** X18. The two scripts treat a stored rotation of more than four numbers
    differently.  The tick of the Retarget Stage reads the first four and
    ignores the rest: on a rig with a pose it returns normally and leaves
    the scene and the host writes of the same tick on the store cut down
    to four numbers per sensor.  The tick of the Link Stage refuses it:
    with such a list under sensor 0 and the bone of sensor 0 in the rig,
    it raises before anything is written. *)
Theorem overlong_rotation {L : HostLib} (w : World) (l1 l2 : list pyval)
    (q1 q2 : Quaternion) :
  let rig := op_armature_name w in
  latest_data w !! KNum (zq Retarget.IMU_SHOULDER_ID) = Some (PList l1) ->
  latest_data w !! KNum (zq Retarget.IMU_FOREARM_ID) = Some (PList l2) ->
  Retarget.quaternion_of_raw (PList l1) = Some q1 ->
  Retarget.quaternion_of_raw (PList l2) = Some q2 ->
  (4 < length l2)%nat ->
  has_pose w rig ->
  (fst (Retarget.modal "TIMER" w) = Returned PASS_THROUGH /\
   objects (exec (Retarget.modal "TIMER") w)
   = objects (exec (Retarget.modal "TIMER") (cut_store l1 l2 w)) /\
   pose_log (exec (Retarget.modal "TIMER") w)
   = pose_log (exec (Retarget.modal "TIMER") (cut_store l1 l2 w))) /\
  (is_Some (bone_at w rig "UpperArm.008") ->
   Link.modal "TIMER" w = (Raised, w)).
Proof.
  intros rig H1 H2 Hq1 Hq2 Hlen Hp. subst rig. split.
  - assert (Retarget.modal "TIMER" (cut_store l1 l2 w)
            = (Returned PASS_THROUGH,
               foldl (fun w' j => joint_step (op_armature_name w)
                                    (angle_of (Retarget.target_angles q1 q2)) j w')
                 (cut_store l1 l2 w) Retarget.JOINT_MAP)) as Hcut.
    { apply (retarget_tick_run (cut_store l1 l2 w)
               (PList (take 4 l1)) (PList (take 4 l2)) q1 q2).
      - unfold cut_store. cbn [latest_data set_latest_data].
        by rewrite lookup_insert_eq.
      - unfold cut_store. cbn [latest_data set_latest_data].
        rewrite lookup_insert_ne by (intros [= H]; by apply (f_equal Qcanon.this) in H).
        by rewrite lookup_insert_eq.
      - by rewrite quaternion_of_raw_take.
      - by rewrite quaternion_of_raw_take.
      - exact Hp. }
    unfold exec.
    rewrite (retarget_tick_run w _ _ q1 q2 H1 H2 Hq1 Hq2 Hp), Hcut. cbn [fst snd].
    unfold cut_store. rewrite joint_step_store. done.
  - intros [pb0 Hb0].
    destruct (has_pose_object _ _ Hp) as [o Ho].
    unfold Link.modal.
    rewrite decide_False by done. rewrite decide_True by done.
    rewrite !bind_gets. cbn beta. rewrite Ho.
    unfold Link.BONE_MAP. cbn [for_each].
    apply bind_raised. apply bind_raised.
    apply (update_sensor_bone_malformed _ (0%Z, "UpperArm.008") w (PList l2) pb0);
      [exact H2 | exact Hb0 | by apply rotation_of_long].
Qed.

Lemma overlong_rotation_witness :
  fst (@Retarget.modal example_lib "TIMER" long_world) = Returned PASS_THROUGH /\
  objects (exec (@Retarget.modal example_lib "TIMER") long_world)
  = objects (exec (@Retarget.modal example_lib "TIMER") tick_world) /\
  @Link.modal example_lib "TIMER" long_world = (Raised, long_world).
Proof.
  edestruct (@overlong_rotation example_lib long_world) as [(Hr & Ho & _) Hlink];
    [vm_compute; reflexivity | vm_compute; reflexivity
    | vm_compute; reflexivity | vm_compute; reflexivity
    | cbn [length]; lia | vm_compute; eauto |].
  split; [exact Hr|]. split.
  - rewrite Ho. vm_compute. reflexivity.
  - apply Hlink. vm_compute. eauto.
Defined.

(** ** The installer of pyserial *)

Section InstallerFacts.
Context {H : Installer.Host}.

Lemma try_commands_sys_path (cmds : list (list string)) (e : Installer.Env) :
  Installer.sys_path (Installer.try_commands cmds e).2 = Installer.sys_path e.
Proof.
  revert e. induction cmds as [|cmd cmds IH]; intros e; [done|].
  cbn [Installer.try_commands Installer.call].
  destruct (Installer.subprocess_call (Installer.calls e) cmd) as [[| |]|];
    try done; by rewrite IH.
Qed.

Lemma install_pyserial_sys_path (e : Installer.Env) :
  Installer.sys_path (Installer.install_pyserial e) = Installer.sys_path e \/
  exists u, Installer.getusersitepackages = Some u /\
            (u ∉ Installer.sys_path e) /\
            Installer.sys_path (Installer.install_pyserial e)
            = (Installer.sys_path e ++ [u])%list.
Proof.
  unfold Installer.install_pyserial.
  destruct (Installer.import_serial e); [by left|].
  cbn [Installer.call].
  match goal with
  | |- context [Installer.try_commands ?c ?e0] =>
      pose proof (try_commands_sys_path c e0) as Hp;
      destruct (Installer.try_commands c e0) as [success e1]
  end.
  cbn [snd] in Hp.
  assert (Installer.sys_path e1 = Installer.sys_path e) as Hp'.
  { rewrite Hp.
    by destruct (Installer.subprocess_call (Installer.calls
         (Installer.print "Pyserial not found. Attempting installation..." e))
         Installer.ensurepip_cmd). }
  clear Hp. destruct success; [|by left].
  destruct Installer.getusersitepackages as [u|] eqn:Hu; [|by left].
  cbn [Installer.sys_path Installer.invalidate_caches Installer.print].
  destruct (decide (u ∈ Installer.sys_path e1)) as [Hin|Hin].
  - left. cbn [Installer.sys_path]. exact Hp'.
  - right. exists u. split; [done|].
    cbn [Installer.path_append Installer.sys_path].
    rewrite <- Hp'. done.
Qed.

Lemma try_commands_cases (e0 : Installer.Env) :
  let pip := [Installer.sys_executable; "-m"; "pip"; "install"; "pyserial"] in
  let pip_user := (pip ++ ["--user"])%list in
  let r1 := Installer.subprocess_call (Installer.calls e0) pip in
  let r2 := Installer.subprocess_call (Installer.calls e0 ++ [pip]) pip_user in
  let res := Installer.try_commands Installer.commands e0 in
  Installer.printed res.2 = Installer.printed e0 /\
  Installer.invalidations res.2 = Installer.invalidations e0 /\
  (r1 = Installer.Exit 0 ->
   res.1 = true /\ Installer.calls res.2 = (Installer.calls e0 ++ [pip])%list) /\
  (r1 <> Installer.Exit 0 ->
   Installer.calls res.2 = (Installer.calls e0 ++ [pip; pip_user])%list /\
   (r2 <> Installer.Exit 0 -> res.1 = false)).
Proof.
  cbv zeta. unfold Installer.commands.
  cbn [Installer.try_commands Installer.call Installer.calls app].
  destruct (Installer.subprocess_call (Installer.calls e0) _) as [[| |]|];
    cbn [fst snd Installer.printed Installer.invalidations Installer.calls].
  1: by repeat split.
  all: destruct (Installer.subprocess_call (Installer.calls e0 ++ _) _) as [[| |]|];
    cbn [fst snd Installer.printed Installer.invalidations Installer.calls];
    rewrite <- app_assoc; by repeat split.
Qed.

End InstallerFacts.

(** X19. However often a script is loaded, the installer leaves
    [sys.path] as it was or with one entry more at its end, the user site
    directory, and only when that directory was not on the path: entries
    are never removed, reordered or duplicated, whatever the subprocesses
    answer. *)
Theorem installer_path_grows_once {H : Installer.Host} (n : nat)
    (e : Installer.Env) :
  let e' := Nat.iter n Installer.install_pyserial e in
  Installer.sys_path e' = Installer.sys_path e \/
  exists u, Installer.getusersitepackages = Some u /\
            (u ∉ Installer.sys_path e) /\
            Installer.sys_path e' = (Installer.sys_path e ++ [u])%list.
Proof.
  cbv zeta. induction n as [|n IH]; [by left|].
  rewrite Nat.iter_succ.
  destruct (install_pyserial_sys_path (Nat.iter n Installer.install_pyserial e))
    as [Hsame|(u & Hu & Hnew & Happ)].
  - rewrite Hsame. exact IH.
  - destruct IH as [IH|(u' & Hu' & Hnew' & Happ')].
    + right. exists u. rewrite <- IH. done.
    + exfalso. apply Hnew. rewrite Happ'.
      assert (u' = u) as -> by congruence.
      apply elem_of_app. right. apply list_elem_of_here.
Qed.

(** X20. One run of the installer.  When [serial] can be imported the head
    of the script does nothing at all.  Otherwise ensurepip is tried first
    and its outcome is ignored, the plain install is run next, and the
    install to the user site is run exactly when the plain one did not
    exit with 0, so never more than three commands; when neither install
    exits with 0, [sys.path] and the import caches are left alone and the
    last line printed asks for a manual install. *)
Theorem installer_single_run {H : Installer.Host} (e : Installer.Env) :
  let pip := [Installer.sys_executable; "-m"; "pip"; "install"; "pyserial"] in
  let pip_user := (pip ++ ["--user"])%list in
  let before := (Installer.calls e ++ [Installer.ensurepip_cmd])%list in
  let r1 := Installer.subprocess_call before pip in
  let r2 := Installer.subprocess_call (before ++ [pip]) pip_user in
  let e' := Installer.install_pyserial e in
  (Installer.import_serial e = true -> Installer.load_head e = (None, e)) /\
  (Installer.import_serial e = false ->
     (r1 = Installer.Exit 0 -> Installer.calls e' = (before ++ [pip])%list) /\
     (r1 <> Installer.Exit 0 ->
      Installer.calls e' = (before ++ [pip; pip_user])%list) /\
     (r1 <> Installer.Exit 0 -> r2 <> Installer.Exit 0 ->
      Installer.sys_path e' = Installer.sys_path e /\
      Installer.invalidations e' = Installer.invalidations e /\
      last (Installer.printed e')
      = Some "CRITICAL: Manual install required via terminal.")).
Proof.
  cbv zeta. split.
  - intros Hi. unfold Installer.load_head, Installer.install_pyserial.
    by rewrite !Hi.
  - intros Hi. unfold Installer.install_pyserial. rewrite Hi.
    cbn [Installer.call Installer.calls Installer.print].
    match goal with
    | |- context [Installer.try_commands _ ?x] => set (e0 := x)
    end.
    assert (Installer.calls e0
            = (Installer.calls e ++ [Installer.ensurepip_cmd])%list
            /\ Installer.sys_path e0 = Installer.sys_path e
            /\ Installer.invalidations e0 = Installer.invalidations e)
      as (Hc0 & Hp0 & Hi0).
    { subst e0.
      by destruct (Installer.subprocess_call (Installer.calls e)
                     Installer.ensurepip_cmd). }
    pose proof (try_commands_cases e0) as (Hpr & Hinv & Hok & Hko).
    pose proof (try_commands_sys_path Installer.commands e0) as Hpath.
    rewrite Hc0 in Hok, Hko.
    destruct (Installer.try_commands Installer.commands e0) as [success e1].
    cbn [fst snd] in Hpr, Hinv, Hok, Hko, Hpath.
    assert (forall b : bool,
              Installer.calls
                (if b then
                   match Installer.getusersitepackages with
                   | Some user_site =>
                       if decide (user_site ∈ Installer.sys_path
                                    (Installer.invalidate_caches
                                       (Installer.print
                                          "Pyserial installed! Refreshing paths..." e1)))
                       then Installer.invalidate_caches
                              (Installer.print
                                 "Pyserial installed! Refreshing paths..." e1)
                       else Installer.path_append user_site
                              (Installer.invalidate_caches
                                 (Installer.print
                                    "Pyserial installed! Refreshing paths..." e1))
                   | None => Installer.invalidate_caches
                               (Installer.print
                                  "Pyserial installed! Refreshing paths..." e1)
                   end
                 else Installer.print
                        "CRITICAL: Manual install required via terminal." e1)
              = Installer.calls e1) as Hcalls.
    { intros [|]; [|done].
      destruct Installer.getusersitepackages as [u|]; [|done].
      by destruct (decide _). }
    split; [|split].
    + intros Hr1. rewrite Hcalls. by apply Hok.
    + intros Hr1. rewrite Hcalls. by apply Hko.
    + intros Hr1 Hr2. destruct (Hko Hr1) as [_ Hfail].
      rewrite (Hfail Hr2).
      cbn [Installer.print Installer.sys_path Installer.invalidations
           Installer.printed].
      rewrite Hpath, Hp0, Hinv, Hi0. repeat split.
      apply last_snoc.
Qed.

Lemma installer_single_run_witness :
  let e' := @Installer.install_pyserial Installer.example_host Installer.fresh in
  Installer.calls e'
  = [ ["/opt/blender/python"; "-m"; "ensurepip"; "--user"];
      ["/opt/blender/python"; "-m"; "pip"; "install"; "pyserial"];
      ["/opt/blender/python"; "-m"; "pip"; "install"; "pyserial"; "--user"] ] /\
  @Installer.load_head Installer.example_host e' = (None, e').
Proof.
  cbv zeta. split.
  - destruct (@installer_single_run Installer.example_host Installer.fresh)
      as [_ Hrun].
    destruct Hrun as (_ & Hko & _); [reflexivity|].
    apply Hko. intros Heq. vm_compute in Heq. discriminate.
  - destruct (@installer_single_run Installer.example_host
                (@Installer.install_pyserial Installer.example_host Installer.fresh))
      as [Hload _].
    apply Hload. vm_compute. reflexivity.
Defined.
